(** * A shallow embedding of the chess rules engine

    Embedded sources: [src/domain/types.ts], [src/domain/piece.ts],
    [src/domain/move.ts], [src/domain/board.ts],
    [src/domain/rules/pieceRules.ts], [src/domain/rules/gameRules.ts],
    [src/domain/gameState.ts] and [convex/_game/validation.ts].

    Modelling conventions.
    - A JavaScript [number] is a value of [number]: an integer or [NaN].
      Every number the engine computes from integer inputs is an integer,
      except for the [NaN] that [parseInt] yields on text without digits.
      Sums, decimal texts and [parseInt] are exact, as JavaScript's are on
      the safe integers ([safeInteger]: below 2^53 in absolute value);
      beyond them JavaScript rounds a sum and writes an exponent, which
      this model does not follow, so a property that reads the sum or the
      text of a clock is stated for safe integers.
    - A JavaScript string is a [string]; code units are restricted to 8 bits.
    - A function that may [throw] returns an [outcome].
    - The [Map] of the board is an association list in insertion order, with
      the update discipline of the JavaScript [Map] ([set] on a present key
      keeps the entry's place, [delete] followed by [set] moves it last).
    - Methods that mutate a board take the board and return the new one. *)

From Stdlib Require Import ZArith List String Ascii Bool Lia.
From Stdlib Require Import DecimalString DecimalZ DecimalPos.
Import ListNotations.

Local Open Scope string_scope.
Local Open Scope list_scope.
Local Open Scope Z_scope.

(** ** JavaScript values *)

Inductive number : Type :=
| Int (z : Z)
| NaN.

Inductive outcome (A : Type) : Type :=
| Returns (a : A)
| Throws (msg : string).

Arguments Returns {A} a.
Arguments Throws {A} msg.

Module Js.

(** [a + b], [a - b] and [a * b]: the exact result, which is JavaScript's
    while the operands and the result are safe integers. *)
Definition add (a b : number) : number :=
  match a, b with
  | Int x, Int y => Int (x + y)
  | _, _ => NaN
  end.

Definition sub (a b : number) : number :=
  match a, b with
  | Int x, Int y => Int (x - y)
  | _, _ => NaN
  end.

Definition mul (a b : number) : number :=
  match a, b with
  | Int x, Int y => Int (x * y)
  | _, _ => NaN
  end.

(** [a / b].  The engine divides only an even sum by two (see
    [GameState.applyMove]); the quotient of integers that do not divide
    evenly is outside [number] and is truncated here. *)
Definition div (a b : number) : number :=
  match a, b with
  | Int x, Int y => if y =? 0 then NaN else Int (Z.quot x y)
  | _, _ => NaN
  end.

(** [a % b]: the remainder takes the sign of the dividend. *)
Definition rem (a b : number) : number :=
  match a, b with
  | Int x, Int y => if y =? 0 then NaN else Int (Z.rem x y)
  | _, _ => NaN
  end.

Definition abs (a : number) : number :=
  match a with
  | Int x => Int (Z.abs x)
  | NaN => NaN
  end.

(** [a === b] on numbers: [NaN] differs from everything, itself included. *)
Definition eqb (a b : number) : bool :=
  match a, b with
  | Int x, Int y => x =? y
  | _, _ => false
  end.

Definition ltb (a b : number) : bool :=
  match a, b with
  | Int x, Int y => x <? y
  | _, _ => false
  end.

Definition leb (a b : number) : bool :=
  match a, b with
  | Int x, Int y => x <=? y
  | _, _ => false
  end.

Definition gtb (a b : number) : bool := ltb b a.
Definition geb (a b : number) : bool := leb b a.

(** [a || d] on numbers: [0] and [NaN] are falsy. *)
Definition orElse (a d : number) : number :=
  match a with
  | Int 0 => d
  | Int x => Int x
  | NaN => d
  end.

(** [n.toString()], also the conversion used by template strings: the
    decimal digits, which is what JavaScript writes for an integer below
    10^21 in absolute value. *)
Definition toString (a : number) : string :=
  match a with
  | Int x => NilEmpty.string_of_int (Z.to_int x)
  | NaN => "NaN"
  end.

Definition code (c : ascii) : Z := Z.of_N (N_of_ascii c).

(** [String.fromCharCode(a)]: the code unit is taken modulo the width of
    a code unit, 8 bits in this model and 16 in JavaScript, which is the
    same for the codes 0 to 255; [NaN] gives code unit 0. *)
Definition fromCharCode (a : number) : string :=
  match a with
  | Int x => String (ascii_of_N (Z.to_N (x mod 256))) EmptyString
  | NaN => String zero EmptyString
  end.

(** [s.charCodeAt(i)]. *)
Definition charCodeAt (s : string) (i : nat) : number :=
  match String.get i s with
  | Some c => Int (code c)
  | None => NaN
  end.

(** [s[i]] handed to a function that expects a string: an index out of
    range gives [undefined], which converts to the text "undefined". *)
Definition index (s : string) (i : nat) : string :=
  match String.get i s with
  | Some c => String c EmptyString
  | None => "undefined"
  end.

(** White space as [parseInt], [trim] and the regular expression class
    [\s] understand it (the 8-bit part of that set). *)
Definition isWhiteSpace (c : ascii) : bool :=
  let n := code c in
  ((9 <=? n) && (n <=? 13)) || (n =? 32) || (n =? 160).

Definition isDigit (c : ascii) : bool :=
  let n := code c in (48 <=? n) && (n <=? 57).

Fixpoint skipWhiteSpace (s : string) : string :=
  match s with
  | String c r => if isWhiteSpace c then skipWhiteSpace r else s
  | EmptyString => EmptyString
  end.

(** The value of the longest prefix of decimal digits. *)
Fixpoint digitsValue (s : string) (acc : Z) : Z :=
  match s with
  | String c r => if isDigit c then digitsValue r (10 * acc + (code c - 48)) else acc
  | EmptyString => acc
  end.

Definition startsWithDigit (s : string) : bool :=
  match s with
  | String c _ => isDigit c
  | EmptyString => false
  end.

(** [parseInt(s, 10)]: leading white space, an optional sign, then as
    many decimal digits as there are; [NaN] when there is none.  The value
    is exact, as JavaScript's is while it is a safe integer. *)
Definition parseInt (s : string) : number :=
  let s1 := skipWhiteSpace s in
  let '(sign, s2) :=
    match s1 with
    | String "-" r => (-1, r)
    | String "+" r => (1, r)
    | _ => (1, s1)
    end in
  if startsWithDigit s2 then Int (sign * digitsValue s2 0) else NaN.

(** [c.toUpperCase()] for one code unit.  Only the letters a-z change in
    a way the engine can observe: no other code unit has an upper-case
    form among the piece letters. *)
Definition toUpperCase (c : ascii) : ascii :=
  let n := code c in
  if (97 <=? n) && (n <=? 122) then ascii_of_N (Z.to_N (n - 32)) else c.

(** [s.includes(c)] for a one-character needle. *)
Fixpoint includes (s : string) (c : ascii) : bool :=
  match s with
  | String d r => Ascii.eqb d c || includes r c
  | EmptyString => false
  end.

(** [s.split(sep)] for a one-character separator. *)
Fixpoint splitOn (sep : ascii) (s : string) (cur : string) : list string :=
  match s with
  | String c r =>
      if Ascii.eqb c sep then cur :: splitOn sep r EmptyString
      else splitOn sep r (cur ++ String c EmptyString)
  | EmptyString => [cur]
  end.

Definition split (s : string) (sep : ascii) : list string := splitOn sep s EmptyString.

(** [s.split(/\s+/)]: the pieces between maximal runs of white space. *)
Fixpoint splitSpaces (s : string) (cur : string) (inRun : bool) : list string :=
  match s with
  | String c r =>
      if isWhiteSpace c
      then (if inRun then splitSpaces r EmptyString true else cur :: splitSpaces r EmptyString true)
      else splitSpaces r (cur ++ String c EmptyString) false
  | EmptyString => [cur]
  end.

Definition splitWhiteSpace (s : string) : list string := splitSpaces s EmptyString false.

Fixpoint reverse (s : string) (acc : string) : string :=
  match s with
  | String c r => reverse r (String c acc)
  | EmptyString => acc
  end.

(** [s.trim()]. *)
Definition trim (s : string) : string :=
  reverse (skipWhiteSpace (reverse (skipWhiteSpace s) EmptyString)) EmptyString.

(** [c.toLowerCase()] for one code unit of the letters A-Z; the strings
    lowered in the engine are piece letters and promotion names. *)
Definition toLowerCase (c : ascii) : ascii :=
  let n := code c in
  if (65 <=? n) && (n <=? 90) then ascii_of_N (Z.to_N (n + 32)) else c.

(** [s.toLowerCase()]. *)
Fixpoint lowerString (s : string) : string :=
  match s with
  | String c r => String (toLowerCase c) (lowerString r)
  | EmptyString => EmptyString
  end.

End Js.

(** ** [types.ts] *)

Inductive Color : Type := White | Black.

Inductive PieceType : Type := Pawn | Knight | Bishop | Rook | Queen | King.

Record Position : Type := mkPosition { file : number; rank : number }.

Inductive GameResult : Type := WhiteWin | BlackWin | Draw | InProgress.

Inductive GameEndReason : Type :=
| Checkmate | Stalemate | Resignation | DrawAgreement
| InsufficientMaterial | ThreefoldRepetition | FiftyMoveRule | Timeout.

Inductive SpecialMoveType : Type :=
| SpecialNone | EnPassant | CastleKingside | CastleQueenside | PawnPromotion.

Definition Color_eqb (a b : Color) : bool :=
  match a, b with
  | White, White | Black, Black => true
  | _, _ => false
  end.

Definition PieceType_eqb (a b : PieceType) : bool :=
  match a, b with
  | Pawn, Pawn | Knight, Knight | Bishop, Bishop
  | Rook, Rook | Queen, Queen | King, King => true
  | _, _ => false
  end.

Definition GameResult_eqb (a b : GameResult) : bool :=
  match a, b with
  | WhiteWin, WhiteWin | BlackWin, BlackWin | Draw, Draw
  | InProgress, InProgress => true
  | _, _ => false
  end.

Definition SpecialMoveType_eqb (a b : SpecialMoveType) : bool :=
  match a, b with
  | SpecialNone, SpecialNone | EnPassant, EnPassant
  | CastleKingside, CastleKingside | CastleQueenside, CastleQueenside
  | PawnPromotion, PawnPromotion => true
  | _, _ => false
  end.

Module PositionUtils.

Definition toAlgebraic (pos : Position) : string :=
  let file := Js.fromCharCode (Js.add (Js.charCodeAt "a" 0) (file pos)) in
  let rank := Js.toString (Js.add (rank pos) (Int 1)) in
  file ++ rank.

Definition fromAlgebraic (notation : string) : outcome Position :=
  if negb (Nat.eqb (String.length notation) 2) then
    Throws ("Invalid algebraic notation: " ++ notation)
  else
    let file := Js.sub (Js.charCodeAt notation 0) (Js.charCodeAt "a" 0) in
    let rank := Js.sub (Js.parseInt (Js.index notation 1)) (Int 1) in
    if Js.ltb file (Int 0) || Js.gtb file (Int 7)
       || Js.ltb rank (Int 0) || Js.gtb rank (Int 7)
    then Throws ("Invalid algebraic notation: " ++ notation)
    else Returns {| file := file; rank := rank |}.

Definition isValid (pos : Position) : bool :=
  Js.geb (file pos) (Int 0) && Js.leb (file pos) (Int 7)
  && Js.geb (rank pos) (Int 0) && Js.leb (rank pos) (Int 7).

Definition equals (a b : Position) : bool :=
  Js.eqb (file a) (file b) && Js.eqb (rank a) (rank b).

Definition create (file rank : number) : Position :=
  {| file := file; rank := rank |}.

End PositionUtils.

Module ColorUtils.

Definition opposite (color : Color) : Color :=
  if Color_eqb color White then Black else White.

End ColorUtils.

(** ** [piece.ts] *)

Record Piece : Type := mkPiece {
  ptype : PieceType;
  color : Color;
  position : Position;
  hasMoved : bool
}.

Module Piece.

(** [new Piece(type, color, position)] with [hasMoved] defaulted. *)
Definition create (type : PieceType) (color : Color) (position : Position) : Piece :=
  mkPiece type color position false.

Definition moveTo (this : Piece) (newPosition : Position) : Piece :=
  mkPiece (ptype this) (color this) newPosition true.

Definition clone (this : Piece) : Piece :=
  mkPiece (ptype this) (color this)
          {| file := file (position this); rank := rank (position this) |}
          (hasMoved this).

Definition getNotation (this : Piece) : string :=
  match ptype this with
  | King => "K"
  | Queen => "Q"
  | Rook => "R"
  | Bishop => "B"
  | Knight => "N"
  | Pawn => EmptyString
  end.

Definition promote (this : Piece) (newType : PieceType) : outcome Piece :=
  if negb (PieceType_eqb (ptype this) Pawn) then
    Throws "Only pawns can be promoted"
  else if PieceType_eqb newType Pawn || PieceType_eqb newType King then
    Throws "Cannot promote to pawn or king"
  else Returns (mkPiece newType (color this) (position this) true).

(** [equals]: same type, colour and square; [hasMoved] is not compared. *)
Definition equals (this other : Piece) : bool :=
  PieceType_eqb (ptype this) (ptype other)
  && Color_eqb (color this) (color other)
  && Js.eqb (file (position this)) (file (position other))
  && Js.eqb (rank (position this)) (rank (position other)).

Definition getValue (this : Piece) : number :=
  match ptype this with
  | Pawn => Int 1
  | Knight => Int 3
  | Bishop => Int 3
  | Rook => Int 5
  | Queen => Int 9
  | King => Int 0
  end.

End Piece.

(** ** [move.ts] *)

Record Move : Type := mkMove {
  from : Position;
  to : Position;
  piece : Piece;
  capturedPiece : option Piece;
  specialMove : SpecialMoveType;
  promotionType : option PieceType
}.

Module Move.

(** [new Move(from, to, piece, capturedPiece)] with the defaults. *)
Definition create (from to : Position) (piece : Piece) (capturedPiece : option Piece) : Move :=
  mkMove from to piece capturedPiece SpecialNone None.

Definition isCapture (this : Move) : bool :=
  match capturedPiece this with Some _ => true | None => false end.

Definition isCastling (this : Move) : bool :=
  SpecialMoveType_eqb (specialMove this) CastleKingside
  || SpecialMoveType_eqb (specialMove this) CastleQueenside.

Definition isEnPassant (this : Move) : bool :=
  SpecialMoveType_eqb (specialMove this) EnPassant.

Definition isPromotion (this : Move) : bool :=
  SpecialMoveType_eqb (specialMove this) PawnPromotion.

(** [toAlgebraic]: the (simplified) notation of a move. *)
Definition toAlgebraic (this : Move) : string :=
  let pieceNotation := Piece.getNotation (piece this) in
  let fromSquare := PositionUtils.toAlgebraic (from this) in
  let toSquare := PositionUtils.toAlgebraic (to this) in
  let capture := match capturedPiece this with Some _ => "x" | None => EmptyString end in
  if SpecialMoveType_eqb (specialMove this) CastleKingside then "O-O"
  else if SpecialMoveType_eqb (specialMove this) CastleQueenside then "O-O-O"
  else
    let notation := (pieceNotation ++ fromSquare ++ capture ++ toSquare)%string in
    match promotionType this with
    | Some promotionType =>
        (notation ++ "="
         ++ Piece.getNotation (Piece.create promotionType (color (piece this)) (to this)))%string
    | None => notation
    end.

Definition clone (this : Move) : Move :=
  mkMove {| file := file (from this); rank := rank (from this) |}
         {| file := file (to this); rank := rank (to this) |}
         (Piece.clone (piece this))
         (match capturedPiece this with
          | Some captured => Some (Piece.clone captured)
          | None => None
          end)
         (specialMove this) (promotionType this).

End Move.

(** ** The JavaScript [Map] from strings to pieces *)

Module JsMap.

Definition t : Type := list (string * Piece).

Fixpoint get (k : string) (m : t) : option Piece :=
  match m with
  | [] => None
  | (k', v) :: r => if String.eqb k' k then Some v else get k r
  end.

(** [set] overwrites the value of a present key where it stands and
    appends an absent key. *)
Fixpoint set (k : string) (v : Piece) (m : t) : t :=
  match m with
  | [] => [(k, v)]
  | (k', v') :: r =>
      if String.eqb k' k then (k', v) :: r else (k', v') :: set k v r
  end.

Fixpoint delete (k : string) (m : t) : t :=
  match m with
  | [] => []
  | (k', v') :: r =>
      if String.eqb k' k then r else (k', v') :: delete k r
  end.

Definition values (m : t) : list Piece := map snd m.

Definition keys (m : t) : list string := map fst m.

End JsMap.

(** ** [board.ts] *)

Record Board : Type := mkBoard { pieces : JsMap.t }.

Module Board.

Definition getPositionKey (pos : Position) : string :=
  Js.toString (file pos) ++ "," ++ Js.toString (rank pos).

Definition getPiece (this : Board) (pos : Position) : option Piece :=
  JsMap.get (getPositionKey pos) (pieces this).

Definition setPiece (this : Board) (piece : Piece) : Board :=
  mkBoard (JsMap.set (getPositionKey (position piece)) piece (pieces this)).

Definition removePiece (this : Board) (pos : Position) : Board :=
  mkBoard (JsMap.delete (getPositionKey pos) (pieces this)).

(** [new Board(pieces)]: the pieces are set one after the other. *)
Definition create (ps : list Piece) : Board :=
  fold_left setPiece ps (mkBoard []).

Definition movePiece (this : Board) (from to : Position) : outcome Board :=
  match getPiece this from with
  | None => Throws ("No piece at position " ++ PositionUtils.toAlgebraic from)
  | Some piece => Returns (setPiece (removePiece this from) (Piece.moveTo piece to))
  end.

Definition getAllPieces (this : Board) : list Piece :=
  JsMap.values (pieces this).

Definition getPiecesByColor (this : Board) (c : Color) : list Piece :=
  filter (fun piece => Color_eqb (color piece) c) (getAllPieces this).

Definition getPiecesByType (this : Board) (type : PieceType) : list Piece :=
  filter (fun piece => PieceType_eqb (ptype piece) type) (getAllPieces this).

Definition getKing (this : Board) (c : Color) : option Piece :=
  find (fun piece => PieceType_eqb (ptype piece) King && Color_eqb (color piece) c)
       (getAllPieces this).

Definition isEmpty (this : Board) (pos : Position) : bool :=
  match getPiece this pos with Some _ => false | None => true end.

Definition isOpponentPiece (this : Board) (pos : Position) (c : Color) : bool :=
  match getPiece this pos with
  | Some piece => negb (Color_eqb (color piece) c)
  | None => false
  end.

Definition clone (this : Board) : Board :=
  create (map Piece.clone (getAllPieces this)).

(** The square of integer file [f] and rank [r], as the literal
    [{ file: f, rank: r }]. *)
Definition pos (f r : Z) : Position := {| file := Int f; rank := Int r |}.

Definition createStandard : Board :=
  let pawns :=
    flat_map (fun f => [Piece.create Pawn White (pos f 1);
                        Piece.create Pawn Black (pos f 6)])
             [0; 1; 2; 3; 4; 5; 6; 7] in
  create
    (pawns ++
     [Piece.create Rook White (pos 0 0); Piece.create Rook White (pos 7 0);
      Piece.create Rook Black (pos 0 7); Piece.create Rook Black (pos 7 7);
      Piece.create Knight White (pos 1 0); Piece.create Knight White (pos 6 0);
      Piece.create Knight Black (pos 1 7); Piece.create Knight Black (pos 6 7);
      Piece.create Bishop White (pos 2 0); Piece.create Bishop White (pos 5 0);
      Piece.create Bishop Black (pos 2 7); Piece.create Bishop Black (pos 5 7);
      Piece.create Queen White (pos 3 0); Piece.create Queen Black (pos 3 7);
      Piece.create King White (pos 4 0); Piece.create King Black (pos 4 7)]).

Definition createEmpty : Board := create [].

(** The piece letter of [fromFEN]'s [switch]; [None] is the [default]
    branch. *)
Definition pieceTypeOfChar (pieceChar : ascii) : option PieceType :=
  match pieceChar with
  | "K"%char => Some King
  | "Q"%char => Some Queen
  | "R"%char => Some Rook
  | "B"%char => Some Bishop
  | "N"%char => Some Knight
  | "P"%char => Some Pawn
  | _ => None
  end.

(** [hasMoved] as [fromFEN] reconstructs it from the castling rights. *)
Definition fenHasMoved (pieceType : PieceType) (c : Color) (file rank : number)
           (castlingRights : string) : bool :=
  let canWhiteCastleKingside := Js.includes castlingRights "K" in
  let canWhiteCastleQueenside := Js.includes castlingRights "Q" in
  let canBlackCastleKingside := Js.includes castlingRights "k" in
  let canBlackCastleQueenside := Js.includes castlingRights "q" in
  match pieceType with
  | King =>
      if Color_eqb c White && Js.eqb file (Int 4) && Js.eqb rank (Int 0) then
        negb (canWhiteCastleKingside || canWhiteCastleQueenside)
      else if Color_eqb c Black && Js.eqb file (Int 4) && Js.eqb rank (Int 7) then
        negb (canBlackCastleKingside || canBlackCastleQueenside)
      else true
  | Rook =>
      if Color_eqb c White && Js.eqb rank (Int 0) then
        if Js.eqb file (Int 7) then negb canWhiteCastleKingside
        else if Js.eqb file (Int 0) then negb canWhiteCastleQueenside
        else true
      else if Color_eqb c Black && Js.eqb rank (Int 7) then
        if Js.eqb file (Int 7) then negb canBlackCastleKingside
        else if Js.eqb file (Int 0) then negb canBlackCastleQueenside
        else true
      else true
  | Pawn =>
      if (Color_eqb c White && Js.eqb rank (Int 1))
         || (Color_eqb c Black && Js.eqb rank (Int 6))
      then false else true
  | _ => true
  end.

(** The inner loop of [fromFEN] over the characters of one rank: the
    pieces read so far (in push order) and the running file. *)
Fixpoint fenRow (row : string) (rank : number) (castlingRights : string)
         (file : number) (acc : list Piece) : outcome (list Piece * number) :=
  match row with
  | EmptyString => Returns (acc, file)
  | String char rest =>
      if (Js.code "1" <=? Js.code char) && (Js.code char <=? Js.code "8") then
        fenRow rest rank castlingRights
               (Js.add file (Js.parseInt (String char EmptyString))) acc
      else
        let c := if Ascii.eqb char (Js.toUpperCase char) then White else Black in
        let pieceChar := Js.toUpperCase char in
        match pieceTypeOfChar pieceChar with
        | None => Throws ("Invalid FEN: unknown piece " ++ String char EmptyString)
        | Some pieceType =>
            let hasMoved := fenHasMoved pieceType c file rank castlingRights in
            fenRow rest rank castlingRights (Js.add file (Int 1))
                   (acc ++ [mkPiece pieceType c {| file := file; rank := rank |} hasMoved])
        end
  end.

(** The outer loop of [fromFEN]: [rows] are the ranks still to read, the
    first of them being rank [rank]. *)
Fixpoint fenRows (rows : list string) (rank : Z) (castlingRights : string)
         (acc : list Piece) : outcome (list Piece) :=
  match rows with
  | [] => Returns acc
  | row :: rest =>
      match fenRow row (Int rank) castlingRights (Int 0) acc with
      | Throws msg => Throws msg
      | Returns (acc', file) =>
          if negb (Js.eqb file (Int 8)) then
            Throws ("Invalid FEN: rank " ++ Js.toString (Int (rank + 1))
                    ++ " has wrong number of squares")
          else fenRows rest (rank - 1) castlingRights acc'
      end
  end.

Definition fromFEN (fen : string) (castlingRights : string) : outcome Board :=
  let rows := Js.split fen "/" in
  if negb (Nat.eqb (List.length rows) 8) then
    Throws "Invalid FEN: must have 8 ranks"
  else
    match fenRows rows 7 castlingRights [] with
    | Throws msg => Throws msg
    | Returns ps => Returns (create ps)
    end.

(** The body of the inner loop of [toFEN] for one file: the text so far
    and the number of empty squares not yet written. *)
Definition toFENSquare (this : Board) (rank : number) (st : string * number) (file : Z)
  : string * number :=
  let '(fen, emptyCount) := st in
  match getPiece this {| file := Int file; rank := rank |} with
  | Some piece =>
      let '(fen, emptyCount) :=
        if Js.gtb emptyCount (Int 0)
        then ((fen ++ Js.toString emptyCount)%string, Int 0)
        else (fen, emptyCount) in
      let notation :=
        if String.eqb (Piece.getNotation piece) EmptyString
        then "P" else Piece.getNotation piece in
      ((fen ++ (if Color_eqb (color piece) White
                then notation else Js.lowerString notation))%string,
       emptyCount)
  | None => (fen, Js.add emptyCount (Int 1))
  end.

(** The body of the outer loop of [toFEN] for one rank. *)
Definition toFENRank (this : Board) (fen : string) (rank : Z) : string :=
  let '(fen, emptyCount) :=
    fold_left (toFENSquare this (Int rank)) [0; 1; 2; 3; 4; 5; 6; 7] (fen, Int 0) in
  let fen :=
    if Js.gtb emptyCount (Int 0) then (fen ++ Js.toString emptyCount)%string else fen in
  if 0 <? rank then (fen ++ "/")%string else fen.

Definition toFEN (this : Board) : string :=
  fold_left (toFENRank this) [7; 6; 5; 4; 3; 2; 1; 0] EmptyString.

End Board.

(** ** [rules/pieceRules.ts] *)

Module PieceRules.

Definition direction (c : Color) : number :=
  if Color_eqb c White then Int 1 else Int (-1).

Definition startRank (c : Color) : number :=
  if Color_eqb c White then Int 1 else Int 6.

(** [PawnRules.getPossibleMoves] *)
Definition pawnMoves (piece : Piece) (board : Board) : list Position :=
  let direction := direction (color piece) in
  let startRank := startRank (color piece) in
  let file := file (position piece) in
  let rank := rank (position piece) in
  let oneForward := {| file := file; rank := Js.add rank direction |} in
  let forward :=
    if PositionUtils.isValid oneForward && Board.isEmpty board oneForward then
      oneForward ::
      (if Js.eqb rank startRank then
         let twoForward :=
           {| file := file; rank := Js.add rank (Js.mul (Int 2) direction) |} in
         if Board.isEmpty board twoForward then [twoForward] else []
       else [])
    else [] in
  let captureFiles := [Js.sub file (Int 1); Js.add file (Int 1)] in
  forward ++
  flat_map
    (fun captureFile =>
       let capturePos := {| file := captureFile; rank := Js.add rank direction |} in
       if PositionUtils.isValid capturePos
          && Board.isOpponentPiece board capturePos (color piece)
       then [capturePos] else [])
    captureFiles.

(** The body shared by the knight's and the king's loop over candidate
    squares. *)
Definition keepCandidate (piece : Piece) (board : Board) (move : Position) : list Position :=
  if PositionUtils.isValid move then
    match Board.getPiece board move with
    | None => [move]
    | Some targetPiece =>
        if negb (Color_eqb (color targetPiece) (color piece)) then [move] else []
    end
  else [].

Definition offset (p : Position) (df dr : Z) : Position :=
  {| file := Js.add (file p) (Int df); rank := Js.add (rank p) (Int dr) |}.

(** [KnightRules.getPossibleMoves] *)
Definition knightMoves (piece : Piece) (board : Board) : list Position :=
  let p := position piece in
  let knightMoves :=
    [offset p 2 1; offset p 2 (-1); offset p (-2) 1; offset p (-2) (-1);
     offset p 1 2; offset p 1 (-2); offset p (-1) 2; offset p (-1) (-2)] in
  flat_map (keepCandidate piece board) knightMoves.

(** The [while] loop of the ray walks; [fuel] bounds its iterations. *)
Fixpoint walk (fuel : nat) (piece : Piece) (board : Board) (dir : Position)
         (currentFile currentRank : number) : list Position :=
  match fuel with
  | O => []
  | S fuel' =>
      if Js.geb currentFile (Int 0) && Js.leb currentFile (Int 7)
         && Js.geb currentRank (Int 0) && Js.leb currentRank (Int 7)
      then
        let pos := {| file := currentFile; rank := currentRank |} in
        match Board.getPiece board pos with
        | None =>
            pos :: walk fuel' piece board dir
                        (Js.add currentFile (file dir)) (Js.add currentRank (rank dir))
        | Some targetPiece =>
            if negb (Color_eqb (color targetPiece) (color piece)) then [pos] else []
        end
      else []
  end.

(** Eight iterations exhaust any ray on the board (lemma
    [walk_fuel_enough]). *)
Definition rayFuel : nat := 8.

Definition rays (directions : list Position) (piece : Piece) (board : Board) : list Position :=
  flat_map
    (fun dir =>
       walk rayFuel piece board dir
            (Js.add (file (position piece)) (file dir))
            (Js.add (rank (position piece)) (rank dir)))
    directions.

Definition diagonalDirections : list Position :=
  [Board.pos 1 1; Board.pos 1 (-1); Board.pos (-1) 1; Board.pos (-1) (-1)].

Definition straightDirections : list Position :=
  [Board.pos 1 0; Board.pos (-1) 0; Board.pos 0 1; Board.pos 0 (-1)].

(** [BishopRules.getDiagonalMoves] *)
Definition getDiagonalMoves (piece : Piece) (board : Board) : list Position :=
  rays diagonalDirections piece board.

(** [RookRules.getStraightMoves] *)
Definition getStraightMoves (piece : Piece) (board : Board) : list Position :=
  rays straightDirections piece board.

(** [QueenRules.getPossibleMoves] *)
Definition queenMoves (piece : Piece) (board : Board) : list Position :=
  getStraightMoves piece board ++ getDiagonalMoves piece board.

(** [KingRules.getPossibleMoves] *)
Definition kingMoves (piece : Piece) (board : Board) : list Position :=
  let p := position piece in
  let kingMoves :=
    [offset p 1 0; offset p (-1) 0; offset p 0 1; offset p 0 (-1);
     offset p 1 1; offset p 1 (-1); offset p (-1) 1; offset p (-1) (-1)] in
  flat_map (keepCandidate piece board) kingMoves.

(** [PieceRulesFactory.getPossibleMoves]: the table has an entry for each
    of the six piece types, so [getRules] never throws. *)
Definition getPossibleMoves (piece : Piece) (board : Board) : list Position :=
  match ptype piece with
  | Pawn => pawnMoves piece board
  | Knight => knightMoves piece board
  | Bishop => getDiagonalMoves piece board
  | Rook => getStraightMoves piece board
  | Queen => queenMoves piece board
  | King => kingMoves piece board
  end.

End PieceRules.

(** ** [rules/gameRules.ts] *)

Module GameRules.

Definition isSquareAttacked (board : Board) (position : Position) (defenderColor : Color) : bool :=
  let attackerColor := ColorUtils.opposite defenderColor in
  let attackers := Board.getPiecesByColor board attackerColor in
  existsb
    (fun attacker =>
       let possibleMoves := PieceRules.getPossibleMoves attacker board in
       existsb (fun move => PositionUtils.equals move position) possibleMoves)
    attackers.

Definition isInCheck (board : Board) (c : Color) : bool :=
  match Board.getKing board c with
  | None => false
  | Some king => isSquareAttacked board (position king) c
  end.

Definition applyMove (board : Board) (move : Move) : Board :=
  let board := Board.removePiece board (from move) in
  let board :=
    match capturedPiece move with
    | Some captured => Board.removePiece board (position captured)
    | None => board
    end in
  Board.setPiece board (Piece.moveTo (piece move) (to move)).

Definition isMoveLegal (move : Move) (board : Board) : bool :=
  let testBoard := Board.clone board in
  let testBoard := applyMove testBoard move in
  negb (isInCheck testBoard (color (piece move))).

Definition onRank (f : Z) (rank : number) : Position :=
  {| file := Int f; rank := rank |}.

Definition getCastlingMoves (king : Piece) (board : Board) : list Move :=
  if negb (PieceType_eqb (ptype king) King) || hasMoved king then []
  else
    let rank := rank (position king) in
    let kingside :=
      match Board.getPiece board (onRank 7 rank) with
      | Some kingsideRook =>
          if PieceType_eqb (ptype kingsideRook) Rook
             && negb (hasMoved kingsideRook)
             && Board.isEmpty board (onRank 5 rank)
             && Board.isEmpty board (onRank 6 rank)
             && negb (isSquareAttacked board (onRank 4 rank) (color king))
             && negb (isSquareAttacked board (onRank 5 rank) (color king))
             && negb (isSquareAttacked board (onRank 6 rank) (color king))
          then [mkMove (position king) (onRank 6 rank) king None CastleKingside None]
          else []
      | None => []
      end in
    let queenside :=
      match Board.getPiece board (onRank 0 rank) with
      | Some queensideRook =>
          if PieceType_eqb (ptype queensideRook) Rook
             && negb (hasMoved queensideRook)
             && Board.isEmpty board (onRank 1 rank)
             && Board.isEmpty board (onRank 2 rank)
             && Board.isEmpty board (onRank 3 rank)
             && negb (isSquareAttacked board (onRank 4 rank) (color king))
             && negb (isSquareAttacked board (onRank 3 rank) (color king))
             && negb (isSquareAttacked board (onRank 2 rank) (color king))
          then [mkMove (position king) (onRank 2 rank) king None CastleQueenside None]
          else []
      | None => []
      end in
    kingside ++ queenside.

(** The [for] loop of [getEnPassantMove] over the capture files, with its
    early [return]. *)
Fixpoint enPassantLoop (captureFiles : list number) (pawn : Piece) (board : Board)
         (enPassantTarget : Position) : option Move :=
  match captureFiles with
  | [] => None
  | captureFile :: rest =>
      let direction := PieceRules.direction (color pawn) in
      if Js.eqb captureFile (file enPassantTarget)
         && Js.eqb (Js.add (rank (position pawn)) direction) (rank enPassantTarget)
      then
        let capturedPawnPos :=
          {| file := file enPassantTarget; rank := rank (position pawn) |} in
        match Board.getPiece board capturedPawnPos with
        | Some capturedPawn =>
            if PieceType_eqb (ptype capturedPawn) Pawn then
              let move := mkMove (position pawn) enPassantTarget pawn
                                 (Some capturedPawn) EnPassant None in
              if isMoveLegal move board then Some move
              else enPassantLoop rest pawn board enPassantTarget
            else enPassantLoop rest pawn board enPassantTarget
        | None => enPassantLoop rest pawn board enPassantTarget
        end
      else enPassantLoop rest pawn board enPassantTarget
  end.

Definition getEnPassantMove (pawn : Piece) (board : Board) (enPassantTarget : Position)
  : option Move :=
  if negb (PieceType_eqb (ptype pawn) Pawn) then None
  else
    let captureFiles :=
      [Js.sub (file (position pawn)) (Int 1); Js.add (file (position pawn)) (Int 1)] in
    enPassantLoop captureFiles pawn board enPassantTarget.

Definition getLegalMoves (piece : Piece) (board : Board) (enPassantTarget : option Position)
  : list Move :=
  let pseudoLegalMoves := PieceRules.getPossibleMoves piece board in
  let legalMoves :=
    filter (fun move => isMoveLegal move board)
           (map (fun targetPos =>
                   Move.create (position piece) targetPos piece
                                  (Board.getPiece board targetPos))
                pseudoLegalMoves) in
  let castling :=
    if PieceType_eqb (ptype piece) King then getCastlingMoves piece board else [] in
  let enPassant :=
    match enPassantTarget with
    | Some target =>
        if PieceType_eqb (ptype piece) Pawn then
          match getEnPassantMove piece board target with
          | Some enPassantMove => [enPassantMove]
          | None => []
          end
        else []
    | None => []
    end in
  legalMoves ++ castling ++ enPassant.

Definition getAllLegalMoves (board : Board) (c : Color) (enPassantTarget : option Position)
  : list Move :=
  flat_map (fun piece => getLegalMoves piece board enPassantTarget)
           (Board.getPiecesByColor board c).

Definition isCheckmate (board : Board) (c : Color) (enPassantTarget : option Position) : bool :=
  if negb (isInCheck board c) then false
  else Nat.eqb (List.length (getAllLegalMoves board c enPassantTarget)) 0.

Definition isStalemate (board : Board) (c : Color) (enPassantTarget : option Position) : bool :=
  if isInCheck board c then false
  else Nat.eqb (List.length (getAllLegalMoves board c enPassantTarget)) 0.

(** The parity of a square as the code computes it: [(file + rank) % 2]. *)
Definition squareParity (p : Piece) : number :=
  Js.rem (Js.add (file (position p)) (rank (position p))) (Int 2).

(** The last block of [hasInsufficientMaterial] (four pieces, two of them
    bishops) followed by the final [return false]. *)
Definition fourPieceCase (pieces : list Piece) : bool :=
  if Nat.eqb (List.length pieces) 4 then
    match filter (fun p => PieceType_eqb (ptype p) Bishop) pieces with
    | [b0; b1] => Js.eqb (squareParity b0) (squareParity b1)
    | _ => false
    end
  else false.

Definition hasInsufficientMaterial (board : Board) : bool :=
  let pieces := Board.getAllPieces board in
  if Nat.eqb (List.length pieces) 2 then true
  else if Nat.eqb (List.length pieces) 3 then
    match filter (fun p => negb (PieceType_eqb (ptype p) King)) pieces with
    | [piece] => PieceType_eqb (ptype piece) Bishop || PieceType_eqb (ptype piece) Knight
    | _ => fourPieceCase pieces
    end
  else fourPieceCase pieces.

End GameRules.

(** ** [gameState.ts] *)

Record GameState : Type := mkGameState {
  board : Board;
  currentTurn : Color;
  moveHistory : list Move;
  enPassantTarget : option Position;
  halfMoveClock : number;
  fullMoveNumber : number;
  result : GameResult;
  endReason : option GameEndReason
}.

(** [MoveResult] of [move.ts]; an absent field is [None]. *)
Record MoveResult : Type := mkMoveResult {
  success : bool;
  move : option Move;
  newState : option GameState;
  error : option string;
  isCheck : option bool;
  isCheckmate : option bool;
  isStalemate : option bool
}.

Module GameState.

Definition failure (msg : string) : MoveResult :=
  mkMoveResult false None None (Some msg) None None None.

(** [new GameState(board, currentTurn)] with the defaults. *)
Definition create (board : Board) (currentTurn : Color) : GameState :=
  mkGameState board currentTurn [] None (Int 0) (Int 1) InProgress None.

Definition createStandard : GameState :=
  create Board.createStandard White.

Definition createCustom (board : Board) (currentTurn : Color) : GameState :=
  create board currentTurn.

Definition fromFEN (fen : string) : outcome GameState :=
  let parts := Js.splitWhiteSpace (Js.trim fen) in
  match parts with
  | [positionPart; turnPart; castlingPart; enPassantPart; halfMovePart; fullMovePart] =>
      match Board.fromFEN positionPart "-" with
      | Throws msg => Throws msg
      | Returns board =>
          let currentTurn := if String.eqb turnPart "w" then White else Black in
          let enPassantTarget :=
            if negb (String.eqb enPassantPart "-") then
              match PositionUtils.fromAlgebraic enPassantPart with
              | Returns p => Some p
              | Throws _ => None
              end
            else None in
          let halfMoveClock := Js.orElse (Js.parseInt halfMovePart) (Int 0) in
          let fullMoveNumber := Js.orElse (Js.parseInt fullMovePart) (Int 1) in
          Returns (mkGameState board currentTurn [] enPassantTarget
                               halfMoveClock fullMoveNumber InProgress None)
      end
  | _ => Throws "Invalid FEN: must have 6 parts"
  end.

Definition getLegalMoves (this : GameState) : list Move :=
  GameRules.getAllLegalMoves (board this) (currentTurn this) (enPassantTarget this).

Definition getLegalMovesForPiece (this : GameState) (piece : Piece) : list Move :=
  if negb (Color_eqb (color piece) (currentTurn this)) then []
  else GameRules.getLegalMoves piece (board this) (enPassantTarget this).

Definition applyCastling (board : Board) (move : Move) : Board :=
  let rank := rank (from move) in
  let board := Board.removePiece board (from move) in
  let board := Board.setPiece board (Piece.moveTo (piece move) (to move)) in
  if SpecialMoveType_eqb (specialMove move) CastleKingside then
    match Board.getPiece board (GameRules.onRank 7 rank) with
    | Some rook =>
        Board.setPiece (Board.removePiece board (GameRules.onRank 7 rank))
                          (Piece.moveTo rook (GameRules.onRank 5 rank))
    | None => board
    end
  else if SpecialMoveType_eqb (specialMove move) CastleQueenside then
    match Board.getPiece board (GameRules.onRank 0 rank) with
    | Some rook =>
        Board.setPiece (Board.removePiece board (GameRules.onRank 0 rank))
                          (Piece.moveTo rook (GameRules.onRank 3 rank))
    | None => board
    end
  else board.

Definition applyEnPassant (board : Board) (move : Move) : Board :=
  let board := Board.removePiece board (from move) in
  let board := Board.setPiece board (Piece.moveTo (piece move) (to move)) in
  match capturedPiece move with
  | Some captured => Board.removePiece board (position captured)
  | None => board
  end.

Definition applyPromotion (board : Board) (move : Move) : outcome Board :=
  let board := Board.removePiece board (from move) in
  let board :=
    match capturedPiece move with
    | Some captured => Board.removePiece board (position captured)
    | None => board
    end in
  match promotionType move with
  | Some promotionType =>
      match Piece.promote (piece move) promotionType with
      | Throws msg => Throws msg
      | Returns promoted =>
          Returns (Board.setPiece board (Piece.moveTo promoted (to move)))
      end
  | None => Returns board
  end.

Definition checkGameEnd (board : Board) (currentTurn : Color)
           (enPassantTarget : option Position) (halfMoveClock : number)
           (moveHistory : list Move) : GameResult * option GameEndReason :=
  if GameRules.isCheckmate board currentTurn enPassantTarget then
    (if Color_eqb currentTurn White then BlackWin else WhiteWin, Some Checkmate)
  else if GameRules.isStalemate board currentTurn enPassantTarget then
    (Draw, Some Stalemate)
  else if GameRules.hasInsufficientMaterial board then
    (Draw, Some InsufficientMaterial)
  else if Js.geb halfMoveClock (Int 100) then
    (Draw, Some FiftyMoveRule)
  else (InProgress, None).

(** The board part of [applyMove]: the clone and the branch on the kind
    of move. *)
Definition applyToBoard (this : GameState) (move : Move) : outcome Board :=
  let newBoard := Board.clone (board this) in
  if Move.isCastling move then Returns (applyCastling newBoard move)
  else if Move.isEnPassant move then Returns (applyEnPassant newBoard move)
  else if Move.isPromotion move then applyPromotion newBoard move
  else Returns (GameRules.applyMove newBoard move).

Definition applyMove (this : GameState) (move : Move) : outcome GameState :=
  match applyToBoard this move with
  | Throws msg => Throws msg
  | Returns newBoard =>
      let newEnPassantTarget :=
        if PieceType_eqb (ptype (piece move)) Pawn
           && Js.eqb (Js.abs (Js.sub (rank (to move)) (rank (from move)))) (Int 2)
        then Some {| file := file (from move);
                     rank := Js.div (Js.add (rank (from move)) (rank (to move))) (Int 2) |}
        else None in
      let newHalfMoveClock :=
        if PieceType_eqb (ptype (piece move)) Pawn || Move.isCapture move
        then Int 0
        else Js.add (halfMoveClock this) (Int 1) in
      let newMoveHistory := moveHistory this ++ [move] in
      let newFullMoveNumber :=
        if Color_eqb (currentTurn this) Black
        then Js.add (fullMoveNumber this) (Int 1)
        else fullMoveNumber this in
      let newCurrentTurn := ColorUtils.opposite (currentTurn this) in
      let '(result, endReason) :=
        checkGameEnd newBoard newCurrentTurn newEnPassantTarget
                     newHalfMoveClock newMoveHistory in
      Returns (mkGameState newBoard newCurrentTurn newMoveHistory newEnPassantTarget
                           newHalfMoveClock newFullMoveNumber result endReason)
  end.

Definition isBackRank (piece : Piece) (to : Position) : bool :=
  PieceType_eqb (ptype piece) Pawn
  && ((Color_eqb (color piece) White && Js.eqb (rank to) (Int 7))
      || (Color_eqb (color piece) Black && Js.eqb (rank to) (Int 0))).

(** The test of [legalMoves.find] in [makeMove]:
    [PositionUtils.equals(m.to, to)]. *)
Definition arrivesAt (m : Move) (square : Position) : bool :=
  PositionUtils.equals (to m) square.

Definition makeMove (this : GameState) (from to : Position)
           (promotionType : option PieceType) : outcome MoveResult :=
  match Board.getPiece (board this) from with
  | None => Returns (failure "No piece at source position")
  | Some piece =>
      if negb (Color_eqb (color piece) (currentTurn this)) then
        Returns (failure "Not your turn")
      else
        let legalMoves := getLegalMovesForPiece this piece in
        match find (fun m => arrivesAt m to) legalMoves with
        | None => Returns (failure "Illegal move")
        | Some found =>
            let chosen :=
              if isBackRank piece to then
                match promotionType with
                | None => None
                | Some _ =>
                    Some (mkMove from to piece (capturedPiece found)
                                 PawnPromotion promotionType)
                end
              else Some found in
            match chosen with
            | None => Returns (failure "Promotion type required")
            | Some move =>
                match applyMove this move with
                | Throws msg => Throws msg
                | Returns newState =>
                    Returns
                      (mkMoveResult true (Some move) (Some newState) None
                         (Some (GameRules.isInCheck (board newState) (currentTurn newState)))
                         (Some (GameResult_eqb (result newState) WhiteWin
                                || GameResult_eqb (result newState) BlackWin))
                         (Some (GameResult_eqb (result newState) Draw
                                && match endReason newState with
                                   | Some Stalemate => true
                                   | _ => false
                                   end)))
                end
            end
        end
  end.

Definition isInCheck (this : GameState) : bool :=
  GameRules.isInCheck (board this) (currentTurn this).

Definition resign (this : GameState) : GameState :=
  let result := if Color_eqb (currentTurn this) White then BlackWin else WhiteWin in
  mkGameState (board this) (currentTurn this) (moveHistory this) (enPassantTarget this)
              (halfMoveClock this) (fullMoveNumber this) result (Some Resignation).

Definition agreeToDraw (this : GameState) : GameState :=
  mkGameState (board this) (currentTurn this) (moveHistory this) (enPassantTarget this)
              (halfMoveClock this) (fullMoveNumber this) Draw (Some DrawAgreement).

Definition clone (this : GameState) : GameState :=
  mkGameState (Board.clone (board this)) (currentTurn this) (moveHistory this)
              (match enPassantTarget this with
               | Some t => Some {| file := file t; rank := rank t |}
               | None => None
               end)
              (halfMoveClock this) (fullMoveNumber this) (result this) (endReason this).

Definition toFEN (this : GameState) : string :=
  let position := Board.toFEN (board this) in
  let turn := if Color_eqb (currentTurn this) White then "w" else "b" in
  let castling := "-" in
  let enPassant :=
    match enPassantTarget this with
    | Some target => PositionUtils.toAlgebraic target
    | None => "-"
    end in
  position ++ " " ++ turn ++ " " ++ castling ++ " " ++ enPassant ++ " "
  ++ Js.toString (halfMoveClock this) ++ " " ++ Js.toString (fullMoveNumber this).

End GameState.

(** ** [convex/_game/validation.ts] *)

Module Validation.

(** The fields of the engine's [MoveResult], whose names the fields of
    [ValidatedMoveResult] take over below. *)
Local Abbreviation moveSuccess := success (only parsing).
Local Abbreviation moveError := error (only parsing).
Local Abbreviation moveIsCheck := isCheck (only parsing).
Local Abbreviation moveIsCheckmate := isCheckmate (only parsing).
Local Abbreviation moveIsStalemate := isStalemate (only parsing).

Record ValidatedMoveResult : Type := mkValidatedMoveResult {
  success : bool;
  newFEN : option string;
  error : option string;
  isCheck : option bool;
  isCheckmate : option bool;
  isStalemate : option bool
}.

Definition failure (msg : string) : ValidatedMoveResult :=
  mkValidatedMoveResult false None (Some msg) None None None.

(** The [switch] on the promotion name.  The outer [None] is the
    [default] branch; a missing or empty name leaves the type undefined. *)
Definition promotionOfName (promotionType : option string) : option (option PieceType) :=
  match promotionType with
  | None => Some None
  | Some name =>
      if String.eqb name EmptyString then Some None
      else
        let lowered := Js.lowerString name in
        if String.eqb lowered "queen" then Some (Some Queen)
        else if String.eqb lowered "rook" then Some (Some Rook)
        else if String.eqb lowered "bishop" then Some (Some Bishop)
        else if String.eqb lowered "knight" then Some (Some Knight)
        else None
  end.

Definition expectedColor (playerColor : string) : Color :=
  if String.eqb playerColor "white" then White else Black.

(** The [catch] block of [validateAndExecuteMove]. *)
Definition serverError : ValidatedMoveResult :=
  failure "Server error during move validation".

Definition validateAndExecuteMove (currentFEN playerId playerColor : string)
           (from to : Position) (promotionType : option string) : ValidatedMoveResult :=
  match GameState.fromFEN currentFEN with
  | Throws _ => serverError
  | Returns gameState =>
      if negb (Color_eqb (currentTurn gameState) (expectedColor playerColor)) then
        failure "Not your turn"
      else if negb (GameResult_eqb (result gameState) InProgress) then
        failure "Game is already finished"
      else
        match promotionOfName promotionType with
        | None => failure "Invalid promotion type"
        | Some pieceTypeForPromotion =>
            match GameState.makeMove gameState from to pieceTypeForPromotion with
            | Throws _ => serverError
            | Returns result =>
                match moveSuccess result, newState result with
                | true, Some newState =>
                    mkValidatedMoveResult true (Some (GameState.toFEN newState)) None
                                          (moveIsCheck result) (moveIsCheckmate result)
                                          (moveIsStalemate result)
                | _, _ =>
                    failure (match moveError result with
                             | Some msg => if String.eqb msg EmptyString
                                           then "Illegal move" else msg
                             | None => "Illegal move"
                             end)
                end
            end
        end
  end.

(** [getLegalMoves] of the validation module: the squares of the legal
    moves of the side to move, or nothing. *)
Definition getLegalMoves (currentFEN playerColor : string) : list (Position * Position) :=
  match GameState.fromFEN currentFEN with
  | Throws _ => []
  | Returns gameState =>
      if negb (Color_eqb (currentTurn gameState) (expectedColor playerColor)) then []
      else
        map (fun move =>
               ({| file := file (from move); rank := rank (from move) |},
                {| file := file (to move); rank := rank (to move) |}))
            (GameState.getLegalMoves gameState)
  end.

Definition getGameResult (currentFEN : string) : GameResult * option GameEndReason :=
  match GameState.fromFEN currentFEN with
  | Throws _ => (InProgress, None)
  | Returns gameState =>
      let result :=
        if GameResult_eqb (result gameState) WhiteWin then WhiteWin
        else if GameResult_eqb (result gameState) BlackWin then BlackWin
        else if GameResult_eqb (result gameState) Draw then Draw
        else InProgress in
      (result, endReason gameState)
  end.

End Validation.

(** * Specifications and example positions *)

(** ** Algebraic notation *)

(** The strings of the pattern [[a-h][1-8]]. *)
Definition matchesSquare (s : string) : bool :=
  match s with
  | String c1 (String c2 EmptyString) =>
      (Js.code "a" <=? Js.code c1) && (Js.code c1 <=? Js.code "h")
      && (Js.code "1" <=? Js.code c2) && (Js.code c2 <=? Js.code "8")
  | _ => false
  end.

(** ** The transition function *)

(** The requests that [makeMove] accepts, read off the position alone: a
    piece of the side to move stands on the source square, one of its legal
    moves arrives at the destination, and a pawn reaching its last rank
    comes with a promotion type other than Pawn and King. *)
Definition accepted (s : GameState) (f t : Position) (promo : option PieceType) : Prop :=
  exists p,
    Board.getPiece (board s) f = Some p
    /\ color p = currentTurn s
    /\ (exists m, In m (GameRules.getLegalMoves p (board s) (enPassantTarget s))
                  /\ GameState.arrivesAt m t = true)
    /\ (GameState.isBackRank p t = true ->
        exists pt, promo = Some pt /\ pt <> Pawn /\ pt <> King).

(** ** End-condition detection (C6) *)

Definition winFor (mover : Color) : GameResult :=
  match mover with
  | White => WhiteWin
  | Black => BlackWin
  end.

(** The priority list of the specification: the first condition that holds
    on the new position decides. *)
Definition endCondition (newBoard : Board) (sideToMove : Color)
           (target : option Position) (clock : number) (mover : Color)
  : GameResult * option GameEndReason :=
  if GameRules.isCheckmate newBoard sideToMove target then (winFor mover, Some Checkmate)
  else if GameRules.isStalemate newBoard sideToMove target then (Draw, Some Stalemate)
  else if GameRules.hasInsufficientMaterial newBoard then (Draw, Some InsufficientMaterial)
  else if Js.geb clock (Int 100) then (Draw, Some FiftyMoveRule)
  else (InProgress, None).

Definition e2 : Position := Board.pos 4 1.
Definition e4 : Position := Board.pos 4 3.

(** The result of the opening move e2-e4 on the standard position. *)
Definition openingResult : MoveResult :=
  match GameState.makeMove GameState.createStandard e2 e4 None with
  | Returns r => r
  | Throws msg => GameState.failure msg
  end.

(** ** Terminal states (C2) *)

Definition withResult (s : GameState) (r : GameResult) (e : option GameEndReason)
  : GameState :=
  mkGameState (board s) (currentTurn s) (moveHistory s) (enPassantTarget s)
              (halfMoveClock s) (fullMoveNumber s) r e.

(** ** Throwing (C3) *)

Definition ruleViolations : list string :=
  ["No piece at source position"; "Not your turn"; "Illegal move";
   "Promotion type required"].

Definition e5 : Position := Board.pos 4 4.

Definition a7 : Position := Board.pos 0 6.
Definition a8 : Position := Board.pos 0 7.

(** A white pawn on a7 about to promote, the kings on e1 and e8. *)
Definition promotionPosition : GameState :=
  GameState.createCustom
    (Board.create [Piece.create King White (Board.pos 4 0);
                   Piece.create King Black (Board.pos 4 7);
                   Piece.create Pawn White a7])
    White.

(** ** Insufficient material (C5) *)

Definition kingCount (b : Board) : nat :=
  List.length (Board.getPiecesByType b King).

(** Exactly the two kings remain. *)
Definition onlyKings (b : Board) : Prop :=
  List.length (Board.getAllPieces b) = 2%nat /\ kingCount b = 2%nat.

(** The two kings and a single minor piece. *)
Definition kingsAndMinor (b : Board) : Prop :=
  List.length (Board.getAllPieces b) = 3%nat /\ kingCount b = 2%nat
  /\ exists minor,
      filter (fun p => negb (PieceType_eqb (ptype p) King)) (Board.getAllPieces b)
      = [minor]
      /\ (ptype minor = Bishop \/ ptype minor = Knight).

(** The two kings and two bishops whose squares have equal
    [(file + rank) % 2]. *)
Definition kingsAndEqualBishops (b : Board) : Prop :=
  List.length (Board.getAllPieces b) = 4%nat /\ kingCount b = 2%nat
  /\ exists b0 b1,
      Board.getPiecesByType b Bishop = [b0; b1]
      /\ Js.eqb (GameRules.squareParity b0) (GameRules.squareParity b1) = true.

Definition insufficientSpec (b : Board) : Prop :=
  onlyKings b \/ kingsAndMinor b \/ kingsAndEqualBishops b.

(** King and bishop against king. *)
Definition kingBishopKing : Board :=
  Board.create [Piece.create King White (Board.pos 4 0);
                Piece.create King Black (Board.pos 4 7);
                Piece.create Bishop White (Board.pos 2 0)].

(** A white king and a white rook, no black king. *)
Definition kingAndRook : Board :=
  Board.create [Piece.create King White (Board.pos 4 0);
                Piece.create Rook White (Board.pos 0 0)].

(** ** Castling (C4) *)

Inductive CastlingSide : Type := Kingside | Queenside.

Definition rookFile (side : CastlingSide) : Z :=
  match side with Kingside => 7 | Queenside => 0 end.

Definition destinationFile (side : CastlingSide) : Z :=
  match side with Kingside => 6 | Queenside => 2 end.

Definition castlingTag (side : CastlingSide) : SpecialMoveType :=
  match side with Kingside => CastleKingside | Queenside => CastleQueenside end.

Definition castlingMove (side : CastlingSide) (king : Piece) : Move :=
  mkMove (position king)
         (GameRules.onRank (destinationFile side) (rank (position king)))
         king None (castlingTag side) None.

Definition strictlyBetween (a b f : Z) : Prop := a < f < b \/ b < f < a.

Definition fromTo (a b f : Z) : Prop := a <= f <= b \/ b <= f <= a.

(** The test the code makes for each side, on the fixed files. *)
Definition castlingTest (side : CastlingSide) (king : Piece) (b : Board) : bool :=
  let rank := rank (position king) in
  let free f := Board.isEmpty b (GameRules.onRank f rank) in
  let safe f := negb (GameRules.isSquareAttacked b (GameRules.onRank f rank) (color king)) in
  match Board.getPiece b (GameRules.onRank (rookFile side) rank) with
  | Some rook =>
      match side with
      | Kingside =>
          PieceType_eqb (ptype rook) Rook && negb (hasMoved rook)
          && free 5 && free 6 && safe 4 && safe 5 && safe 6
      | Queenside =>
          PieceType_eqb (ptype rook) Rook && negb (hasMoved rook)
          && free 1 && free 2 && free 3 && safe 4 && safe 3 && safe 2
      end
  | None => false
  end.

(** The white king on e1, not moved. *)
Definition whiteKingE1 : Piece := Piece.create King White (Board.pos 4 0).

(** White king on e1 and rook on h1, neither moved; nothing else. *)
Definition kingAndCornerRook : Board :=
  Board.create [whiteKingE1; Piece.create Rook White (Board.pos 7 0)].

(** A white king on d1, not moved. *)
Definition whiteKingD1 : Piece := Piece.create King White (Board.pos 3 0).

(** An unmoved white king on d1, a white bishop on e1, an unmoved white
    rook on h1. *)
Definition kingOffHome : Board :=
  Board.create [whiteKingD1; Piece.create Bishop White (Board.pos 4 0);
                Piece.create Rook White (Board.pos 7 0)].

(** ** En passant (C8) *)

(** The two squares diagonally in front of a pawn. *)
Definition diagonalForward (pawn : Piece) : list Position :=
  let f := file (position pawn) in
  let r := Js.add (rank (position pawn)) (PieceRules.direction (color pawn)) in
  [{| file := Js.sub f (Int 1); rank := r |}; {| file := Js.add f (Int 1); rank := r |}].

(** The conditions of the specification for [getEnPassantMove] to return
    the move [m]; [admissible] is what is asked of the pawn found behind
    the target besides being a pawn. *)
Definition enPassantCondition (admissible : Piece -> Prop) (pawn : Piece) (b : Board)
           (target : Position) (m : Move) : Prop :=
  ptype pawn = Pawn
  /\ (exists square, In square (diagonalForward pawn)
                     /\ PositionUtils.equals square target = true)
  /\ exists captured,
      Board.getPiece b {| file := file target; rank := rank (position pawn) |}
      = Some captured
      /\ ptype captured = Pawn
      /\ admissible captured
      /\ m = mkMove (position pawn) target pawn (Some captured) EnPassant None
      /\ GameRules.isMoveLegal m b = true.

Definition anyColor (captured : Piece) : Prop := True.

Definition opponentOf (pawn captured : Piece) : Prop := color captured <> color pawn.

(** A white pawn on e5. *)
Definition whitePawnE5 : Piece := mkPiece Pawn White (Board.pos 4 4) true.

(** White pawns on e5 and d5 and the kings at home. *)
Definition ownPawnBeside : Board :=
  Board.create [Piece.create King White (Board.pos 4 0);
                Piece.create King Black (Board.pos 4 7);
                whitePawnE5;
                mkPiece Pawn White (Board.pos 3 4) true].

(** The en-passant target handed in with [ownPawnBeside]. *)
Definition d6 : Position := Board.pos 3 5.

(** ** The board as a map (C10) *)

(** A string without a comma. *)
Definition commaFree (s : string) : Prop := Js.includes s "," = false.

(** Every entry is stored under the key of its piece's position. *)
Definition keyed (m : JsMap.t) : Prop :=
  Forall (fun kv => fst kv = Board.getPositionKey (position (snd kv))) m.

(** The representation invariant of a board. *)
Definition wellFormed (b : Board) : Prop :=
  NoDup (JsMap.keys (pieces b)) /\ keyed (pieces b).

(** The ways to obtain a board, and the operations that change one. *)
Inductive BoardSource : Type :=
| FromPieces (ps : list Piece)
| FromFEN (fen castlingRights : string)
| StandardSetup
| EmptyBoard.

Inductive BoardOp : Type :=
| SetPiece (p : Piece)
| RemovePiece (pos : Position)
| MovePiece (from to : Position)
| Clone.

Definition construct (src : BoardSource) : outcome Board :=
  match src with
  | FromPieces ps => Returns (Board.create ps)
  | FromFEN fen castlingRights => Board.fromFEN fen castlingRights
  | StandardSetup => Returns Board.createStandard
  | EmptyBoard => Returns Board.createEmpty
  end.

Definition runOp (b : Board) (op : BoardOp) : outcome Board :=
  match op with
  | SetPiece p => Returns (Board.setPiece b p)
  | RemovePiece pos => Returns (Board.removePiece b pos)
  | MovePiece from to => Board.movePiece b from to
  | Clone => Returns (Board.clone b)
  end.

Fixpoint runOps (b : Board) (ops : list BoardOp) : outcome Board :=
  match ops with
  | [] => Returns b
  | op :: rest =>
      match runOp b op with
      | Returns b' => runOps b' rest
      | Throws msg => Throws msg
      end
  end.

(** The standard position after the knight move g1-f3, cloned. *)
Definition afterKnightMove : Board :=
  match runOps Board.createStandard
               [MovePiece (Board.pos 6 0) (Board.pos 5 2); Clone] with
  | Returns b => b
  | Throws _ => Board.createEmpty
  end.

(** ** Reading FEN (C9) *)

(** The four structural errors of [fromFEN]. *)
Definition structuralError (msg : string) : Prop :=
  msg = "Invalid FEN: must have 6 parts"
  \/ msg = "Invalid FEN: must have 8 ranks"
  \/ (exists char, msg = ("Invalid FEN: unknown piece " ++ String char EmptyString)%string)
  \/ (exists rank, msg = ("Invalid FEN: rank " ++ Js.toString (Int rank)
                          ++ " has wrong number of squares")%string).

Definition malformedEnPassantFEN : string :=
  "rnbqkbnr/pppppppp/8/8/8/8/PPPPPPPP/RNBQKBNR w KQkq ax 0 1".

(** ** Termination of the ray walks *)

(** The number of squares left on the board from coordinate [x] in the
    direction [d]. *)
Definition remaining (d : Z) (x : number) : nat :=
  match x with
  | Int x =>
      if (0 <=? x) && (x <=? 7)
      then Z.to_nat (if d =? 1 then 8 - x else x + 1)
      else 0%nat
  | NaN => 0%nat
  end.

(** ** King safety of the legal moves (C1) *)

(** White king on e1 and rook on h1, neither moved; a black pawn on h2;
    the black king on e8. *)
Definition castlingIntoCheck : Board :=
  Board.create [whiteKingE1; Piece.create Rook White (Board.pos 7 0);
                Piece.create King Black (Board.pos 4 7);
                mkPiece Pawn Black (Board.pos 7 1) true].

(** ** Lookups after updates *)

(** Structural equality of numbers and positions ([NaN] equal to
    itself), as opposed to the [===] of [Js.eqb]. *)
Definition sameNumber (a b : number) : bool :=
  match a, b with
  | Int x, Int y => x =? y
  | NaN, NaN => true
  | _, _ => false
  end.

Definition samePosition (p q : Position) : bool :=
  sameNumber (file p) (file q) && sameNumber (rank p) (rank q).

(** The last piece of a list that stands on square [q]. *)
Definition lastAt (q : Position) (ps : list Piece) : option Piece :=
  find (fun p => samePosition (position p) q) (rev ps).

(** ** Pseudo-legal moves *)

(** The square reached from [p] by [k] steps in direction [dir]. *)
Definition stepsFrom (p dir : Position) (k : Z) : Position :=
  {| file := Js.add (file p) (Js.mul (Int k) (file dir));
     rank := Js.add (rank p) (Js.mul (Int k) (rank dir)) |}.

(** The directions along which a piece type slides. *)
Definition slidingDirections (type : PieceType) : list Position :=
  match type with
  | Bishop => PieceRules.diagonalDirections
  | Rook => PieceRules.straightDirections
  | Queen => PieceRules.straightDirections ++ PieceRules.diagonalDirections
  | _ => []
  end.

(** No piece of the colour [c] stands on [square]. *)
Definition notOwn (b : Board) (c : Color) (square : Position) : Prop :=
  forall t, Board.getPiece b square = Some t -> color t <> c.

(** The offsets of a knight's jump and of a king's step. *)
Definition leap (type : PieceType) (df dr : Z) : Prop :=
  match type with
  | Knight => Z.abs df * Z.abs dr = 2
  | King => Z.max (Z.abs df) (Z.abs dr) = 1
  | _ => False
  end.

(** A black rook on a8 and a white pawn on a2. *)
Definition rookAndPawn : Board :=
  Board.create [mkPiece Rook Black (Board.pos 0 7) true;
                Piece.create Pawn White (Board.pos 0 1)].

(** The starting rank of the pawns of a colour, and their direction. *)
Definition homeRank (c : Color) : Z := match c with White => 1 | Black => 6 end.

Definition forward (c : Color) : Z := match c with White => 1 | Black => -1 end.

(** ** Attacked squares and castling (C4) *)

(** The square on the file of piece [p], [d] ranks further. *)
Definition ahead (p : Piece) (d : Z) : Position :=
  {| file := file (position p); rank := Js.add (rank (position p)) (Int d) |}.

(** Piece [p] attacks the square [square] of board [b]: a pawn the two
    squares diagonally in front of it, whether or not a piece stands
    there; a knight or a king the squares at its leap; a bishop, rook or
    queen the squares that it reaches along one of its directions over
    empty squares of the board. *)
Definition attacks (b : Board) (p : Piece) (square : Position) : Prop :=
  match ptype p with
  | Pawn => In square (diagonalForward p)
  | Knight | King =>
      exists df dr,
        leap (ptype p) df dr /\ square = PieceRules.offset (position p) df dr
  | Bishop | Rook | Queen =>
      exists dir k,
        In dir (slidingDirections (ptype p)) /\ 1 <= k
        /\ square = stepsFrom (position p) dir k
        /\ forall j, 1 <= j < k ->
                     PositionUtils.isValid (stepsFrom (position p) dir j) = true
                     /\ Board.getPiece b (stepsFrom (position p) dir j) = None
  end.

(** [square] is attacked by the opponent of the colour [defender]: it is a
    square of the board, and a piece of the other colour attacks it. *)
Definition attackedByOpponent (b : Board) (square : Position) (defender : Color) : Prop :=
  PositionUtils.isValid square = true
  /\ exists p, In p (Board.getAllPieces b) /\ color p <> defender /\ attacks b p square.

(** The conditions of the specification, for a king on file [kingFile]:
    king unmoved; an unmoved rook in the corner of the king's rank; the
    squares strictly between king and rook empty; no square from the king's
    own to its destination attacked by the opponent. *)
Definition castlingSpec (side : CastlingSide) (king : Piece) (b : Board) : Prop :=
  let rank := rank (position king) in
  hasMoved king = false
  /\ (exists rook,
         Board.getPiece b (GameRules.onRank (rookFile side) rank) = Some rook
         /\ ptype rook = Rook /\ hasMoved rook = false)
  /\ (forall kingFile f,
         file (position king) = Int kingFile ->
         strictlyBetween kingFile (rookFile side) f ->
         Board.isEmpty b (GameRules.onRank f rank) = true)
  /\ (forall kingFile f,
         file (position king) = Int kingFile ->
         fromTo kingFile (destinationFile side) f ->
         ~ attackedByOpponent b (GameRules.onRank f rank) (color king)).

(** Pawn [p] stands before [square]: the square is diagonally or straight
    one step ahead of it, or two steps straight ahead of its home rank. *)
Definition pawnBefore (p : Piece) (square : Position) : Prop :=
  In square (diagonalForward p)
  \/ square = ahead p (forward (color p))
  \/ (rank (position p) = Int (homeRank (color p))
      /\ square = ahead p (2 * forward (color p))).

(** No pawn of the opponent stands before a square that the king passes
    through or lands on. *)
Definition pawnsAway (side : CastlingSide) (king : Piece) (b : Board) : Prop :=
  forall p kingFile f,
    In p (Board.getAllPieces b) -> ptype p = Pawn -> color p <> color king ->
    file (position king) = Int kingFile ->
    fromTo kingFile (destinationFile side) f -> f <> kingFile ->
    ~ pawnBefore p (GameRules.onRank f (rank (position king))).

(** White king on e1 and rook on h1, neither moved; black king on e8 and
    black pawns on e7 and f7, far from the first rank. *)
Definition castlingPosition : Board :=
  Board.create [whiteKingE1; Piece.create Rook White (Board.pos 7 0);
                Piece.create King Black (Board.pos 4 7);
                Piece.create Pawn Black (Board.pos 4 6);
                Piece.create Pawn Black (Board.pos 5 6)].

(** ** Safe integers *)

(** The integers on which the arithmetic and the decimal text of a
    JavaScript number are exact ([Number.isSafeInteger]): those below
    2^53 in absolute value. *)
Definition safeInteger (z : Z) : Prop := Z.abs z < 2 ^ 53.

(** ** Applying a move *)

(** The piece that a move leaves on its destination: the moved piece on
    its new square, of the promotion type if there is one, marked as
    moved. *)
Definition arrived (m : Move) : Piece :=
  mkPiece (match promotionType m with Some pt => pt | None => ptype (piece m) end)
          (color (piece m)) (to m) true.

(** The square on which the rook lands when castling. *)
Definition rookDestinationFile (side : CastlingSide) : Z :=
  match side with Kingside => 5 | Queenside => 3 end.

(** The side of a castling move. *)
Definition castlingSideOf (m : Move) : option CastlingSide :=
  match specialMove m with
  | CastleKingside => Some Kingside
  | CastleQueenside => Some Queenside
  | _ => None
  end.

(** The squares of the rook before and after castling on the rank of
    square [f]. *)
Definition rookCorner (side : CastlingSide) (f : Position) : Position :=
  GameRules.onRank (rookFile side) (rank f).

Definition rookDestination (side : CastlingSide) (f : Position) : Position :=
  GameRules.onRank (rookDestinationFile side) (rank f).

(** The square beside [f] on the file of [t]: where the pawn captured en
    passant stands. *)
Definition beside (f t : Position) : Position :=
  {| file := file t; rank := rank f |}.

(** ** Example games *)

(** The result of a request, the move it played and the state it reached
    (the state itself where no move was played). *)
Definition played (s : GameState) (f t : Position) (promo : option PieceType)
  : MoveResult :=
  match GameState.makeMove s f t promo with
  | Returns r => r
  | Throws msg => GameState.failure msg
  end.

Definition playedMove (r : MoveResult) : Move :=
  match move r with
  | Some m => m
  | None => Move.create (Board.pos 0 0) (Board.pos 0 0)
                        (Piece.create Pawn White (Board.pos 0 0)) None
  end.

Definition playedState (s : GameState) (r : MoveResult) : GameState :=
  match newState r with
  | Some s' => s'
  | None => s
  end.

Definition e1 : Position := Board.pos 4 0.
Definition g1 : Position := Board.pos 6 0.
Definition d5 : Position := Board.pos 3 4.

(** White to move with king on e1 and rook on h1, neither moved. *)
Definition castlingGame : GameState :=
  GameState.createCustom kingAndCornerRook White.

(** White to move with a pawn on e5 after Black's double step d7-d5. *)
Definition enPassantGame : GameState :=
  mkGameState
    (Board.create [Piece.create King White (Board.pos 4 0);
                   Piece.create King Black (Board.pos 4 7);
                   whitePawnE5;
                   mkPiece Pawn Black d5 true])
    White [] (Some d6) (Int 0) (Int 3) InProgress None.

(** Black to move and checkmated: king on a8, the white queen on b7
    defended by the white king on c6. *)
Definition matedGame : GameState :=
  GameState.createCustom
    (Board.create [Piece.create King Black (Board.pos 0 7);
                   mkPiece Queen White (Board.pos 1 6) true;
                   mkPiece King White (Board.pos 2 5) true])
    Black.

(** ** The en-passant target *)

(** Pawn [p] goes from its home square [f] two squares ahead to [t],
    passing over [e]. *)
Definition doubleStep (p : Piece) (f t e : Position) : Prop :=
  ptype p = Pawn
  /\ exists fi ra,
      f = Board.pos fi ra /\ ra = homeRank (color p)
      /\ t = Board.pos fi (ra + 2 * forward (color p))
      /\ e = Board.pos fi (ra + forward (color p)).

(** The answers of [makeMove] that refuse a request on the position. *)
Definition refusals : list string :=
  ["No piece at source position"; "Not your turn"; "Illegal move"].

(** ** Writing and reading FEN *)

(** The letter [toFEN] writes for a piece. *)
Definition fenLetter (p : Piece) : string :=
  let notation :=
    if String.eqb (Piece.getNotation p) EmptyString
    then "P"%string else Piece.getNotation p in
  if Color_eqb (color p) White then notation else Js.lowerString notation.

(** The piece that [fromFEN] builds on the square of file [f] and rank
    [r] when it reads the letter of [p]. *)
Definition reread (rights : string) (f r : Z) (p : Piece) : Piece :=
  mkPiece (ptype p) (color p) (Board.pos f r)
          (Board.fenHasMoved (ptype p) (color p) (Int f) (Int r) rights).

(** The text of the rest of a rank, given the squares still to write and
    the number of empty squares not yet written. *)
Fixpoint rowText (cells : list (option Piece)) (emptyCount : Z) : string :=
  match cells with
  | [] => if 0 <? emptyCount then Js.toString (Int emptyCount) else EmptyString
  | None :: rest => rowText rest (emptyCount + 1)
  | Some p :: rest =>
      ((if (0 <? emptyCount)%Z then Js.toString (Int emptyCount) else EmptyString)
       ++ fenLetter p ++ rowText rest 0%Z)%string
  end.

(** The pieces read back from the squares of a rank, from file [f] on. *)
Fixpoint rowPieces (rights : string) (r : Z) (cells : list (option Piece)) (f : Z)
  : list Piece :=
  match cells with
  | [] => []
  | None :: rest => rowPieces rights r rest (f + 1)
  | Some p :: rest => reread rights f r p :: rowPieces rights r rest (f + 1)
  end.

Definition allFiles : list Z := [0; 1; 2; 3; 4; 5; 6; 7].

Definition allRanks : list Z := [7; 6; 5; 4; 3; 2; 1; 0].

(** The squares of rank [r], from file 0 to file 7. *)
Definition cellsOf (b : Board) (r : Z) : list (option Piece) :=
  map (fun f => Board.getPiece b (Board.pos f r)) allFiles.

(** The pieces that [fromFEN] reads back from the text of board [b]: for
    every occupied square of the board, from rank 8 down and from file a
    up, the piece [reread] there. *)
Definition squarePieces (b : Board) (rights : string) (r f : Z) : list Piece :=
  match Board.getPiece b (Board.pos f r) with
  | Some p => [reread rights f r p]
  | None => []
  end.

Definition reloaded (b : Board) (rights : string) : list Piece :=
  flat_map (fun r => flat_map (squarePieces b rights r) allFiles) allRanks.

(** The FEN text of the starting position, and the state read from it. *)
Definition standardFEN : string :=
  "rnbqkbnr/pppppppp/8/8/8/8/PPPPPPPP/RNBQKBNR w KQkq - 0 1".

Definition loadedGame : GameState :=
  match GameState.fromFEN standardFEN with
  | Returns s => s
  | Throws _ => GameState.createStandard
  end.

(** A king that has not moved does not occur among the pieces. *)
Definition kingsHaveMoved (ps : list Piece) : Prop :=
  forall p, In p ps -> ptype p = King -> hasMoved p = true.

(** A text without white space. *)
Fixpoint spaceFree (s : string) : bool :=
  match s with
  | String c r => negb (Js.isWhiteSpace c) && spaceFree r
  | EmptyString => true
  end.

(** All pieces stand on squares of the board. *)
Definition onBoard (ps : list Piece) : Prop :=
  forall p, In p ps -> PositionUtils.isValid (position p) = true.

(** The answers of [validateAndExecuteMove] besides success. *)
Definition serverErrorText : string := "Server error during move validation".

Definition finishedText : string := "Game is already finished".

(** The starting position after 1. e4, as the server stores it. *)
Definition afterE4FEN : string :=
  "rnbqkbnr/pppppppp/8/8/4P3/8/PPPP1PPP/RNBQKBNR b - e3 0 1".

(** ** King safety *)

(** Two boards have pieces of the same colours on the same squares. *)
Definition sameColours (b1 b2 : Board) : Prop :=
  forall q, option_map color (Board.getPiece b1 q)
            = option_map color (Board.getPiece b2 q).

(** ** The notation of a move *)

(** The letter of a file and the digit of a rank. *)
Definition fileLetter (f : Z) : ascii := ascii_of_N (Z.to_N (97 + f)).

Definition rankDigit (r : Z) : ascii := ascii_of_N (Z.to_N (49 + r)).

(** The end of a move's notation: the promotion, if any. *)
Definition promotionText (promo : option PieceType) : string :=
  match promo with
  | Some pt => String "=" (Piece.getNotation (Piece.create pt White (Board.pos 0 0)))
  | None => EmptyString
  end.

(** The knight's move g1-f3 of the starting position, and the same
    journey made by a black knight that has moved before. *)
Definition knightOut : Move :=
  Move.create (Board.pos 6 0) (Board.pos 5 2)
              (Piece.create Knight White (Board.pos 6 0)) None.

Definition blackKnightOut : Move :=
  Move.create (Board.pos 6 0) (Board.pos 5 2)
              (mkPiece Knight Black (Board.pos 6 0) true) None.

(** The letter that stands for a piece type in a move's notation; a pawn
    has none. *)
Definition letterOf (t : PieceType) : option ascii :=
  match t with
  | King => Some "K"%char
  | Queen => Some "Q"%char
  | Rook => Some "R"%char
  | Bishop => Some "B"%char
  | Knight => Some "N"%char
  | Pawn => None
  end.

(** * Properties *)

(** ** Equality tests of the enumerations *)

Lemma Color_eqb_eq (a b : Color) : Color_eqb a b = true <-> a = b.
Proof. destruct a, b; simpl; split; congruence. Qed.

Lemma Color_eqb_refl (a : Color) : Color_eqb a a = true.
Proof. now destruct a. Qed.

Lemma PieceType_eqb_eq (a b : PieceType) : PieceType_eqb a b = true <-> a = b.
Proof. destruct a, b; simpl; split; congruence. Qed.

Lemma PieceType_eqb_refl (a : PieceType) : PieceType_eqb a a = true.
Proof. now destruct a. Qed.

Lemma PieceType_eqb_neq (a b : PieceType) : PieceType_eqb a b = false <-> a <> b.
Proof. destruct a, b; simpl; split; congruence. Qed.

Lemma SpecialMoveType_eqb_eq (a b : SpecialMoveType) :
  SpecialMoveType_eqb a b = true <-> a = b.
Proof. destruct a, b; simpl; split; congruence. Qed.

Lemma opposite_involutive (c : Color) :
  ColorUtils.opposite (ColorUtils.opposite c) = c.
Proof. now destruct c. Qed.

Lemma opposite_neq (c : Color) : ColorUtils.opposite c <> c.
Proof. now destruct c. Qed.

(** ** Algebraic notation *)

Lemma valid_cases (p : Position) :
  PositionUtils.isValid p = true ->
  exists f r, p = Board.pos f r /\ 0 <= f <= 7 /\ 0 <= r <= 7.
Proof.
  destruct p as [[f|] [r|]]; unfold PositionUtils.isValid; simpl;
    try (rewrite ?andb_false_r; discriminate).
  intros H. exists f, r. split; [reflexivity|].
  repeat (apply andb_prop in H; destruct H as [H ?]). lia.
Qed.

(** Round trip on the 64 squares of the board. *)
Lemma fromAlgebraic_toAlgebraic (p : Position) :
  PositionUtils.isValid p = true ->
  PositionUtils.fromAlgebraic (PositionUtils.toAlgebraic p) = Returns p.
Proof.
  intros H. destruct (valid_cases p H) as (f & r & -> & Hf & Hr).
  assert (Ef : f = 0 \/ f = 1 \/ f = 2 \/ f = 3 \/ f = 4 \/ f = 5 \/ f = 6 \/ f = 7) by lia.
  assert (Er : r = 0 \/ r = 1 \/ r = 2 \/ r = 3 \/ r = 4 \/ r = 5 \/ r = 6 \/ r = 7) by lia.
  repeat (destruct Ef as [-> | Ef]); try subst f;
    repeat (destruct Er as [-> | Er]); try subst r; reflexivity.
Qed.

(** Every string of the pattern parses to a square of the board. *)
Lemma fromAlgebraic_matching (s : string) :
  matchesSquare s = true ->
  exists p, PositionUtils.fromAlgebraic s = Returns p /\ PositionUtils.isValid p = true.
Proof.
  destruct s as [|c1 [|c2 [|c3 s]]]; simpl; try discriminate.
  destruct c1 as [[] [] [] [] [] [] [] []]; try discriminate;
    destruct c2 as [[] [] [] [] [] [] [] []]; try discriminate;
    intros _; eexists; split; reflexivity.
Qed.

(** What [parseInt] makes of a single character. *)
Lemma parseInt_single (c : ascii) :
  Js.parseInt (String c EmptyString) = if Js.isDigit c then Int (Js.code c - 48) else NaN.
Proof. destruct c as [[] [] [] [] [] [] [] []]; reflexivity. Qed.

(** The strings on which [fromAlgebraic] does not throw: two characters,
    the first a file letter, the second either a rank digit or no digit
    at all (then the rank is [NaN]). *)
Lemma fromAlgebraic_two (c1 c2 : ascii) :
  PositionUtils.fromAlgebraic (String c1 (String c2 EmptyString)) =
  let file := Js.sub (Int (Js.code c1)) (Int 97) in
  let rank := Js.sub (if Js.isDigit c2 then Int (Js.code c2 - 48) else NaN) (Int 1) in
  if Js.ltb file (Int 0) || Js.gtb file (Int 7)
     || Js.ltb rank (Int 0) || Js.gtb rank (Int 7)
  then Throws ("Invalid algebraic notation: " ++ String c1 (String c2 EmptyString))
  else Returns {| file := file; rank := rank |}.
Proof. rewrite <- parseInt_single. reflexivity. Qed.

(** The strings on which [fromAlgebraic] does not throw: two characters,
    the first a file letter, the second either a rank digit or no digit
    at all (then the rank is [NaN]). *)
Lemma fromAlgebraic_returns_iff (s : string) :
  (exists p, PositionUtils.fromAlgebraic s = Returns p) <->
  (exists c1 c2, s = String c1 (String c2 EmptyString)
                 /\ 97 <= Js.code c1 <= 104
                 /\ (Js.isDigit c2 = false \/ 49 <= Js.code c2 <= 56)).
Proof.
  split.
  - intros [p H]. destruct s as [|c1 [|c2 [|c3 s]]]; try discriminate.
    exists c1, c2. split; [reflexivity|].
    rewrite fromAlgebraic_two in H. cbv zeta in H.
    destruct (_ || _) eqn:E in H; [discriminate|]. clear H.
    repeat (apply orb_false_elim in E; destruct E as [E ?]).
    unfold Js.gtb in *.
    destruct (Js.isDigit c2); simpl in *; [split; [lia | right; lia] | split; [lia | now left]].
  - intros (c1 & c2 & -> & Hf & Hr).
    rewrite fromAlgebraic_two. cbv zeta.
    assert (F1 : Js.ltb (Js.sub (Int (Js.code c1)) (Int 97)) (Int 0) = false)
      by (simpl; lia).
    assert (F2 : Js.gtb (Js.sub (Int (Js.code c1)) (Int 97)) (Int 7) = false)
      by (unfold Js.gtb; simpl; lia).
    rewrite F1, F2. cbn [orb].
    destruct (Js.isDigit c2) eqn:D.
    + destruct Hr as [Hr | Hr]; [discriminate|].
      assert (F3 : Js.ltb (Js.sub (Int (Js.code c2 - 48)) (Int 1)) (Int 0) = false)
        by (simpl; lia).
      assert (F4 : Js.gtb (Js.sub (Int (Js.code c2 - 48)) (Int 1)) (Int 7) = false)
        by (unfold Js.gtb; simpl; lia).
      rewrite F3, F4. eexists; reflexivity.
    + simpl. eexists; reflexivity.
Qed.

(** C7 (the defect).  The string "ax" is not of the pattern [[a-h][1-8]],
    yet [fromAlgebraic] does not throw on it: [parseInt] of "x" is [NaN],
    every comparison of the range check is false on [NaN], and a position
    of rank [NaN] is returned. *)
Theorem fromAlgebraic_accepts_nondigit_rank :
  matchesSquare "ax" = false /\
  PositionUtils.fromAlgebraic "ax" = Returns {| file := Int 0; rank := NaN |}.
Proof. split; reflexivity. Qed.

(** ** Shape of the moves the rules engine returns *)

(** Case analysis on the test that heads the left-hand side of [H]. *)
Ltac split_head H :=
  match type of H with
  | (if ?c then _ else _) = _ => destruct c eqn:?
  | match ?c with Some _ => _ | None => _ end = _ => destruct c eqn:?
  end.

Lemma getCastlingMoves_shape (king : Piece) (b : Board) (m : Move) :
  In m (GameRules.getCastlingMoves king b) ->
  piece m = king /\ from m = position king /\ promotionType m = None
  /\ capturedPiece m = None /\ Move.isCastling m = true.
Proof.
  unfold GameRules.getCastlingMoves.
  destruct (_ || _); [intros []|].
  intros H. apply in_app_or in H. destruct H as [H | H].
  - destruct (Board.getPiece b (GameRules.onRank 7 _)); [|destruct H].
    destruct (_ && _) in H; [|destruct H].
    destruct H as [<- | []]. repeat split.
  - destruct (Board.getPiece b (GameRules.onRank 0 _)); [|destruct H].
    destruct (_ && _) in H; [|destruct H].
    destruct H as [<- | []]. repeat split.
Qed.

Lemma enPassantLoop_shape (files : list number) (pawn : Piece) (b : Board)
      (target : Position) (m : Move) :
  GameRules.enPassantLoop files pawn b target = Some m ->
  exists captured,
    m = mkMove (position pawn) target pawn (Some captured) EnPassant None
    /\ Board.getPiece b {| file := file target; rank := rank (position pawn) |}
       = Some captured
    /\ ptype captured = Pawn
    /\ GameRules.isMoveLegal m b = true
    /\ Js.eqb (Js.add (rank (position pawn)) (PieceRules.direction (color pawn)))
              (rank target) = true
    /\ exists captureFile, In captureFile files /\ Js.eqb captureFile (file target) = true.
Proof.
  induction files as [|captureFile rest IH]; simpl; [discriminate|].
  intros H.
  assert (K : GameRules.enPassantLoop rest pawn b target = Some m ->
              exists captured,
                m = mkMove (position pawn) target pawn (Some captured) EnPassant None
                /\ Board.getPiece b {| file := file target; rank := rank (position pawn) |}
                   = Some captured
                /\ ptype captured = Pawn
                /\ GameRules.isMoveLegal m b = true
                /\ Js.eqb (Js.add (rank (position pawn)) (PieceRules.direction (color pawn)))
                          (rank target) = true
                /\ exists f, In f (captureFile :: rest) /\ Js.eqb f (file target) = true).
  { intros H'. destruct (IH H') as (c & ? & ? & ? & ? & ? & f & ? & ?).
    exists c. repeat (split; [assumption|]). exists f. split; [now right | assumption]. }
  destruct (Js.eqb captureFile (file target)) eqn:E1; simpl in H; [|now apply K].
  split_head H; [|now apply K].
  split_head H; [|now apply K].
  split_head H; [|now apply K].
  split_head H; [|now apply K].
  injection H as <-. eexists.
  repeat (split; [first [reflexivity | eassumption | now apply PieceType_eqb_eq]|]).
  exists captureFile. split; [now left | assumption].
Qed.

Lemma getLegalMoves_shape (p : Piece) (b : Board) (ep : option Position) (m : Move) :
  In m (GameRules.getLegalMoves p b ep) ->
  piece m = p /\ from m = position p /\ promotionType m = None
  /\ specialMove m <> PawnPromotion.
Proof.
  unfold GameRules.getLegalMoves. intros H.
  apply in_app_or in H. destruct H as [H | H].
  - apply filter_In in H. destruct H as [H _].
    apply in_map_iff in H. destruct H as (t & <- & _).
    repeat split. discriminate.
  - apply in_app_or in H. destruct H as [H | H].
    + destruct (PieceType_eqb (ptype p) King); [|destruct H].
      destruct (getCastlingMoves_shape _ _ _ H) as (? & ? & ? & ? & C).
      repeat (split; [assumption|]).
      intros E. unfold Move.isCastling in C. rewrite E in C. discriminate.
    + destruct ep as [target|]; [|destruct H].
      destruct (PieceType_eqb (ptype p) Pawn); [|destruct H].
      unfold GameRules.getEnPassantMove in H.
      destruct (negb _) in H; [destruct H|].
      destruct (GameRules.enPassantLoop _ p b target) as [m'|] eqn:E; [|destruct H].
      destruct H as [<- | []].
      destruct (enPassantLoop_shape _ _ _ _ _ E) as (c & -> & _).
      repeat split. discriminate.
Qed.

(** ** The transition function *)

Lemma applyMove_unfold (s : GameState) (m : Move) :
  GameState.applyMove s m =
  match GameState.applyToBoard s m with
  | Throws msg => Throws msg
  | Returns newBoard =>
      let newEnPassantTarget :=
        if PieceType_eqb (ptype (piece m)) Pawn
           && Js.eqb (Js.abs (Js.sub (rank (to m)) (rank (from m)))) (Int 2)
        then Some {| file := file (from m);
                     rank := Js.div (Js.add (rank (from m)) (rank (to m))) (Int 2) |}
        else None in
      let newHalfMoveClock :=
        if PieceType_eqb (ptype (piece m)) Pawn || Move.isCapture m
        then Int 0 else Js.add (halfMoveClock s) (Int 1) in
      let newCurrentTurn := ColorUtils.opposite (currentTurn s) in
      let verdict :=
        GameState.checkGameEnd newBoard newCurrentTurn newEnPassantTarget
                                  newHalfMoveClock (moveHistory s ++ [m]) in
      Returns (mkGameState newBoard newCurrentTurn (moveHistory s ++ [m])
                           newEnPassantTarget newHalfMoveClock
                           (if Color_eqb (currentTurn s) Black
                            then Js.add (fullMoveNumber s) (Int 1)
                            else fullMoveNumber s)
                           (fst verdict) (snd verdict))
  end.
Proof.
  unfold GameState.applyMove.
  destruct (GameState.applyToBoard s m); [|reflexivity].
  cbv zeta. destruct (GameState.checkGameEnd _ _ _ _ _). reflexivity.
Qed.

(** The division in [applyMove] is exact: it is reached only when the two
    ranks differ by two, and then yields the rank between them. *)
Lemma midpoint_exact (a b : number) :
  Js.eqb (Js.abs (Js.sub b a)) (Int 2) = true ->
  exists x y m, a = Int x /\ b = Int y
                /\ Js.div (Js.add a b) (Int 2) = Int m /\ m + m = x + y.
Proof.
  destruct a as [x|], b as [y|]; simpl; try discriminate.
  intros H. apply Z.eqb_eq in H.
  assert (C : y = x + 2 \/ y = x - 2) by lia.
  destruct C as [-> | ->].
  - exists x, (x + 2), (x + 1). repeat split; [|lia].
    f_equal. replace (x + (x + 2)) with ((x + 1) * 2) by lia.
    now apply Z.quot_mul.
  - exists x, (x - 2), (x - 1). repeat split; [|lia].
    f_equal. replace (x + (x - 2)) with ((x - 1) * 2) by lia.
    now apply Z.quot_mul.
Qed.

(** A move without promotion type is applied without a throw. *)
Lemma applyToBoard_no_promotion (s : GameState) (m : Move) :
  promotionType m = None -> exists b, GameState.applyToBoard s m = Returns b.
Proof.
  intros H. unfold GameState.applyToBoard.
  destruct (Move.isCastling m); [eexists; reflexivity|].
  destruct (Move.isEnPassant m); [eexists; reflexivity|].
  destruct (Move.isPromotion m); [|eexists; reflexivity].
  unfold GameState.applyPromotion. rewrite H. eexists; reflexivity.
Qed.

(** A pawn promoted to a knight, bishop, rook or queen is applied without
    a throw. *)
Lemma applyToBoard_promotion (s : GameState) (f t : Position) (p : Piece)
      (c : option Piece) (promo : PieceType) :
  ptype p = Pawn -> promo <> Pawn -> promo <> King ->
  exists b, GameState.applyToBoard s (mkMove f t p c PawnPromotion (Some promo)) = Returns b.
Proof.
  intros Hp H1 H2. unfold GameState.applyToBoard. simpl.
  unfold GameState.applyPromotion, Piece.promote. simpl.
  rewrite Hp. simpl.
  destruct promo; try congruence; simpl; eexists; reflexivity.
Qed.

(** What a call of [makeMove] that reports success has done. *)
Lemma makeMove_success (s : GameState) (f t : Position) (promo : option PieceType)
      (r : MoveResult) :
  GameState.makeMove s f t promo = Returns r -> success r = true ->
  exists p found m s',
    Board.getPiece (board s) f = Some p
    /\ color p = currentTurn s
    /\ In found (GameRules.getLegalMoves p (board s) (enPassantTarget s))
    /\ PositionUtils.equals (to found) t = true
    /\ piece m = p
    /\ GameState.applyMove s m = Returns s'
    /\ move r = Some m /\ newState r = Some s'.
Proof.
  unfold GameState.makeMove. intros H S.
  destruct (Board.getPiece (board s) f) as [p|] eqn:G;
    [|injection H as <-; discriminate].
  destruct (negb (Color_eqb (color p) (currentTurn s))) eqn:C;
    [injection H as <-; discriminate|].
  apply negb_false_iff, Color_eqb_eq in C.
  destruct (find _ _) as [found|] eqn:F; [|injection H as <-; discriminate].
  apply find_some in F. destruct F as [Fin Fto].
  unfold GameState.getLegalMovesForPiece in Fin.
  rewrite C, Color_eqb_refl in Fin. simpl in Fin.
  assert (Hshape := getLegalMoves_shape _ _ _ _ Fin).
  destruct Hshape as (Hp & _).
  destruct (GameState.isBackRank p t).
  - destruct promo as [pt|]; [|injection H as <-; discriminate].
    destruct (GameState.applyMove s _) as [s'|] eqn:A; [|discriminate].
    injection H as <-.
    exists p, found, (mkMove f t p (capturedPiece found) PawnPromotion (Some pt)), s'.
    repeat split; assumption.
  - destruct (GameState.applyMove s found) as [s'|] eqn:A; [|discriminate].
    injection H as <-. exists p, found, found, s'. repeat split; assumption.
Qed.

(** When a pawn's promotion is applied without a throw, the promotion
    type is neither Pawn nor King. *)
Lemma applyToBoard_promotion_inv (s : GameState) (f t : Position) (p : Piece)
      (c : option Piece) (promo : PieceType) (b : Board) :
  GameState.applyToBoard s (mkMove f t p c PawnPromotion (Some promo)) = Returns b ->
  promo <> Pawn /\ promo <> King.
Proof.
  unfold GameState.applyToBoard. simpl.
  unfold GameState.applyPromotion, Piece.promote. simpl.
  destruct (negb _); [discriminate|].
  destruct promo; simpl; try discriminate; intros _; split; discriminate.
Qed.

Lemma applyToBoard_promotion_throws (s : GameState) (f t : Position) (p : Piece)
      (c : option Piece) (promo : PieceType) (msg : string) :
  ptype p = Pawn ->
  GameState.applyToBoard s (mkMove f t p c PawnPromotion (Some promo)) = Throws msg ->
  msg = "Cannot promote to pawn or king" /\ (promo = Pawn \/ promo = King).
Proof.
  intros Hp. unfold GameState.applyToBoard. simpl.
  unfold GameState.applyPromotion, Piece.promote. simpl. rewrite Hp. simpl.
  destruct promo; simpl; try discriminate; intros [= <-]; tauto.
Qed.

Lemma find_is_Some {A : Type} (f : A -> bool) (l : list A) :
  (exists x, In x l /\ f x = true) <-> exists y, find f l = Some y.
Proof.
  split.
  - intros (x & Hin & Hx). destruct (find f l) as [y|] eqn:F; [now exists y|].
    rewrite (find_none _ _ F x Hin) in Hx. discriminate.
  - intros (y & F). exists y. now apply find_some in F.
Qed.

Lemma isBackRank_pawn (p : Piece) (t : Position) :
  GameState.isBackRank p t = true -> ptype p = Pawn.
Proof.
  unfold GameState.isBackRank. intros H. apply andb_prop in H.
  now apply PieceType_eqb_eq.
Qed.

Lemma makeMove_succeeds_iff (s : GameState) (f t : Position) (promo : option PieceType) :
  (exists r, GameState.makeMove s f t promo = Returns r /\ success r = true)
  <-> accepted s f t promo.
Proof.
  unfold GameState.makeMove, accepted. split.
  - intros (r & H & S).
    destruct (Board.getPiece (board s) f) as [p|] eqn:G;
      [|injection H as <-; discriminate].
    destruct (negb (Color_eqb (color p) (currentTurn s))) eqn:C;
      [injection H as <-; discriminate|].
    apply negb_false_iff in C.
    destruct (find _ _) as [found|] eqn:F; [|injection H as <-; discriminate].
    unfold GameState.getLegalMovesForPiece in F. rewrite C in F. simpl in F.
    exists p. split; [reflexivity|]. split; [now apply Color_eqb_eq|].
    split; [apply find_is_Some; now exists found|].
    destruct (GameState.isBackRank p t); [|discriminate].
    intros _. destruct promo as [pt|]; [|injection H as <-; discriminate].
    exists pt. split; [reflexivity|].
    rewrite applyMove_unfold in H.
    destruct (GameState.applyToBoard s _) as [b|] eqn:A; [|discriminate].
    now apply applyToBoard_promotion_inv in A.
  - intros (p & G & C & M & B). rewrite G, C, Color_eqb_refl. simpl.
    unfold GameState.getLegalMovesForPiece. rewrite C, Color_eqb_refl. simpl.
    apply find_is_Some in M. destruct M as (found & F). rewrite F.
    apply find_some in F. destruct F as [Fin _].
    destruct (getLegalMoves_shape _ _ _ _ Fin) as (_ & _ & Hpromo & _).
    destruct (GameState.isBackRank p t) eqn:BR.
    + destruct (B eq_refl) as (pt & -> & N1 & N2).
      destruct (applyToBoard_promotion s f t p (capturedPiece found) pt
                  (isBackRank_pawn _ _ BR) N1 N2) as [b Hb].
      rewrite applyMove_unfold, Hb. cbv zeta. eexists. split; reflexivity.
    + destruct (applyToBoard_no_promotion s found Hpromo) as [b Hb].
      rewrite applyMove_unfold, Hb. cbv zeta. eexists. split; reflexivity.
Qed.

(** [makeMove] throws in one situation only: a legal move of a pawn to its
    last rank requested with promotion type Pawn or King. *)
Lemma makeMove_throws_iff (s : GameState) (f t : Position) (promo : option PieceType)
      (msg : string) :
  GameState.makeMove s f t promo = Throws msg <->
  msg = "Cannot promote to pawn or king"
  /\ (promo = Some Pawn \/ promo = Some King)
  /\ exists p,
      Board.getPiece (board s) f = Some p
      /\ color p = currentTurn s
      /\ (exists m, In m (GameRules.getLegalMoves p (board s) (enPassantTarget s))
                    /\ GameState.arrivesAt m t = true)
      /\ GameState.isBackRank p t = true.
Proof.
  unfold GameState.makeMove. split.
  - intros H.
    destruct (Board.getPiece (board s) f) as [p|] eqn:G; [|discriminate].
    destruct (negb (Color_eqb (color p) (currentTurn s))) eqn:C; [discriminate|].
    apply negb_false_iff in C.
    destruct (find _ _) as [found|] eqn:F; [|discriminate].
    unfold GameState.getLegalMovesForPiece in F. rewrite C in F. simpl in F.
    assert (Fin : In found (GameRules.getLegalMoves p (board s) (enPassantTarget s)))
      by now apply find_some in F.
    destruct (getLegalMoves_shape _ _ _ _ Fin) as (_ & _ & Hpromo & _).
    destruct (GameState.isBackRank p t) eqn:BR.
    + destruct promo as [pt|]; [|discriminate].
      rewrite applyMove_unfold in H.
      destruct (GameState.applyToBoard s _) as [b|msg'] eqn:A; [discriminate|].
      injection H as <-.
      apply applyToBoard_promotion_throws in A; [|now apply isBackRank_pawn in BR].
      destruct A as [-> A]. split; [reflexivity|].
      split; [destruct A as [-> | ->]; tauto|].
      exists p. split; [reflexivity|]. split; [now apply Color_eqb_eq|].
      split; [apply find_is_Some; now exists found | assumption].
    + destruct (applyToBoard_no_promotion s found Hpromo) as [b Hb].
      rewrite applyMove_unfold, Hb in H. discriminate.
  - intros (-> & P & p & G & C & M & BR). rewrite G, C, Color_eqb_refl. simpl.
    unfold GameState.getLegalMovesForPiece. rewrite C, Color_eqb_refl. simpl.
    apply find_is_Some in M. destruct M as (found & F). rewrite F, BR.
    pose proof (isBackRank_pawn _ _ BR) as Hp.
    destruct P as [-> | ->]; rewrite applyMove_unfold;
      unfold GameState.applyToBoard; simpl;
      unfold GameState.applyPromotion, Piece.promote; simpl; rewrite Hp; reflexivity.
Qed.

(** ** End-condition detection (C6) *)

Lemma checkGameEnd_endCondition (b : Board) (mover : Color) (target : option Position)
      (clock : number) (history : list Move) :
  GameState.checkGameEnd b (ColorUtils.opposite mover) target clock history
  = endCondition b (ColorUtils.opposite mover) target clock mover.
Proof.
  unfold GameState.checkGameEnd, endCondition.
  destruct mover; reflexivity.
Qed.

(** C6.  After every successful [makeMove] the new state's result and end
    reason are those of the priority list checkmate (win for the mover),
    stalemate, insufficient material, half-move clock of 100 or more,
    evaluated on the new board for the new side to move; otherwise the
    game is in progress. *)
Theorem makeMove_end_condition (s : GameState) (f t : Position)
        (promo : option PieceType) (r : MoveResult) :
  GameState.makeMove s f t promo = Returns r -> success r = true ->
  exists m s',
    move r = Some m /\ newState r = Some s'
    /\ currentTurn s' = ColorUtils.opposite (color (piece m))
    /\ (result s', endReason s')
       = endCondition (board s') (currentTurn s') (enPassantTarget s')
                      (halfMoveClock s') (color (piece m)).
Proof.
  intros H S.
  destruct (makeMove_success _ _ _ _ _ H S)
    as (p & found & m & s' & _ & C & _ & _ & Pm & A & Mr & Nr).
  exists m, s'. split; [assumption|]. split; [assumption|].
  rewrite applyMove_unfold in A.
  destruct (GameState.applyToBoard s m) as [nb|]; [|discriminate].
  cbv zeta in A. injection A as <-. simpl.
  rewrite Pm, C. split; [reflexivity|].
  rewrite checkGameEnd_endCondition. symmetry. apply surjective_pairing.
Qed.

Lemma makeMove_end_condition_witness :
  exists m s',
    move openingResult = Some m /\ newState openingResult = Some s'
    /\ currentTurn s' = ColorUtils.opposite (color (piece m))
    /\ (result s', endReason s')
       = endCondition (board s') (currentTurn s') (enPassantTarget s')
                      (halfMoveClock s') (color (piece m)).
Proof.
  apply (makeMove_end_condition GameState.createStandard e2 e4 None openingResult).
  - vm_compute. reflexivity.
  - vm_compute. reflexivity.
Defined.

(** ** Terminal states (C2) *)

(** C2 as amended.  [makeMove] never reads [result] or [endReason]: on a
    terminal state it answers exactly as on the same position in progress,
    and it accepts exactly the requests that the position admits. *)
Theorem makeMove_ignores_result (s : GameState) (r : GameResult)
        (e : option GameEndReason) (f t : Position) (promo : option PieceType) :
  GameState.makeMove (withResult s r e) f t promo = GameState.makeMove s f t promo
  /\ ((exists res, GameState.makeMove (withResult s r e) f t promo = Returns res
                   /\ success res = true)
      <-> accepted s f t promo).
Proof.
  split; [reflexivity|].
  change (GameState.makeMove (withResult s r e) f t promo)
    with (GameState.makeMove s f t promo).
  apply makeMove_succeeds_iff.
Qed.

(** C2 fails as stated: after White's resignation the state is terminal,
    and the move e2-e4 is still accepted. *)
Lemma makeMove_accepted_after_resignation :
  result (GameState.resign GameState.createStandard) <> InProgress /\
  exists r s',
    GameState.makeMove (GameState.resign GameState.createStandard) e2 e4 None
    = Returns r
    /\ success r = true /\ newState r = Some s'.
Proof.
  split; [discriminate|].
  eexists. eexists. split; [vm_compute; reflexivity|]. split; reflexivity.
Qed.

(** ** Throwing (C3) *)

(** C3 as amended.  Unless the promotion type handed in is Pawn or King,
    [makeMove] returns a result; a result that reports failure carries one
    of the four rule-violation messages and no successor state. *)
Theorem makeMove_returns (s : GameState) (f t : Position) (promo : option PieceType) :
  promo <> Some Pawn -> promo <> Some King ->
  exists r,
    GameState.makeMove s f t promo = Returns r
    /\ (success r = false ->
        newState r = None /\ exists e, error r = Some e /\ In e ruleViolations).
Proof.
  intros NP NK. unfold GameState.makeMove, ruleViolations.
  destruct (Board.getPiece (board s) f) as [p|];
    [|eexists; split; [reflexivity|]; intros _; split; [reflexivity|];
      eexists; split; [reflexivity|]; simpl; tauto].
  destruct (negb (Color_eqb (color p) (currentTurn s))) eqn:C;
    [eexists; split; [reflexivity|]; intros _; split; [reflexivity|];
     eexists; split; [reflexivity|]; simpl; tauto|].
  destruct (find _ _) as [found|] eqn:F;
    [|eexists; split; [reflexivity|]; intros _; split; [reflexivity|];
      eexists; split; [reflexivity|]; simpl; tauto].
  apply find_some in F. destruct F as [Fin _].
  unfold GameState.getLegalMovesForPiece in Fin. rewrite C in Fin.
  destruct (getLegalMoves_shape _ _ _ _ Fin) as (_ & _ & Hpromo & _).
  destruct (GameState.isBackRank p t) eqn:B.
  - destruct promo as [pt|];
      [|eexists; split; [reflexivity|]; intros _; split; [reflexivity|];
        eexists; split; [reflexivity|]; simpl; tauto].
    assert (Hp : ptype p = Pawn).
    { unfold GameState.isBackRank in B. apply andb_prop in B.
      now apply PieceType_eqb_eq. }
    assert (N1 : pt <> Pawn) by congruence.
    assert (N2 : pt <> King) by congruence.
    destruct (applyToBoard_promotion s f t p (capturedPiece found) pt Hp N1 N2) as [b Hb].
    rewrite applyMove_unfold, Hb. cbv zeta.
    eexists; split; [reflexivity|]. simpl. discriminate.
  - destruct (applyToBoard_no_promotion s found Hpromo) as [b Hb].
    rewrite applyMove_unfold, Hb. cbv zeta.
    eexists; split; [reflexivity|]. simpl. discriminate.
Qed.

Lemma makeMove_returns_witness :
  exists r,
    GameState.makeMove GameState.createStandard e2 e5 None = Returns r
    /\ (success r = false ->
        newState r = None /\ exists e, error r = Some e /\ In e ruleViolations).
Proof.
  apply (makeMove_returns GameState.createStandard e2 e5 None); discriminate.
Defined.

(** C3 fails as stated: promoting to a king makes [makeMove] throw. *)
Lemma makeMove_throws_on_king_promotion :
  GameState.makeMove promotionPosition a7 a8 (Some King)
  = Throws "Cannot promote to pawn or king".
Proof. vm_compute. reflexivity. Qed.

(** ** Insufficient material (C5) *)

Lemma filter_disjoint_length {A : Type} (f g : A -> bool) (l : list A) :
  (forall x, f x = true -> g x = false) ->
  (List.length (filter f l) + List.length (filter g l) <= List.length l)%nat.
Proof.
  intros D. induction l as [|x l IH]; simpl; [lia|].
  destruct (f x) eqn:F; [rewrite (D x F)|destruct (g x)]; simpl; lia.
Qed.

Lemma kings_and_bishops (b : Board) :
  (kingCount b + List.length (Board.getPiecesByType b Bishop)
   <= List.length (Board.getAllPieces b))%nat.
Proof.
  apply filter_disjoint_length. intros x H.
  apply PieceType_eqb_eq in H. rewrite H. reflexivity.
Qed.

Lemma kings_and_others (b : Board) :
  (kingCount b
   + List.length (filter (fun p => negb (PieceType_eqb (ptype p) King))
                         (Board.getAllPieces b))
   = List.length (Board.getAllPieces b))%nat.
Proof. apply filter_length. Qed.

Lemma fourPieceCase_spec (b : Board) :
  (2 <= kingCount b)%nat ->
  GameRules.fourPieceCase (Board.getAllPieces b) = true <-> kingsAndEqualBishops b.
Proof.
  intros K. unfold GameRules.fourPieceCase, kingsAndEqualBishops.
  pose proof (kings_and_bishops b) as KB.
  unfold Board.getPiecesByType in *.
  destruct (Nat.eqb _ 4) eqn:E4.
  - apply Nat.eqb_eq in E4.
    destruct (filter _ (Board.getAllPieces b)) as [|b0 [|b1 [|b2 l]]] eqn:F.
    + split; [discriminate|]. intros (_ & _ & x & y & H & _). discriminate.
    + split; [discriminate|]. intros (_ & _ & x & y & H & _). discriminate.
    + split.
      * intros P. split; [assumption|]. split; [simpl in KB; lia|].
        exists b0, b1. split; [reflexivity | assumption].
      * intros (_ & _ & x & y & H & P). injection H as <- <-. assumption.
    + split; [discriminate|]. intros (_ & _ & x & y & H & _). discriminate.
  - apply Nat.eqb_neq in E4. split; [discriminate|]. intros (H & _). contradiction.
Qed.

(** C5 as amended.  On a board that holds at least two kings (in
    particular on every board with a king of each colour),
    [hasInsufficientMaterial] is true exactly when only the two kings
    remain, or the two kings and one bishop or knight, or the two kings and
    two bishops on squares of equal [(file + rank) % 2]. *)
Theorem hasInsufficientMaterial_spec (b : Board) :
  (2 <= kingCount b)%nat ->
  GameRules.hasInsufficientMaterial b = true <-> insufficientSpec b.
Proof.
  intros K. unfold GameRules.hasInsufficientMaterial, insufficientSpec. cbv zeta.
  pose proof (kings_and_others b) as KO.
  pose proof (filter_length_le (fun p => PieceType_eqb (ptype p) King)
                               (Board.getAllPieces b)) as KL.
  fold (Board.getPiecesByType b King) in KL. fold (kingCount b) in KL.
  pose proof (fourPieceCase_spec b K) as F4.
  destruct (Nat.eqb _ 2) eqn:E2.
  - apply Nat.eqb_eq in E2. split; [|reflexivity].
    intros _. left. split; [assumption | lia].
  - apply Nat.eqb_neq in E2.
    assert (NK : ~ onlyKings b) by (intros [H _]; contradiction).
    destruct (Nat.eqb _ 3) eqn:E3.
    + apply Nat.eqb_eq in E3.
      assert (N4 : ~ kingsAndEqualBishops b) by (intros [H _]; lia).
      unfold kingsAndMinor.
      destruct (filter _ (Board.getAllPieces b)) as [|x [|y l]] eqn:F.
      * rewrite F4. split; [tauto|].
        intros [H | [(_ & _ & m & H & _) | H]]; [tauto | discriminate | tauto].
      * split.
        -- intros P. right. left. split; [assumption|]. split; [simpl in KO; lia|].
           exists x. split; [reflexivity|].
           apply orb_prop in P. destruct P as [P | P]; apply PieceType_eqb_eq in P; tauto.
        -- intros [H | [(_ & _ & m & H & P) | H]]; [tauto | | tauto].
           injection H as <-. destruct P as [-> | ->]; reflexivity.
      * rewrite F4. split; [tauto|].
        intros [H | [(_ & _ & m & H & _) | H]]; [tauto | discriminate | tauto].
    + apply Nat.eqb_neq in E3.
      assert (NM : ~ kingsAndMinor b) by (intros [H _]; contradiction).
      rewrite F4. tauto.
Qed.

Lemma hasInsufficientMaterial_spec_witness :
  GameRules.hasInsufficientMaterial kingBishopKing = true <-> insufficientSpec kingBishopKing.
Proof.
  apply (hasInsufficientMaterial_spec kingBishopKing).
  vm_compute. lia.
Defined.

(** C5 fails as stated: two pieces count as "king against king" whatever
    they are. *)
Lemma hasInsufficientMaterial_two_pieces :
  GameRules.hasInsufficientMaterial kingAndRook = true /\ ~ insufficientSpec kingAndRook.
Proof.
  split; [reflexivity|].
  intros [[_ H] | [[H _] | [H _]]]; vm_compute in H; discriminate.
Qed.

(** On squares of the board the remainder the code compares is the colour
    of the square. *)
Lemma squareParity_on_board (p q : Piece) :
  PositionUtils.isValid (position p) = true ->
  PositionUtils.isValid (position q) = true ->
  Js.eqb (GameRules.squareParity p) (GameRules.squareParity q) = true <->
  exists fp rp fq rq,
    position p = Board.pos fp rp /\ position q = Board.pos fq rq
    /\ Z.even (fp + rp) = Z.even (fq + rq).
Proof.
  intros Vp Vq.
  destruct (valid_cases _ Vp) as (fp & rp & Ep & Hfp & Hrp).
  destruct (valid_cases _ Vq) as (fq & rq & Eq & Hfq & Hrq).
  unfold GameRules.squareParity. rewrite Ep, Eq. simpl.
  rewrite Z.eqb_eq.
  rewrite !Z.rem_mod_nonneg by lia.
  rewrite !Zmod_even.
  split.
  - intros H. exists fp, rp, fq, rq. repeat split.
    destruct (Z.even (fp + rp)), (Z.even (fq + rq)); simpl in H; congruence.
  - intros (a & b' & c & d & E1 & E2 & H).
    unfold Board.pos in E1, E2. injection E1 as <- <-. injection E2 as <- <-.
    rewrite H. reflexivity.
Qed.

(** ** Castling (C4) *)

Lemma getCastlingMoves_unfold (king : Piece) (b : Board) :
  GameRules.getCastlingMoves king b =
  if negb (PieceType_eqb (ptype king) King) || hasMoved king then []
  else (if castlingTest Kingside king b then [castlingMove Kingside king] else [])
       ++ (if castlingTest Queenside king b then [castlingMove Queenside king] else []).
Proof.
  unfold GameRules.getCastlingMoves, castlingTest, castlingMove. simpl.
  destruct (_ || _); [reflexivity|].
  destruct (Board.getPiece b (GameRules.onRank 7 _));
    destruct (Board.getPiece b (GameRules.onRank 0 _)); reflexivity.
Qed.

Lemma getCastlingMoves_In (side : CastlingSide) (king : Piece) (b : Board) (m : Move) :
  In m (GameRules.getCastlingMoves king b) /\ specialMove m = castlingTag side <->
  m = castlingMove side king /\ ptype king = King /\ hasMoved king = false
  /\ castlingTest side king b = true.
Proof.
  rewrite getCastlingMoves_unfold.
  destruct (PieceType_eqb (ptype king) King) eqn:T; simpl.
  2:{ apply PieceType_eqb_neq in T. split; [intros [[] _] | tauto]. }
  apply PieceType_eqb_eq in T.
  destruct (hasMoved king); [split; [intros [[] _] | intros (_ & _ & H & _); discriminate]|].
  split.
  - intros [H E]. apply in_app_or in H. destruct H as [H | H].
    + destruct (castlingTest Kingside king b) eqn:K; [|destruct H].
      destruct H as [<- | []]. destruct side; [tauto | discriminate E].
    + destruct (castlingTest Queenside king b) eqn:Q; [|destruct H].
      destruct H as [<- | []]. destruct side; [discriminate E | tauto].
  - intros (-> & _ & _ & H). split; [|reflexivity].
    apply in_or_app. destruct side; [left | right]; rewrite H; now left.
Qed.

(** ** En passant (C8) *)

Lemma enPassantLoop_first (captureFile : number) (rest : list number) (pawn : Piece)
      (b : Board) (target : Position) (captured : Piece) :
  Js.eqb captureFile (file target) = true ->
  Js.eqb (Js.add (rank (position pawn)) (PieceRules.direction (color pawn)))
         (rank target) = true ->
  Board.getPiece b {| file := file target; rank := rank (position pawn) |}
  = Some captured ->
  ptype captured = Pawn ->
  GameRules.isMoveLegal
    (mkMove (position pawn) target pawn (Some captured) EnPassant None) b = true ->
  GameRules.enPassantLoop (captureFile :: rest) pawn b target
  = Some (mkMove (position pawn) target pawn (Some captured) EnPassant None).
Proof.
  intros E1 E2 G T L. simpl. rewrite E1, E2, G, T, L. reflexivity.
Qed.

(** C8 as amended.  [getEnPassantMove] returns the move [m] exactly when
    the piece is a pawn, one of its two diagonal-forward squares is the
    target, the square of the target's file on the pawn's own rank holds a
    pawn (of either colour), [m] is the en-passant move capturing that pawn
    and [m] passes [isMoveLegal]; it returns null in every other case. *)
Theorem getEnPassantMove_spec (pawn : Piece) (b : Board) (target : Position) :
  (forall m, GameRules.getEnPassantMove pawn b target = Some m
             <-> enPassantCondition anyColor pawn b target m)
  /\ (GameRules.getEnPassantMove pawn b target = None
      <-> forall m, ~ enPassantCondition anyColor pawn b target m).
Proof.
  assert (Main : forall m, GameRules.getEnPassantMove pawn b target = Some m
                           <-> enPassantCondition anyColor pawn b target m).
  { intros m. unfold GameRules.getEnPassantMove, enPassantCondition.
    destruct (PieceType_eqb (ptype pawn) Pawn) eqn:T; cbn [negb].
    2:{ apply PieceType_eqb_neq in T. split; [discriminate | tauto]. }
    apply PieceType_eqb_eq in T. split.
    - intros H.
      destruct (enPassantLoop_shape _ _ _ _ _ H) as (c & Em & G & Tc & L & R & f & Fin & Ff).
      split; [assumption|]. split.
      + unfold diagonalForward. cbv zeta.
        destruct Fin as [<- | [<- | []]].
        * eexists. split; [left; reflexivity|].
          unfold PositionUtils.equals. cbn [file rank]. now rewrite Ff, R.
        * eexists. split; [right; left; reflexivity|].
          unfold PositionUtils.equals. cbn [file rank]. now rewrite Ff, R.
      + exists c. repeat (split; [first [assumption | exact I]|]). assumption.
    - intros (_ & (sq & Sin & Seq) & c & G & Tc & _ & -> & L).
      unfold PositionUtils.equals in Seq. apply andb_prop in Seq. destruct Seq as [Sf Sr].
      unfold diagonalForward in Sin.
      destruct Sin as [<- | [<- | []]]; simpl in Sf, Sr.
      + now apply enPassantLoop_first.
      + destruct (Js.eqb (Js.sub (file (position pawn)) (Int 1)) (file target)) eqn:E.
        * now apply enPassantLoop_first.
        * simpl. rewrite E. simpl. rewrite Sf, Sr, G, Tc, L. reflexivity. }
  split; [exact Main|].
  split.
  - intros H m C. apply Main in C. congruence.
  - intros H. destruct (GameRules.getEnPassantMove pawn b target) as [m|] eqn:E;
      [|reflexivity].
    exfalso. apply (H m). now apply Main.
Qed.

(** C8 fails as stated: the colour of the pawn behind the target is not
    tested, and the white pawn on e5 "captures" the white pawn on d5. *)
Lemma getEnPassantMove_own_pawn :
  exists m, GameRules.getEnPassantMove whitePawnE5 ownPawnBeside d6 = Some m
            /\ ~ enPassantCondition (opponentOf whitePawnE5) whitePawnE5 ownPawnBeside d6 m.
Proof.
  eexists. split; [vm_compute; reflexivity|].
  intros (_ & _ & c & G & _ & O & _).
  vm_compute in G. injection G as <-. apply O. reflexivity.
Qed.

(** ** The board as a map (C10) *)

Section PositionKeys.

Lemma string_of_uint_commaFree (d : Decimal.uint) :
  commaFree (NilEmpty.string_of_uint d).
Proof. induction d; simpl; try reflexivity; assumption. Qed.

Lemma toString_commaFree (a : number) : commaFree (Js.toString a).
Proof.
  destruct a as [x|]; [|reflexivity].
  unfold Js.toString, NilEmpty.string_of_int.
  destruct (Z.to_int x); [apply string_of_uint_commaFree|].
  unfold commaFree. simpl. apply string_of_uint_commaFree.
Qed.

Lemma toString_inj (a b : number) : Js.toString a = Js.toString b -> a = b.
Proof.
  destruct a as [x|], b as [y|]; simpl; intros H.
  - f_equal. apply DecimalZ.to_int_inj.
    pose proof (NilEmpty.isi (Z.to_int x)) as Hx.
    pose proof (NilEmpty.isi (Z.to_int y)) as Hy.
    rewrite H in Hx. congruence.
  - pose proof (NilEmpty.isi (Z.to_int x)) as Hx. rewrite H in Hx. discriminate.
  - pose proof (NilEmpty.isi (Z.to_int y)) as Hy. rewrite <- H in Hy. discriminate.
  - reflexivity.
Qed.

(** The text before the first comma, and the text after it, determine
    each other's split. *)
Lemma comma_split (s1 s2 t1 t2 : string) :
  commaFree s1 -> commaFree t1 ->
  (s1 ++ "," ++ s2 = t1 ++ "," ++ t2)%string -> s1 = t1 /\ s2 = t2.
Proof.
  unfold commaFree. revert t1.
  induction s1 as [|c s1 IH]; intros [|d t1]; simpl; intros H1 H2 E.
  - injection E as E. now split.
  - injection E as <- E. simpl in H2. discriminate.
  - injection E as -> E. simpl in H1. discriminate.
  - injection E as <- E.
    apply orb_false_elim in H1. destruct H1 as [_ H1].
    apply orb_false_elim in H2. destruct H2 as [_ H2].
    destruct (IH t1 H1 H2 E) as [-> ->]. now split.
Qed.

(** Two positions with the same key are the same position. *)
Lemma getPositionKey_inj (p q : Position) :
  Board.getPositionKey p = Board.getPositionKey q -> p = q.
Proof.
  unfold Board.getPositionKey. intros H.
  apply comma_split in H; try apply toString_commaFree.
  destruct H as [Hf Hr]. apply toString_inj in Hf, Hr.
  destruct p, q; simpl in *; congruence.
Qed.

End PositionKeys.

Section MapInvariant.

Lemma get_In (k : string) (m : JsMap.t) (v : Piece) :
  JsMap.get k m = Some v -> In (k, v) m.
Proof.
  induction m as [|[k' v'] m IH]; simpl; [discriminate|].
  destruct (String.eqb k' k) eqn:E.
  - apply String.eqb_eq in E. intros [= ->]. left. now subst.
  - intros H. right. now apply IH.
Qed.

Lemma In_get (k : string) (m : JsMap.t) (v : Piece) :
  NoDup (JsMap.keys m) -> In (k, v) m -> JsMap.get k m = Some v.
Proof.
  induction m as [|[k' v'] m IH]; simpl; [intros _ []|].
  intros N H. inversion N as [|? ? Hnot N']; subst.
  destruct H as [H | H].
  - injection H as -> ->. now rewrite String.eqb_refl.
  - destruct (String.eqb k' k) eqn:E; [|now apply IH].
    apply String.eqb_eq in E. subst k'. exfalso. apply Hnot.
    change k with (fst (k, v)). now apply in_map.
Qed.

Lemma get_None (k : string) (m : JsMap.t) :
  JsMap.get k m = None <-> ~ In k (JsMap.keys m).
Proof.
  induction m as [|[k' v'] m IH]; simpl; [tauto|].
  destruct (String.eqb k' k) eqn:E.
  - apply String.eqb_eq in E. split; [discriminate | tauto].
  - apply String.eqb_neq in E. rewrite IH. tauto.
Qed.

Lemma keys_set (k : string) (v : Piece) (m : JsMap.t) :
  JsMap.keys (JsMap.set k v m)
  = match JsMap.get k m with
    | Some _ => JsMap.keys m
    | None => JsMap.keys m ++ [k]
    end.
Proof.
  induction m as [|[k' v'] m IH]; simpl; [reflexivity|].
  destruct (String.eqb k' k); simpl; [reflexivity|].
  rewrite IH. now destruct (JsMap.get k m).
Qed.

Lemma set_NoDup (k : string) (v : Piece) (m : JsMap.t) :
  NoDup (JsMap.keys m) -> NoDup (JsMap.keys (JsMap.set k v m)).
Proof.
  intros N. rewrite keys_set.
  destruct (JsMap.get k m) eqn:G; [assumption|].
  apply get_None in G.
  apply NoDup_app; [assumption | repeat constructor; tauto|].
  intros x Hx [<- | []]. contradiction.
Qed.

Lemma set_keyed (v : Piece) (m : JsMap.t) :
  keyed m -> keyed (JsMap.set (Board.getPositionKey (position v)) v m).
Proof.
  unfold keyed.
  induction m as [|[k' v'] m IH]; simpl; intros K.
  - repeat constructor.
  - inversion K as [|? ? Hk K']; subst.
    destruct (String.eqb k' _) eqn:E.
    + apply String.eqb_eq in E. constructor; assumption.
    + constructor; [assumption | now apply IH].
Qed.

Lemma delete_incl (k : string) (m : JsMap.t) : incl (JsMap.delete k m) m.
Proof.
  induction m as [|[k' v'] m IH]; simpl; [apply incl_refl|].
  destruct (String.eqb k' k).
  - apply incl_tl, incl_refl.
  - apply incl_cons; [now left|]. now apply incl_tl.
Qed.

Lemma delete_NoDup (k : string) (m : JsMap.t) :
  NoDup (JsMap.keys m) -> NoDup (JsMap.keys (JsMap.delete k m)).
Proof.
  induction m as [|[k' v'] m IH]; simpl; [trivial|].
  intros N. inversion N as [|? ? Hnot N']; subst.
  destruct (String.eqb k' k); [assumption|]. simpl.
  constructor; [|now apply IH].
  intros H. apply Hnot. apply in_map_iff in H. destruct H as ([k2 v2] & <- & H).
  apply delete_incl in H. change (fst (k2, v2)) with (fst (k2, v2)).
  now apply in_map.
Qed.

Lemma delete_keyed (k : string) (m : JsMap.t) : keyed m -> keyed (JsMap.delete k m).
Proof.
  unfold keyed. intros K. apply Forall_forall. intros x H.
  apply delete_incl in H. revert x H. now apply Forall_forall.
Qed.

Lemma setPiece_wellFormed (b : Board) (p : Piece) :
  wellFormed b -> wellFormed (Board.setPiece b p).
Proof.
  intros [N K]. split; simpl; [now apply set_NoDup | now apply set_keyed].
Qed.

Lemma removePiece_wellFormed (b : Board) (p : Position) :
  wellFormed b -> wellFormed (Board.removePiece b p).
Proof.
  intros [N K]. split; simpl; [now apply delete_NoDup | now apply delete_keyed].
Qed.

Lemma fold_setPiece_wellFormed (ps : list Piece) (b : Board) :
  wellFormed b -> wellFormed (fold_left Board.setPiece ps b).
Proof.
  revert b. induction ps as [|p ps IH]; simpl; intros b W; [assumption|].
  apply IH. now apply setPiece_wellFormed.
Qed.

Lemma create_wellFormed (ps : list Piece) : wellFormed (Board.create ps).
Proof.
  apply fold_setPiece_wellFormed. split; simpl; constructor.
Qed.

Lemma clone_wellFormed (b : Board) : wellFormed (Board.clone b).
Proof. apply create_wellFormed. Qed.

Lemma movePiece_wellFormed (b b' : Board) (f t : Position) :
  wellFormed b -> Board.movePiece b f t = Returns b' -> wellFormed b'.
Proof.
  unfold Board.movePiece. intros W H.
  destruct (Board.getPiece b f); [|discriminate].
  injection H as <-. now apply setPiece_wellFormed, removePiece_wellFormed.
Qed.

Lemma fromFEN_wellFormed (fen rights : string) (b : Board) :
  Board.fromFEN fen rights = Returns b -> wellFormed b.
Proof.
  unfold Board.fromFEN. destruct (negb _); [discriminate|].
  destruct (Board.fenRows _ _ _ _); [|discriminate].
  intros [= <-]. apply create_wellFormed.
Qed.

(** What the invariant says in terms of the board's interface. *)
Lemma wellFormed_squares (b : Board) :
  wellFormed b ->
  NoDup (map position (Board.getAllPieces b))
  /\ (forall p pc, Board.getPiece b p = Some pc -> position pc = p)
  /\ (forall pc, In pc (Board.getAllPieces b) ->
                 Board.getPiece b (position pc) = Some pc).
Proof.
  intros [N K]. unfold Board.getAllPieces, Board.getPiece, JsMap.values.
  assert (KE : JsMap.keys (pieces b)
               = map Board.getPositionKey (map position (map snd (pieces b)))).
  { unfold JsMap.keys. rewrite !map_map. apply map_ext_in.
    intros kv H. unfold keyed in K. rewrite Forall_forall in K. now apply K. }
  split; [|split].
  - rewrite KE in N. now apply NoDup_map_inv in N.
  - intros p pc G. apply get_In in G.
    unfold keyed in K. rewrite Forall_forall in K. apply K in G. simpl in G.
    symmetry. now apply getPositionKey_inj.
  - intros pc H. apply in_map_iff in H. destruct H as ([k v] & <- & H).
    apply In_get; [assumption|]. simpl.
    unfold keyed in K. rewrite Forall_forall in K.
    pose proof (K _ H) as E. simpl in E. now rewrite <- E.
Qed.

End MapInvariant.

Lemma construct_wellFormed (src : BoardSource) (b : Board) :
  construct src = Returns b -> wellFormed b.
Proof.
  destruct src; simpl; intros H;
    try (injection H as <-; apply create_wellFormed).
  now apply fromFEN_wellFormed in H.
Qed.

Lemma runOps_wellFormed (ops : list BoardOp) (b b' : Board) :
  wellFormed b -> runOps b ops = Returns b' -> wellFormed b'.
Proof.
  revert b. induction ops as [|op ops IH]; simpl; intros b W H.
  - now injection H as <-.
  - destruct (runOp b op) as [b1|] eqn:R; [|discriminate].
    apply (IH b1); [|assumption].
    destruct op; simpl in R.
    + injection R as <-. now apply setPiece_wellFormed.
    + injection R as <-. now apply removePiece_wellFormed.
    + now apply movePiece_wellFormed in R.
    + injection R as <-. apply clone_wellFormed.
Qed.

(** C10.  On a board obtained from a piece list, from FEN or from a
    factory, after any sequence of [setPiece], [removePiece], [movePiece]
    and [clone], no two pieces have the same position, the piece that
    [getPiece] finds at a position has that position, and every piece of
    the board is found at its position. *)
Theorem board_squares_hold_one_piece (src : BoardSource) (ops : list BoardOp)
        (b0 b : Board) :
  construct src = Returns b0 -> runOps b0 ops = Returns b ->
  NoDup (map position (Board.getAllPieces b))
  /\ (forall p pc, Board.getPiece b p = Some pc -> position pc = p)
  /\ (forall pc, In pc (Board.getAllPieces b) ->
                 Board.getPiece b (position pc) = Some pc).
Proof.
  intros C R. apply wellFormed_squares.
  apply (runOps_wellFormed ops b0); [|assumption].
  now apply construct_wellFormed in C.
Qed.

Lemma board_squares_hold_one_piece_witness :
  NoDup (map position (Board.getAllPieces afterKnightMove))
  /\ (forall p pc, Board.getPiece afterKnightMove p = Some pc -> position pc = p)
  /\ (forall pc, In pc (Board.getAllPieces afterKnightMove) ->
                 Board.getPiece afterKnightMove (position pc) = Some pc).
Proof.
  apply (board_squares_hold_one_piece
           StandardSetup [MovePiece (Board.pos 6 0) (Board.pos 5 2); Clone]
           Board.createStandard afterKnightMove).
  - reflexivity.
  - vm_compute. reflexivity.
Defined.

(** ** Reading FEN (C9) *)

Lemma fenRow_throws (row : string) (rank : number) (rights : string) (file : number)
      (acc : list Piece) (msg : string) :
  Board.fenRow row rank rights file acc = Throws msg ->
  exists char, msg = ("Invalid FEN: unknown piece " ++ String char EmptyString)%string.
Proof.
  revert file acc. induction row as [|char rest IH]; simpl; intros file acc H;
    [discriminate|].
  destruct (_ && _); [now apply IH in H|].
  destruct (Board.pieceTypeOfChar _); [now apply IH in H|].
  injection H as <-. now exists char.
Qed.

Lemma fenRows_throws (rows : list string) (rank : Z) (rights : string)
      (acc : list Piece) (msg : string) :
  Board.fenRows rows rank rights acc = Throws msg -> structuralError msg.
Proof.
  revert rank acc. induction rows as [|row rest IH]; simpl; intros rank acc H;
    [discriminate|].
  destruct (Board.fenRow row (Int rank) rights (Int 0) acc) as [[acc' file]|m] eqn:R.
  - destruct (negb _); [|now apply IH in H].
    injection H as <-. right. right. right. now exists (rank + 1).
  - injection H as <-. right. right. left. now apply fenRow_throws in R.
Qed.

Lemma Board_fromFEN_throws (fen rights msg : string) :
  Board.fromFEN fen rights = Throws msg -> structuralError msg.
Proof.
  unfold Board.fromFEN.
  destruct (negb _); [intros [= <-]; right; now left|].
  destruct (Board.fenRows _ _ _ _) eqn:R; [discriminate|].
  intros [= <-]. now apply fenRows_throws in R.
Qed.

(** [GameState.fromFEN] throws for the four structural causes only. *)
Lemma fromFEN_throws (fen msg : string) :
  GameState.fromFEN fen = Throws msg -> structuralError msg.
Proof.
  unfold GameState.fromFEN.
  destruct (Js.splitWhiteSpace (Js.trim fen))
    as [|p1 [|p2 [|p3 [|p4 [|p5 [|p6 [|p7 parts]]]]]]];
    try (intros [= <-]; now left).
  destruct (Board.fromFEN p1 "-") eqn:B; [discriminate|].
  intros [= <-]. now apply Board_fromFEN_throws in B.
Qed.

(** The fields of the state that [fromFEN] returns. *)
Lemma fromFEN_fields (fen : string) (s : GameState) :
  GameState.fromFEN fen = Returns s ->
  exists positionPart turnPart castlingPart enPassantPart halfMovePart fullMovePart,
    Js.splitWhiteSpace (Js.trim fen)
    = [positionPart; turnPart; castlingPart; enPassantPart; halfMovePart; fullMovePart]
    /\ Board.fromFEN positionPart "-" = Returns (board s)
    /\ enPassantTarget s
       = (if negb (String.eqb enPassantPart "-") then
            match PositionUtils.fromAlgebraic enPassantPart with
            | Returns p => Some p
            | Throws _ => None
            end
          else None)
    /\ halfMoveClock s = Js.orElse (Js.parseInt halfMovePart) (Int 0)
    /\ fullMoveNumber s = Js.orElse (Js.parseInt fullMovePart) (Int 1).
Proof.
  unfold GameState.fromFEN.
  destruct (Js.splitWhiteSpace (Js.trim fen))
    as [|p1 [|p2 [|p3 [|p4 [|p5 [|p6 [|p7 parts]]]]]]]; try discriminate.
  destruct (Board.fromFEN p1 "-") eqn:B; [|discriminate].
  intros [= <-]. exists p1, p2, p3, p4, p5, p6. simpl.
  repeat split; first [reflexivity | assumption].
Qed.

(** Clock fields without a number fall back to 0 and 1. *)
Lemma orElse_NaN (d : number) : Js.orElse NaN d = d.
Proof. reflexivity. Qed.

(** An en-passant field on which [fromAlgebraic] throws leaves the target
    unset, and so does the field "-". *)
Lemma fromFEN_en_passant_ignored (fen : string) (s : GameState) :
  GameState.fromFEN fen = Returns s ->
  forall square, enPassantTarget s = Some square ->
    exists field, PositionUtils.fromAlgebraic field = Returns square.
Proof.
  intros H square E.
  destruct (fromFEN_fields _ _ H) as (p1 & p2 & p3 & p4 & p5 & p6 & _ & _ & T & _).
  rewrite T in E. destruct (negb _); [|discriminate].
  destruct (PositionUtils.fromAlgebraic p4) as [p|] eqn:A; [|discriminate].
  injection E as <-. now exists p4.
Qed.

(** C9 (the defect).  The en-passant field "ax" is not a square, yet
    [fromFEN] does not leave the target unset: it stores the position of
    file 0 and rank [NaN] that [fromAlgebraic] returns for it. *)
Theorem fromFEN_keeps_malformed_en_passant :
  matchesSquare "ax" = false /\
  exists s, GameState.fromFEN malformedEnPassantFEN = Returns s
            /\ enPassantTarget s = Some {| file := Int 0; rank := NaN |}.
Proof.
  split; [reflexivity|].
  eexists. split; [vm_compute; reflexivity | reflexivity].
Qed.

(** ** Termination of the ray walks *)

Lemma remaining_zero (d : Z) (x : number) :
  remaining d x = 0%nat ->
  Js.geb x (Int 0) && Js.leb x (Int 7) = false.
Proof.
  destruct x as [x|]; [|reflexivity]. unfold remaining, Js.geb, Js.leb.
  destruct ((0 <=? x) && (x <=? 7)) eqn:E; [|intros _; reflexivity].
  intros H. apply andb_prop in E. destruct E as [E1 E2].
  apply Z.leb_le in E1, E2. destruct (d =? 1); lia.
Qed.

Lemma remaining_step (d : Z) (x : number) :
  d = 1 \/ d = -1 ->
  Js.geb x (Int 0) && Js.leb x (Int 7) = true ->
  (S (remaining d (Js.add x (Int d))) <= remaining d x)%nat.
Proof.
  destruct x as [x|]; [|discriminate]. unfold remaining, Js.geb, Js.leb, Js.add.
  cbv beta iota. intros D E. rewrite E. apply andb_prop in E. destruct E as [E1 E2].
  apply Z.leb_le in E1, E2.
  destruct ((0 <=? x + d) && (x + d <=? 7)) eqn:E';
    destruct (Z.eqb_spec d 1); lia.
Qed.

(** Once the fuel covers the squares left along the file, more fuel
    changes nothing. *)
Lemma walk_fuel_file (d : Z) (p : Piece) (b : Board) (dir : Position) :
  d = 1 \/ d = -1 -> file dir = Int d ->
  forall n m cf cr,
    (remaining d cf <= n)%nat -> (remaining d cf <= m)%nat ->
    PieceRules.walk n p b dir cf cr = PieceRules.walk m p b dir cf cr.
Proof.
  intros D F.
  assert (Stop : forall k cf cr, remaining d cf = 0%nat ->
                                 PieceRules.walk k p b dir cf cr = []).
  { intros k cf cr Z0. destruct k; [reflexivity|]. cbn [PieceRules.walk].
    rewrite (remaining_zero d cf Z0). reflexivity. }
  induction n as [|n IH]; intros m cf cr Hn Hm.
  - rewrite (Stop m) by lia. reflexivity.
  - destruct m as [|m]; [rewrite (Stop (S n)) by lia; reflexivity|].
    cbn [PieceRules.walk].
    destruct (Js.geb cf (Int 0) && Js.leb cf (Int 7)) eqn:E; cbn [andb]; [|reflexivity].
    destruct (Js.geb cr (Int 0) && Js.leb cr (Int 7)); [|reflexivity].
    destruct (Board.getPiece b _); [reflexivity|].
    f_equal. rewrite F. pose proof (remaining_step d cf D E). apply IH; lia.
Qed.

Lemma walk_fuel_rank (d : Z) (p : Piece) (b : Board) (dir : Position) :
  d = 1 \/ d = -1 -> rank dir = Int d ->
  forall n m cf cr,
    (remaining d cr <= n)%nat -> (remaining d cr <= m)%nat ->
    PieceRules.walk n p b dir cf cr = PieceRules.walk m p b dir cf cr.
Proof.
  intros D F.
  assert (Stop : forall k cf cr, remaining d cr = 0%nat ->
                                 PieceRules.walk k p b dir cf cr = []).
  { intros k cf cr Z0. destruct k; [reflexivity|]. cbn [PieceRules.walk].
    rewrite <- andb_assoc, (remaining_zero d cr Z0), andb_false_r. reflexivity. }
  induction n as [|n IH]; intros m cf cr Hn Hm.
  - rewrite (Stop m) by lia. reflexivity.
  - destruct m as [|m]; [rewrite (Stop (S n)) by lia; reflexivity|].
    cbn [PieceRules.walk]. rewrite <- andb_assoc.
    destruct (Js.geb cr (Int 0) && Js.leb cr (Int 7)) eqn:E;
      [|rewrite andb_false_r; reflexivity].
    destruct (Js.geb cf (Int 0) && Js.leb cf (Int 7)); cbn [andb]; [|reflexivity].
    destruct (Board.getPiece b _); [reflexivity|].
    f_equal. rewrite F. pose proof (remaining_step d cr D E). apply IH; lia.
Qed.

Lemma remaining_le_8 (d : Z) (x : number) : d = 1 \/ d = -1 -> (remaining d x <= 8)%nat.
Proof.
  intros D. destruct x as [x|]; unfold remaining; [|lia].
  destruct ((0 <=? x) && (x <=? 7)) eqn:E; [|lia].
  apply andb_prop in E. destruct E as [E1 E2]. apply Z.leb_le in E1, E2.
  destruct (d =? 1); lia.
Qed.

(** The ray walks terminate: along each of the eight directions the loop
    has stopped within [rayFuel] iterations, so any larger bound gives the
    same squares. *)
Lemma walk_fuel_enough (n : nat) (p : Piece) (b : Board) (dir : Position)
      (cf cr : number) :
  In dir (PieceRules.straightDirections ++ PieceRules.diagonalDirections) ->
  (PieceRules.rayFuel <= n)%nat ->
  PieceRules.walk n p b dir cf cr = PieceRules.walk PieceRules.rayFuel p b dir cf cr.
Proof.
  unfold PieceRules.rayFuel. intros H N.
  simpl in H.
  destruct H as [<- | [<- | [<- | [<- | [<- | [<- | [<- | [<- | []]]]]]]]].
  - apply (walk_fuel_file 1); try tauto; try reflexivity;
      pose proof (remaining_le_8 1 cf); lia.
  - apply (walk_fuel_file (-1)); try tauto; try reflexivity;
      pose proof (remaining_le_8 (-1) cf); lia.
  - apply (walk_fuel_rank 1); try tauto; try reflexivity;
      pose proof (remaining_le_8 1 cr); lia.
  - apply (walk_fuel_rank (-1)); try tauto; try reflexivity;
      pose proof (remaining_le_8 (-1) cr); lia.
  - apply (walk_fuel_file 1); try tauto; try reflexivity;
      pose proof (remaining_le_8 1 cf); lia.
  - apply (walk_fuel_file 1); try tauto; try reflexivity;
      pose proof (remaining_le_8 1 cf); lia.
  - apply (walk_fuel_file (-1)); try tauto; try reflexivity;
      pose proof (remaining_le_8 (-1) cf); lia.
  - apply (walk_fuel_file (-1)); try tauto; try reflexivity;
      pose proof (remaining_le_8 (-1) cf); lia.
Qed.

(** ** King safety of the legal moves (C1) *)

Lemma delete_set_comm (k1 k2 : string) (v : Piece) (m : JsMap.t) :
  k1 <> k2 ->
  JsMap.delete k2 (JsMap.set k1 v m) = JsMap.set k1 v (JsMap.delete k2 m).
Proof.
  intros N. induction m as [|[k v'] m IH]; simpl.
  - apply String.eqb_neq in N. now rewrite N.
  - destruct (String.eqb k k1) eqn:E1; destruct (String.eqb k k2) eqn:E2; simpl;
      rewrite ?E1, ?E2; try reflexivity.
    + apply String.eqb_eq in E1, E2. congruence.
    + now rewrite IH.
Qed.

(** The order in which [applyEnPassant] places the pawn and removes the
    captured one does not matter, as the two squares differ. *)
Lemma applyEnPassant_applyMove (b : Board) (m : Move) (captured : Piece) :
  capturedPiece m = Some captured -> position captured <> to m ->
  GameState.applyEnPassant b m = GameRules.applyMove b m.
Proof.
  intros C N. unfold GameState.applyEnPassant, GameRules.applyMove. rewrite C.
  unfold Board.removePiece, Board.setPiece. simpl. f_equal.
  apply delete_set_comm. intros E. apply getPositionKey_inj in E. congruence.
Qed.

Lemma direction_moves (c : Color) (r t : number) :
  Js.eqb (Js.add r (PieceRules.direction c)) t = true -> r <> t.
Proof.
  destruct r as [r|], t as [t|], c; simpl; try discriminate;
    intros H; apply Z.eqb_eq in H; intros [= ->]; lia.
Qed.

(** Every legal move other than castling leaves the mover's king out of
    check on the board that the game state's move application produces. *)
Lemma legal_moves_keep_king_safe_unless_castling (s : GameState) (c : Color)
      (target : option Position) (m : Move) :
  wellFormed (board s) ->
  In m (GameRules.getAllLegalMoves (board s) c target) ->
  Move.isCastling m = false ->
  exists b', GameState.applyToBoard s m = Returns b'
             /\ GameRules.isInCheck b' c = false.
Proof.
  intros W H NC. unfold GameRules.getAllLegalMoves in H.
  apply in_flat_map in H. destruct H as (p & Hp & H).
  apply filter_In in Hp. destruct Hp as [_ Hc]. apply Color_eqb_eq in Hc.
  unfold GameRules.getLegalMoves in H.
  apply in_app_or in H. destruct H as [H | H]; [|apply in_app_or in H; destruct H as [H | H]].
  - apply filter_In in H. destruct H as [H L].
    apply in_map_iff in H. destruct H as (t & <- & _).
    unfold GameState.applyToBoard. simpl.
    eexists. split; [reflexivity|].
    unfold GameRules.isMoveLegal in L. simpl in L.
    apply negb_true_iff in L. now rewrite <- Hc.
  - destruct (PieceType_eqb (ptype p) King); [|destruct H].
    apply getCastlingMoves_shape in H. destruct H as (_ & _ & _ & _ & C). congruence.
  - destruct target as [t|]; [|destruct H].
    destruct (PieceType_eqb (ptype p) Pawn); [|destruct H].
    unfold GameRules.getEnPassantMove in H.
    destruct (negb _) in H; [destruct H|].
    destruct (GameRules.enPassantLoop _ p (board s) t) as [m'|] eqn:E; [|destruct H].
    destruct H as [<- | []].
    destruct (enPassantLoop_shape _ _ _ _ _ E) as (cp & -> & G & _ & L & R & _).
    unfold GameState.applyToBoard. simpl.
    eexists. split; [reflexivity|].
    rewrite (applyEnPassant_applyMove _ _ cp); [|reflexivity|].
    + unfold GameRules.isMoveLegal in L. simpl in L.
      apply negb_true_iff in L. now rewrite <- Hc.
    + simpl. destruct (wellFormed_squares _ W) as (_ & P & _).
      rewrite (P _ _ G). apply direction_moves in R.
      intros Eq. apply R. rewrite <- Eq. reflexivity.
Qed.

(** C1 (the defect).  Kingside castling is among White's legal moves on
    [castlingIntoCheck], and on the board that the game state's move
    application produces the white king stands on g1 in check from the
    pawn on h2: [isSquareAttacked] does not see a pawn's capture square
    while that square is empty. *)
Theorem castling_into_pawn_check :
  GameRules.isSquareAttacked castlingIntoCheck (Board.pos 6 0) White = false
  /\ In (castlingMove Kingside whiteKingE1)
        (GameRules.getAllLegalMoves castlingIntoCheck White None)
  /\ (exists b',
        GameState.applyToBoard (GameState.createCustom castlingIntoCheck White)
                               (castlingMove Kingside whiteKingE1) = Returns b'
        /\ GameRules.isInCheck b' White = true)
  /\ (exists r s',
        GameState.makeMove (GameState.createCustom castlingIntoCheck White)
                           (Board.pos 4 0) (Board.pos 6 0) None = Returns r
        /\ success r = true /\ newState r = Some s'
        /\ GameRules.isInCheck (board s') White = true).
Proof.
  split; [vm_compute; reflexivity|]. split; [vm_compute; tauto|]. split.
  - eexists. split; [vm_compute; reflexivity|]. vm_compute. reflexivity.
  - eexists. eexists. split; [vm_compute; reflexivity|].
    split; [reflexivity|]. split; [reflexivity|]. vm_compute. reflexivity.
Qed.
(** ** Lookups after updates *)

Lemma sameNumber_eq (a b : number) : sameNumber a b = true <-> a = b.
Proof.
  destruct a as [x|], b as [y|]; simpl; split; try congruence; try discriminate.
  - intros H. apply Z.eqb_eq in H. now subst.
  - intros [= ->]. apply Z.eqb_refl.
Qed.

Lemma samePosition_eq (p q : Position) : samePosition p q = true <-> p = q.
Proof.
  unfold samePosition. rewrite andb_true_iff, !sameNumber_eq.
  destruct p, q; simpl; split; [intros [-> ->]; reflexivity | intros [= -> ->]; tauto].
Qed.

Lemma samePosition_neq (p q : Position) : samePosition p q = false -> p <> q.
Proof.
  intros H ->. assert (E : samePosition q q = true) by now apply samePosition_eq.
  congruence.
Qed.

Lemma getPositionKey_neq (p q : Position) :
  p <> q -> Board.getPositionKey p <> Board.getPositionKey q.
Proof. intros N E. apply N. now apply getPositionKey_inj. Qed.

Lemma get_set_same (k : string) (v : Piece) (m : JsMap.t) :
  JsMap.get k (JsMap.set k v m) = Some v.
Proof.
  induction m as [|[k' v'] m IH]; simpl.
  - now rewrite String.eqb_refl.
  - destruct (String.eqb k' k) eqn:E; simpl; rewrite E; [reflexivity | assumption].
Qed.

Lemma get_set_other (k k' : string) (v : Piece) (m : JsMap.t) :
  k <> k' -> JsMap.get k' (JsMap.set k v m) = JsMap.get k' m.
Proof.
  intros N. induction m as [|[k0 v0] m IH]; simpl.
  - apply String.eqb_neq in N. now rewrite N.
  - destruct (String.eqb k0 k) eqn:E; simpl.
    + apply String.eqb_eq in E. subst k0.
      apply String.eqb_neq in N. now rewrite N.
    + destruct (String.eqb k0 k'); [reflexivity | assumption].
Qed.

Lemma get_delete_same (k : string) (m : JsMap.t) :
  NoDup (JsMap.keys m) -> JsMap.get k (JsMap.delete k m) = None.
Proof.
  induction m as [|[k' v'] m IH]; simpl; [reflexivity|].
  intros N. inversion N as [|? ? Hnot N']; subst.
  destruct (String.eqb k' k) eqn:E.
  - apply String.eqb_eq in E. subst k'. now apply get_None.
  - simpl. rewrite E. now apply IH.
Qed.

Lemma get_delete_other (k k' : string) (m : JsMap.t) :
  k <> k' -> JsMap.get k' (JsMap.delete k m) = JsMap.get k' m.
Proof.
  intros N. induction m as [|[k0 v0] m IH]; simpl; [reflexivity|].
  destruct (String.eqb k0 k) eqn:E.
  - apply String.eqb_eq in E. subst k0.
    apply String.eqb_neq in N. now rewrite N.
  - simpl. destruct (String.eqb k0 k'); [reflexivity | assumption].
Qed.

Lemma getPiece_setPiece_same (b : Board) (p : Piece) :
  Board.getPiece (Board.setPiece b p) (position p) = Some p.
Proof. apply get_set_same. Qed.

Lemma getPiece_setPiece_other (b : Board) (p : Piece) (q : Position) :
  q <> position p -> Board.getPiece (Board.setPiece b p) q = Board.getPiece b q.
Proof.
  intros N. apply get_set_other. apply getPositionKey_neq. congruence.
Qed.

Lemma getPiece_removePiece_same (b : Board) (q : Position) :
  wellFormed b -> Board.getPiece (Board.removePiece b q) q = None.
Proof. intros [N _]. now apply get_delete_same. Qed.

Lemma getPiece_removePiece_other (b : Board) (q q' : Position) :
  q' <> q -> Board.getPiece (Board.removePiece b q) q' = Board.getPiece b q'.
Proof.
  intros N. apply get_delete_other. apply getPositionKey_neq. congruence.
Qed.

Lemma lookup_setPiece (b : Board) (p : Piece) (q : Position) :
  Board.getPiece (Board.setPiece b p) q
  = if samePosition (position p) q then Some p else Board.getPiece b q.
Proof.
  destruct (samePosition (position p) q) eqn:E.
  - apply samePosition_eq in E. subst q. apply getPiece_setPiece_same.
  - apply samePosition_neq in E. apply getPiece_setPiece_other. congruence.
Qed.

Lemma lookup_removePiece (b : Board) (q q' : Position) :
  wellFormed b ->
  Board.getPiece (Board.removePiece b q) q'
  = if samePosition q q' then None else Board.getPiece b q'.
Proof.
  intros W. destruct (samePosition q q') eqn:E.
  - apply samePosition_eq in E. subst q'. now apply getPiece_removePiece_same.
  - apply samePosition_neq in E. apply getPiece_removePiece_other. congruence.
Qed.

(** X1.  After [setPiece(piece)] the piece's own square holds the piece,
    whatever stood there before, every other square holds what it held,
    and the number of pieces grows by one exactly when the square was
    empty. *)
Theorem getPiece_after_setPiece (b : Board) (p : Piece) :
  Board.getPiece (Board.setPiece b p) (position p) = Some p
  /\ (forall q, q <> position p ->
                Board.getPiece (Board.setPiece b p) q = Board.getPiece b q)
  /\ List.length (Board.getAllPieces (Board.setPiece b p))
     = (if Board.isEmpty b (position p)
        then S (List.length (Board.getAllPieces b))
        else List.length (Board.getAllPieces b)).
Proof.
  split; [apply getPiece_setPiece_same|].
  split; [intros q N; now apply getPiece_setPiece_other|].
  unfold Board.getAllPieces, JsMap.values, Board.isEmpty, Board.getPiece.
  rewrite !length_map.
  change (List.length (JsMap.set (Board.getPositionKey (position p)) p (pieces b)))
    with (List.length (pieces (Board.setPiece b p))).
  rewrite <- !(length_map fst). fold (JsMap.keys (pieces (Board.setPiece b p))).
  fold (JsMap.keys (pieces b)). simpl. rewrite keys_set.
  destruct (JsMap.get _ (pieces b)); [reflexivity|].
  rewrite length_app. simpl. lia.
Qed.

(** X2.  After [removePiece(pos)] the square is empty and every other
    square holds what it held. *)
Theorem getPiece_after_removePiece (b : Board) (q : Position) :
  wellFormed b ->
  Board.getPiece (Board.removePiece b q) q = None
  /\ forall q', q' <> q ->
                Board.getPiece (Board.removePiece b q) q' = Board.getPiece b q'.
Proof.
  intros W. split; [now apply getPiece_removePiece_same|].
  intros q' N. now apply getPiece_removePiece_other.
Qed.

Lemma getPiece_after_removePiece_witness :
  Board.getPiece (Board.removePiece Board.createStandard e2) e2 = None
  /\ forall q', q' <> e2 ->
                Board.getPiece (Board.removePiece Board.createStandard e2) q'
                = Board.getPiece Board.createStandard q'.
Proof.
  apply (getPiece_after_removePiece Board.createStandard e2).
  apply create_wellFormed.
Defined.

(** X3.  [movePiece(from, to)] throws exactly when the source square is
    empty.  Otherwise the destination holds the piece, marked as moved,
    the source square is empty (unless it is the destination) and every
    other square holds what it held. *)
Theorem movePiece_spec (b : Board) (f t : Position) :
  wellFormed b ->
  match Board.getPiece b f with
  | None =>
      Board.movePiece b f t
      = Throws ("No piece at position " ++ PositionUtils.toAlgebraic f)%string
  | Some p =>
      exists b',
        Board.movePiece b f t = Returns b'
        /\ forall q,
            Board.getPiece b' q
            = if samePosition t q then Some (Piece.moveTo p t)
              else if samePosition f q then None
              else Board.getPiece b q
  end.
Proof.
  intros W. unfold Board.movePiece.
  destruct (Board.getPiece b f) as [p|]; [|reflexivity].
  eexists. split; [reflexivity|]. intros q.
  destruct (samePosition t q) eqn:Et.
  - apply samePosition_eq in Et. subst q.
    apply (getPiece_setPiece_same _ (Piece.moveTo p t)).
  - apply samePosition_neq in Et.
    rewrite getPiece_setPiece_other by (simpl; congruence).
    destruct (samePosition f q) eqn:Ef.
    + apply samePosition_eq in Ef. subst q. now apply getPiece_removePiece_same.
    + apply samePosition_neq in Ef. apply getPiece_removePiece_other. congruence.
Qed.

Lemma movePiece_spec_witness :
  match Board.getPiece Board.createStandard e2 with
  | None =>
      Board.movePiece Board.createStandard e2 e4
      = Throws ("No piece at position " ++ PositionUtils.toAlgebraic e2)%string
  | Some p =>
      exists b',
        Board.movePiece Board.createStandard e2 e4 = Returns b'
        /\ forall q,
            Board.getPiece b' q
            = if samePosition e4 q then Some (Piece.moveTo p e4)
              else if samePosition e2 q then None
              else Board.getPiece Board.createStandard q
  end.
Proof.
  apply (movePiece_spec Board.createStandard e2 e4).
  apply create_wellFormed.
Defined.

Lemma set_absent (k : string) (v : Piece) (m : JsMap.t) :
  ~ In k (JsMap.keys m) -> JsMap.set k v m = m ++ [(k, v)].
Proof.
  induction m as [|[k' v'] m IH]; simpl; intros N; [reflexivity|].
  destruct (String.eqb k' k) eqn:E.
  - apply String.eqb_eq in E. tauto.
  - rewrite IH by tauto. reflexivity.
Qed.

(** Setting pieces on pairwise different squares, none of them occupied,
    appends them in order. *)
Lemma fold_setPiece_fresh (ps : list Piece) (m : JsMap.t) :
  NoDup (JsMap.keys m ++ map (fun p => Board.getPositionKey (position p)) ps) ->
  pieces (fold_left Board.setPiece ps (mkBoard m))
  = m ++ map (fun p => (Board.getPositionKey (position p), p)) ps.
Proof.
  revert m. induction ps as [|p ps IH]; intros m N; simpl.
  - now rewrite app_nil_r.
  - unfold Board.setPiece at 2. simpl.
    assert (F : ~ In (Board.getPositionKey (position p)) (JsMap.keys m)).
    { intros H. apply NoDup_remove_2 in N. apply N. apply in_or_app. now left. }
    rewrite set_absent by assumption.
    rewrite IH.
    + rewrite <- app_assoc. reflexivity.
    + unfold JsMap.keys in *. rewrite map_app. simpl. rewrite <- app_assoc. exact N.
Qed.

Lemma clone_piece (p : Piece) : Piece.clone p = p.
Proof. destruct p as [ty c [f r] hm]. reflexivity. Qed.

Lemma board_ext (b b' : Board) : pieces b = pieces b' -> b = b'.
Proof. destruct b, b'. simpl. now intros ->. Qed.

Lemma clone_eq (b : Board) : wellFormed b -> Board.clone b = b.
Proof.
  intros [N K]. unfold Board.clone, Board.create.
  rewrite (map_ext _ (fun p => p) clone_piece), map_id.
  destruct b as [m]. apply board_ext.
  rewrite fold_setPiece_fresh.
  - simpl. unfold Board.getAllPieces, JsMap.values. simpl. rewrite map_map.
    simpl in K. unfold keyed in K. rewrite Forall_forall in K.
    rewrite <- (map_id m) at 2. apply map_ext_in.
    intros [k v] H. pose proof (K _ H) as Ek. simpl in *. now rewrite <- Ek.
  - simpl. unfold Board.getAllPieces, JsMap.values. simpl. rewrite map_map.
    simpl in N, K. unfold keyed in K. rewrite Forall_forall in K.
    unfold JsMap.keys in N.
    rewrite (map_ext_in _ fst); [assumption|].
    intros kv H. symmetry. now apply K.
Qed.

(** X4.  On a board that satisfies the representation invariant [clone]
    returns a board with the same pieces in the same iteration order; in
    particular every lookup gives the same answer. *)
Theorem clone_same_pieces (b : Board) :
  wellFormed b ->
  Board.getAllPieces (Board.clone b) = Board.getAllPieces b
  /\ forall q, Board.getPiece (Board.clone b) q = Board.getPiece b q.
Proof.
  intros W. rewrite (clone_eq b W). split; reflexivity.
Qed.

Lemma clone_same_pieces_witness :
  Board.getAllPieces (Board.clone Board.createStandard)
  = Board.getAllPieces Board.createStandard
  /\ forall q, Board.getPiece (Board.clone Board.createStandard) q
               = Board.getPiece Board.createStandard q.
Proof.
  apply (clone_same_pieces Board.createStandard). apply create_wellFormed.
Defined.

Lemma find_append {A : Type} (f : A -> bool) (l l' : list A) :
  find f (l ++ l') = match find f l with Some x => Some x | None => find f l' end.
Proof.
  induction l as [|x l IH]; simpl; [reflexivity|]. now destruct (f x).
Qed.

Lemma getPiece_fold_setPiece (ps : list Piece) (b : Board) (q : Position) :
  Board.getPiece (fold_left Board.setPiece ps b) q
  = match lastAt q ps with
    | Some p => Some p
    | None => Board.getPiece b q
    end.
Proof.
  unfold lastAt. revert b. induction ps as [|p ps IH]; intros b; simpl; [reflexivity|].
  rewrite IH, find_append.
  destruct (find _ (rev ps)); [reflexivity|]. simpl.
  destruct (samePosition (position p) q) eqn:E.
  - apply samePosition_eq in E. subst q. apply getPiece_setPiece_same.
  - apply samePosition_neq in E. apply getPiece_setPiece_other. congruence.
Qed.

(** X5.  A board built from a piece list holds on each square the last
    piece of the list that names the square, and nothing on the squares
    that no piece names. *)
Theorem getPiece_create (ps : list Piece) (q : Position) :
  Board.getPiece (Board.create ps) q = lastAt q ps.
Proof.
  unfold Board.create. rewrite getPiece_fold_setPiece.
  destruct (lastAt q ps); reflexivity.
Qed.
(** ** Pseudo-legal moves *)

Lemma keepCandidate_In (p : Piece) (b : Board) (c m : Position) :
  In m (PieceRules.keepCandidate p b c) <->
  m = c /\ PositionUtils.isValid c = true /\ notOwn b (color p) c.
Proof.
  unfold PieceRules.keepCandidate, notOwn.
  destruct (PositionUtils.isValid c); [|split; [intros [] | intros (_ & H & _); discriminate]].
  destruct (Board.getPiece b c) as [t|].
  - destruct (Color_eqb (color t) (color p)) eqn:E; simpl.
    + apply Color_eqb_eq in E. split; [intros [] | intros (_ & _ & H)].
      now apply (H t).
    + split.
      * intros [<- | []]. repeat split. intros t' [= <-] H.
        apply Color_eqb_eq in H. congruence.
      * intros (-> & _). now left.
  - simpl. split.
    + intros [<- | []]. repeat split. discriminate.
    + intros (-> & _). now left.
Qed.

Lemma walk_In (n : nat) (p : Piece) (b : Board) (dir : Position) (df dr : Z) :
  file dir = Int df -> rank dir = Int dr ->
  forall cf cr m,
    In m (PieceRules.walk n p b dir cf cr) ->
    exists x y k,
      cf = Int x /\ cr = Int y /\ 0 <= k
      /\ m = Board.pos (x + k * df) (y + k * dr)
      /\ PositionUtils.isValid m = true
      /\ notOwn b (color p) m
      /\ forall j, 0 <= j < k ->
                   Board.getPiece b (Board.pos (x + j * df) (y + j * dr)) = None.
Proof.
  intros Fd Rd. induction n as [|n IH]; intros cf cr m H; [destruct H|].
  cbn [PieceRules.walk] in H.
  destruct (Js.geb cf (Int 0) && Js.leb cf (Int 7) && Js.geb cr (Int 0)
            && Js.leb cr (Int 7)) eqn:V; [|destruct H].
  destruct cf as [x|]; [|discriminate]. destruct cr as [y|]; [|simpl in V; lia].
  assert (Here : In m [{| file := Int x; rank := Int y |}] ->
                 notOwn b (color p) {| file := Int x; rank := Int y |} ->
                 exists x0 y0 k,
                   Int x = Int x0 /\ Int y = Int y0 /\ 0 <= k
                   /\ m = Board.pos (x0 + k * df) (y0 + k * dr)
                   /\ PositionUtils.isValid m = true
                   /\ notOwn b (color p) m
                   /\ forall j, 0 <= j < k ->
                        Board.getPiece b (Board.pos (x0 + j * df) (y0 + j * dr)) = None).
  { intros [<- | []] N. exists x, y, 0. unfold Board.pos.
    rewrite !Z.mul_0_l, !Z.add_0_r.
    split; [reflexivity|]. split; [reflexivity|]. split; [lia|].
    split; [reflexivity|]. split; [exact V|]. split; [exact N|].
    intros j Hj. lia. }
  destruct (Board.getPiece b {| file := Int x; rank := Int y |}) as [t|] eqn:G.
  - destruct (negb (Color_eqb (color t) (color p))) eqn:C; [|destruct H].
    apply (Here H). intros t' E. rewrite G in E. injection E as <-.
    apply negb_true_iff in C. intros Hc. apply Color_eqb_eq in Hc. congruence.
  - destruct H as [H | H].
    + apply (Here (or_introl H)). intros t' E. rewrite G in E. discriminate.
    + rewrite Fd, Rd in H. simpl in H. apply IH in H.
      destruct H as (x0 & y0 & k & [= <-] & [= <-] & Hk & -> & Vm & N & E).
      exists x, y, (k + 1). repeat split; try lia.
      * unfold Board.pos. f_equal; f_equal; lia.
      * assumption.
      * assumption.
      * intros j Hj. destruct (Z.eq_dec j 0) as [-> | Nj].
        -- unfold Board.pos. rewrite !Z.mul_0_l, !Z.add_0_r. exact G.
        -- specialize (E (j - 1)).
           replace (x + df + (j - 1) * df) with (x + j * df) in E by lia.
           replace (y + dr + (j - 1) * dr) with (y + j * dr) in E by lia.
           apply E. lia.
Qed.

Lemma rays_In (dirs : list Position) (p : Piece) (b : Board) (m : Position) :
  (forall dir, In dir dirs -> exists df dr, dir = Board.pos df dr) ->
  In m (PieceRules.rays dirs p b) ->
  exists dir k,
    In dir dirs /\ 1 <= k
    /\ m = stepsFrom (position p) dir k
    /\ PositionUtils.isValid m = true
    /\ notOwn b (color p) m
    /\ forall j, 1 <= j < k -> Board.getPiece b (stepsFrom (position p) dir j) = None.
Proof.
  intros D H. unfold PieceRules.rays in H. apply in_flat_map in H.
  destruct H as (dir & Hin & H).
  destruct (D dir Hin) as (df & dr & ->).
  apply (walk_In _ _ _ (Board.pos df dr) df dr eq_refl eq_refl) in H.
  destruct H as (x & y & k & Ex & Ey & Hk & -> & V & N & E).
  destruct (position p) as [[f|] [r|]] eqn:P; simpl in Ex, Ey; try discriminate.
  injection Ex as <-. injection Ey as <-.
  exists (Board.pos df dr), (k + 1). split; [assumption|]. split; [lia|].
  unfold stepsFrom. simpl.
  split; [unfold Board.pos; f_equal; f_equal; lia|].
  split; [assumption|]. split; [assumption|].
  intros j Hj. specialize (E (j - 1)).
  replace (f + df + (j - 1) * df) with (f + j * df) in E by lia.
  replace (r + dr + (j - 1) * dr) with (r + j * dr) in E by lia.
  unfold Board.pos in E. apply E. lia.
Qed.

Lemma directions_integer (type : PieceType) (dir : Position) :
  In dir (slidingDirections type) -> exists df dr, dir = Board.pos df dr.
Proof.
  destruct type; simpl; intros H;
    repeat (destruct H as [<- | H]; [eexists; eexists; reflexivity|]);
    destruct H.
Qed.

(** X6.  Every pseudo-legal move of a bishop, rook or queen goes a
    positive number of steps along one of the piece type's directions, and
    every square strictly between origin and destination is empty. *)
Theorem sliding_moves_do_not_jump (p : Piece) (b : Board) (m : Position) :
  ptype p = Bishop \/ ptype p = Rook \/ ptype p = Queen ->
  In m (PieceRules.getPossibleMoves p b) ->
  exists dir k,
    In dir (slidingDirections (ptype p)) /\ 1 <= k
    /\ m = stepsFrom (position p) dir k
    /\ forall j, 1 <= j < k -> Board.getPiece b (stepsFrom (position p) dir j) = None.
Proof.
  intros T H. unfold PieceRules.getPossibleMoves in H.
  assert (R : forall dirs, (forall d, In d dirs -> In d (slidingDirections (ptype p))) ->
                           In m (PieceRules.rays dirs p b) ->
                           exists dir k,
                             In dir (slidingDirections (ptype p)) /\ 1 <= k
                             /\ m = stepsFrom (position p) dir k
                             /\ forall j, 1 <= j < k ->
                                  Board.getPiece b (stepsFrom (position p) dir j) = None).
  { intros dirs Sub Hr. apply rays_In in Hr.
    - destruct Hr as (dir & k & Hin & Hk & Em & _ & _ & E).
      exists dir, k. repeat split; auto.
    - intros d Hd. apply (directions_integer (ptype p)). auto. }
  destruct T as [T | [T | T]]; rewrite T in *.
  - apply (R PieceRules.diagonalDirections); [tauto | exact H].
  - apply (R PieceRules.straightDirections); [tauto | exact H].
  - unfold PieceRules.queenMoves in H. apply in_app_or in H. destruct H as [H | H].
    + apply (R PieceRules.straightDirections); [|exact H].
      intros d Hd. unfold slidingDirections. apply in_or_app. now left.
    + apply (R PieceRules.diagonalDirections); [|exact H].
      intros d Hd. unfold slidingDirections. apply in_or_app. now right.
Qed.

(** The black rook on a8 reaches a2, where the white pawn stands. *)
Lemma sliding_moves_do_not_jump_witness :
  exists dir k,
    In dir (slidingDirections Rook) /\ 1 <= k
    /\ Board.pos 0 1 = stepsFrom (Board.pos 0 7) dir k
    /\ forall j, 1 <= j < k ->
                 Board.getPiece rookAndPawn (stepsFrom (Board.pos 0 7) dir j) = None.
Proof.
  apply (sliding_moves_do_not_jump (mkPiece Rook Black (Board.pos 0 7) true)
                                   rookAndPawn (Board.pos 0 1)).
  - right. left. reflexivity.
  - vm_compute. tauto.
Defined.

Lemma direction_forward (c : Color) : PieceRules.direction c = Int (forward c).
Proof. now destruct c. Qed.

Lemma startRank_homeRank (c : Color) : PieceRules.startRank c = Int (homeRank c).
Proof. now destruct c. Qed.

Lemma isEmpty_true (b : Board) (q : Position) :
  Board.isEmpty b q = true <-> Board.getPiece b q = None.
Proof. unfold Board.isEmpty. destruct (Board.getPiece b q); split; congruence. Qed.

Lemma isOpponentPiece_true (b : Board) (q : Position) (c : Color) :
  Board.isOpponentPiece b q c = true <->
  exists t, Board.getPiece b q = Some t /\ color t <> c.
Proof.
  unfold Board.isOpponentPiece. destruct (Board.getPiece b q) as [t|].
  - rewrite negb_true_iff. split.
    + intros H. exists t. split; [reflexivity|]. intros E.
      apply Color_eqb_eq in E. congruence.
    + intros (t' & [= <-] & N). destruct (Color_eqb (color t) c) eqn:E; [|reflexivity].
      apply Color_eqb_eq in E. contradiction.
  - split; [discriminate | intros (t & H & _); discriminate].
Qed.

Lemma pawnMoves_In (p : Piece) (b : Board) (m : Position) :
  In m (PieceRules.pawnMoves p b) ->
  exists f r,
    position p = Board.pos f r
    /\ PositionUtils.isValid m = true
    /\ let d := forward (color p) in
       (m = Board.pos f (r + d) /\ Board.getPiece b m = None)
       \/ (m = Board.pos f (r + 2 * d) /\ r = homeRank (color p)
           /\ Board.getPiece b (Board.pos f (r + d)) = None
           /\ Board.getPiece b m = None)
       \/ ((m = Board.pos (f - 1) (r + d) \/ m = Board.pos (f + 1) (r + d))
           /\ exists t, Board.getPiece b m = Some t /\ color t <> color p).
Proof.
  intros H. unfold PieceRules.pawnMoves in H.
  rewrite direction_forward, startRank_homeRank in H.
  destruct (position p) as [pf pr] eqn:P. cbn [file rank] in H.
  apply in_app_or in H. destruct H as [H | H].
  - destruct (PositionUtils.isValid _ && Board.isEmpty b _) eqn:C in H; [|destruct H].
    apply andb_prop in C. destruct C as [V E].
    destruct (valid_cases _ V) as (f' & r' & Eq & Hf & Hr).
    destruct pf as [f|]; [|discriminate]. destruct pr as [r|]; [|discriminate].
    simpl in Eq. unfold Board.pos in Eq. injection Eq as <- <-.
    exists f, r. split; [reflexivity|]. cbv zeta.
    destruct H as [<- | H].
    + split; [assumption|]. left. split; [reflexivity|]. now apply isEmpty_true.
    + destruct (Js.eqb (Int r) (Int (homeRank (color p)))) eqn:S; [|destruct H].
      simpl in S. apply Z.eqb_eq in S.
      destruct (Board.isEmpty b _) eqn:E2 in H; [|destruct H].
      destruct H as [<- | []].
      split; [destruct (color p); simpl in *; subst r; unfold PositionUtils.isValid; simpl;
              destruct ((0 <=? f) && (f <=? 7)) eqn:Vf; trivial; lia|].
      right. left. simpl. split; [reflexivity|]. split; [assumption|].
      split; [apply isEmpty_true in E; exact E | apply isEmpty_true in E2; exact E2].
  - apply in_flat_map in H. destruct H as (cfile & Hin & H).
    destruct (PositionUtils.isValid _ && Board.isOpponentPiece b _ (color p)) eqn:C in H;
      [|destruct H].
    destruct H as [<- | []].
    apply andb_prop in C. destruct C as [V O].
    destruct (valid_cases _ V) as (f' & r' & Eq & Hf & Hr).
    destruct pr as [r|]; [|discriminate].
    destruct pf as [f|]; [|destruct Hin as [<- | [<- | []]]; discriminate].
    exists f, r. split; [reflexivity|]. split; [assumption|]. cbv zeta.
    right. right. split.
    + destruct Hin as [<- | [<- | []]]; [left | right]; reflexivity.
    + now apply isOpponentPiece_true.
Qed.

(** X7.  A pseudo-legal pawn move is one step straight ahead onto an
    empty square, two steps straight ahead from the home rank over an empty
    square onto an empty square, or one step diagonally ahead onto a square
    that holds a piece of the other colour. *)
Theorem pawn_moves_shape (p : Piece) (b : Board) (m : Position) :
  ptype p = Pawn ->
  In m (PieceRules.getPossibleMoves p b) ->
  exists f r,
    position p = Board.pos f r
    /\ PositionUtils.isValid m = true
    /\ let d := forward (color p) in
       (m = Board.pos f (r + d) /\ Board.getPiece b m = None)
       \/ (m = Board.pos f (r + 2 * d) /\ r = homeRank (color p)
           /\ Board.getPiece b (Board.pos f (r + d)) = None
           /\ Board.getPiece b m = None)
       \/ ((m = Board.pos (f - 1) (r + d) \/ m = Board.pos (f + 1) (r + d))
           /\ exists t, Board.getPiece b m = Some t /\ color t <> color p).
Proof.
  intros T H. unfold PieceRules.getPossibleMoves in H. rewrite T in H.
  now apply pawnMoves_In.
Qed.

Lemma pawn_moves_shape_witness :
  exists f r,
    Board.pos 4 1 = Board.pos f r
    /\ PositionUtils.isValid e4 = true
    /\ let d := forward White in
       (e4 = Board.pos f (r + d) /\ Board.getPiece Board.createStandard e4 = None)
       \/ (e4 = Board.pos f (r + 2 * d) /\ r = homeRank White
           /\ Board.getPiece Board.createStandard (Board.pos f (r + d)) = None
           /\ Board.getPiece Board.createStandard e4 = None)
       \/ ((e4 = Board.pos (f - 1) (r + d) \/ e4 = Board.pos (f + 1) (r + d))
           /\ exists t, Board.getPiece Board.createStandard e4 = Some t /\ color t <> White).
Proof.
  apply (pawn_moves_shape (Piece.create Pawn White (Board.pos 4 1)) Board.createStandard e4).
  - reflexivity.
  - vm_compute. tauto.
Defined.

Lemma notOwn_empty (b : Board) (c : Color) (q : Position) :
  Board.isEmpty b q = true -> notOwn b c q.
Proof. intros E t G. apply isEmpty_true in E. congruence. Qed.

Lemma notOwn_opponent (b : Board) (c : Color) (q : Position) :
  Board.isOpponentPiece b q c = true -> notOwn b c q.
Proof.
  intros O t G. apply isOpponentPiece_true in O. destruct O as (t' & G' & N). congruence.
Qed.

(** The square two steps ahead of a pawn on its home rank is on the board
    when the square one step ahead is. *)
Lemma two_forward_valid (c : Color) (f r : number) :
  PositionUtils.isValid {| file := f; rank := Js.add r (PieceRules.direction c) |} = true ->
  Js.eqb r (PieceRules.startRank c) = true ->
  PositionUtils.isValid
    {| file := f; rank := Js.add r (Js.mul (Int 2) (PieceRules.direction c)) |} = true.
Proof.
  intros V S. apply valid_cases in V. destruct V as (f' & r' & Eq & Hf & Hr).
  destruct f as [f|]; [|discriminate]. destruct r as [r|]; [|destruct c; discriminate].
  unfold Board.pos in Eq. injection Eq as -> _.
  destruct c; simpl in S; apply Z.eqb_eq in S; subst r;
    unfold PositionUtils.isValid; simpl;
    destruct ((0 <=? f') && (f' <=? 7)) eqn:Vf; trivial; lia.
Qed.

Lemma getPossibleMoves_In (p : Piece) (b : Board) (m : Position) :
  In m (PieceRules.getPossibleMoves p b) ->
  PositionUtils.isValid m = true /\ notOwn b (color p) m.
Proof.
  assert (R : forall dirs,
             (forall dir, In dir dirs -> exists df dr, dir = Board.pos df dr) ->
             In m (PieceRules.rays dirs p b) ->
             PositionUtils.isValid m = true /\ notOwn b (color p) m).
  { intros dirs D H. apply rays_In in H; [|assumption].
    destruct H as (dir & k & _ & _ & _ & V & N & _). now split. }
  assert (L : forall cs, In m (flat_map (PieceRules.keepCandidate p b) cs) ->
                         PositionUtils.isValid m = true /\ notOwn b (color p) m).
  { intros cs H. apply in_flat_map in H. destruct H as (c & _ & H).
    apply keepCandidate_In in H. destruct H as (-> & V & N). now split. }
  unfold PieceRules.getPossibleMoves. destruct (ptype p) eqn:T; intros H.
  - unfold PieceRules.pawnMoves in H.
    apply in_app_or in H. destruct H as [H | H].
    + destruct (PositionUtils.isValid _ && Board.isEmpty b _) eqn:C in H; [|destruct H].
      apply andb_prop in C. destruct C as [V E].
      destruct H as [<- | H]; [split; [assumption | now apply notOwn_empty]|].
      destruct (Js.eqb _ _) eqn:S in H; [|destruct H].
      destruct (Board.isEmpty b _) eqn:E2 in H; [|destruct H].
      destruct H as [<- | []].
      split; [now apply two_forward_valid | now apply notOwn_empty].
    + apply in_flat_map in H. destruct H as (cfile & _ & H).
      destruct (PositionUtils.isValid _ && Board.isOpponentPiece b _ (color p)) eqn:C in H;
        [|destruct H].
      destruct H as [<- | []]. apply andb_prop in C. destruct C as [V O].
      split; [assumption | now apply notOwn_opponent].
  - now apply L in H.
  - apply (R PieceRules.diagonalDirections); [|exact H].
    apply (directions_integer Bishop).
  - apply (R PieceRules.straightDirections); [|exact H].
    apply (directions_integer Rook).
  - unfold PieceRules.queenMoves in H. apply in_app_or in H. destruct H as [H | H].
    + apply (R PieceRules.straightDirections); [|exact H].
      apply (directions_integer Rook).
    + apply (R PieceRules.diagonalDirections); [|exact H].
      apply (directions_integer Bishop).
  - now apply L in H.
Qed.

(** X8.  Every pseudo-legal destination of every piece is a
    square of the board that holds no piece of the mover's colour; for a
    piece that stands on the board it is never the piece's own square. *)
Theorem pseudo_legal_moves_sound (p : Piece) (b : Board) (m : Position) :
  In m (PieceRules.getPossibleMoves p b) ->
  PositionUtils.isValid m = true
  /\ notOwn b (color p) m
  /\ (Board.getPiece b (position p) = Some p -> m <> position p).
Proof.
  intros H. apply getPossibleMoves_In in H. destruct H as [V N].
  split; [assumption|]. split; [assumption|].
  intros G ->. now apply (N p).
Qed.

Lemma pseudo_legal_moves_sound_witness :
  PositionUtils.isValid e4 = true
  /\ notOwn Board.createStandard White e4
  /\ (Board.getPiece Board.createStandard (Board.pos 4 1)
      = Some (Piece.create Pawn White (Board.pos 4 1)) -> e4 <> Board.pos 4 1).
Proof.
  apply (pseudo_legal_moves_sound (Piece.create Pawn White (Board.pos 4 1))
                                  Board.createStandard e4).
  vm_compute. tauto.
Defined.

Lemma offset_integer (p : Position) (df dr : Z) (f r : Z) :
  p = Board.pos f r -> PieceRules.offset p df dr = Board.pos (f + df) (r + dr).
Proof. now intros ->. Qed.

Lemma knight_offsets (df dr : Z) :
  Z.abs df * Z.abs dr = 2 <->
  In (df, dr) [(2, 1); (2, -1); (-2, 1); (-2, -1); (1, 2); (1, -2); (-1, 2); (-1, -2)].
Proof.
  split.
  - intros H.
    assert (C : (Z.abs df = 1 /\ Z.abs dr = 2) \/ (Z.abs df = 2 /\ Z.abs dr = 1)).
    { pose proof (Z.abs_nonneg df) as Na. pose proof (Z.abs_nonneg dr) as Nb.
      remember (Z.abs df) as x. remember (Z.abs dr) as y.
      assert (Nx : x <> 0) by (intros ->; lia).
      assert (Ny : y <> 0) by (intros ->; lia).
      assert (Bx : x * 1 <= x * y) by (apply Z.mul_le_mono_nonneg_l; lia).
      assert (Dx : x = 1 \/ x = 2) by lia.
      destruct Dx as [-> | ->]; lia. }
    simpl.
    assert (D1 : df = 1 \/ df = -1 \/ df = 2 \/ df = -2) by lia.
    assert (D2 : dr = 1 \/ dr = -1 \/ dr = 2 \/ dr = -2) by lia.
    destruct D1 as [-> | [-> | [-> | ->]]], D2 as [-> | [-> | [-> | ->]]];
      simpl in C; try lia; tauto.
  - simpl. intros H.
    repeat (destruct H as [[= <- <-] | H]; [reflexivity|]). destruct H.
Qed.

Lemma king_offsets (df dr : Z) :
  Z.max (Z.abs df) (Z.abs dr) = 1 <->
  In (df, dr) [(1, 0); (-1, 0); (0, 1); (0, -1); (1, 1); (1, -1); (-1, 1); (-1, -1)].
Proof.
  split.
  - intros H.
    assert (D1 : df = 1 \/ df = -1 \/ df = 0) by lia.
    assert (D2 : dr = 1 \/ dr = -1 \/ dr = 0) by lia.
    simpl.
    destruct D1 as [-> | [-> | ->]], D2 as [-> | [-> | ->]]; simpl in H; try lia; tauto.
  - simpl. intros H.
    repeat (destruct H as [[= <- <-] | H]; [reflexivity|]). destruct H.
Qed.

(** X9.  The pseudo-legal moves of a knight are exactly the
    squares of the board at an L-shaped offset that hold no piece of its
    colour; those of a king are exactly such squares at distance one. *)
Theorem leaper_moves_spec (p : Piece) (b : Board) (m : Position) :
  ptype p = Knight \/ ptype p = King ->
  In m (PieceRules.getPossibleMoves p b) <->
  PositionUtils.isValid m = true /\ notOwn b (color p) m
  /\ exists df dr, leap (ptype p) df dr /\ m = PieceRules.offset (position p) df dr.
Proof.
  assert (F : forall offs,
             In m (flat_map (PieceRules.keepCandidate p b)
                            (map (fun o => PieceRules.offset (position p) (fst o) (snd o)) offs))
             <-> PositionUtils.isValid m = true /\ notOwn b (color p) m
                 /\ exists df dr, In (df, dr) offs
                                  /\ m = PieceRules.offset (position p) df dr).
  { intros offs. rewrite in_flat_map. split.
    - intros (c & Hin & H). apply keepCandidate_In in H. destruct H as (-> & V & N).
      apply in_map_iff in Hin. destruct Hin as ([df dr] & <- & Hin).
      repeat split; try assumption. now exists df, dr.
    - intros (V & N & df & dr & Hin & ->).
      exists (PieceRules.offset (position p) df dr). split.
      + apply in_map_iff. now exists (df, dr).
      + apply keepCandidate_In. repeat split; assumption. }
  intros [T | T]; unfold PieceRules.getPossibleMoves; rewrite T; simpl leap.
  - unfold PieceRules.knightMoves. cbv zeta.
    rewrite (F [(2, 1); (2, -1); (-2, 1); (-2, -1); (1, 2); (1, -2); (-1, 2); (-1, -2)]).
    split; intros (V & N & df & dr & H & E); repeat split; try assumption;
      exists df, dr; (split; [now apply knight_offsets | assumption]).
  - unfold PieceRules.kingMoves. cbv zeta.
    rewrite (F [(1, 0); (-1, 0); (0, 1); (0, -1); (1, 1); (1, -1); (-1, 1); (-1, -1)]).
    split; intros (V & N & df & dr & H & E); repeat split; try assumption;
      exists df, dr; (split; [now apply king_offsets | assumption]).
Qed.

Lemma leaper_moves_spec_witness :
  In (Board.pos 5 2)
     (PieceRules.getPossibleMoves (Piece.create Knight White (Board.pos 6 0))
                                  Board.createStandard) <->
  PositionUtils.isValid (Board.pos 5 2) = true
  /\ notOwn Board.createStandard White (Board.pos 5 2)
  /\ exists df dr, leap Knight df dr
                   /\ Board.pos 5 2 = PieceRules.offset (Board.pos 6 0) df dr.
Proof.
  apply (leaper_moves_spec (Piece.create Knight White (Board.pos 6 0))
                           Board.createStandard (Board.pos 5 2)).
  left. reflexivity.
Defined.
(** ** Applying a move *)

Lemma samePosition_refl (p : Position) : samePosition p p = true.
Proof. now apply samePosition_eq. Qed.

Lemma samePosition_false (p q : Position) : p <> q -> samePosition p q = false.
Proof.
  intros N. destruct (samePosition p q) eqn:E; [|reflexivity].
  apply samePosition_eq in E. contradiction.
Qed.

Lemma equals_eq (a b : Position) : PositionUtils.equals a b = true -> a = b.
Proof.
  unfold PositionUtils.equals. destruct a as [[x|] [y|]], b as [[x'|] [y'|]]; simpl;
    try discriminate; try (rewrite andb_false_r; discriminate).
  intros H. apply andb_prop in H. destruct H as [H1 H2].
  apply Z.eqb_eq in H1, H2. now subst.
Qed.

(** The three kinds of moves that [getLegalMoves] returns. *)
Lemma getLegalMoves_cases (p : Piece) (b : Board) (ep : option Position) (m : Move) :
  In m (GameRules.getLegalMoves p b ep) ->
  (exists tp, In tp (PieceRules.getPossibleMoves p b)
              /\ m = Move.create (position p) tp p (Board.getPiece b tp)
              /\ GameRules.isMoveLegal m b = true)
  \/ (exists side, m = castlingMove side p /\ ptype p = King /\ hasMoved p = false
                   /\ castlingTest side p b = true)
  \/ (exists target captured,
         ep = Some target /\ ptype p = Pawn
         /\ m = mkMove (position p) target p (Some captured) EnPassant None
         /\ Board.getPiece b {| file := file target; rank := rank (position p) |}
            = Some captured
         /\ ptype captured = Pawn
         /\ GameRules.isMoveLegal m b = true
         /\ Js.eqb (Js.add (rank (position p)) (PieceRules.direction (color p)))
                   (rank target) = true
         /\ (Js.eqb (Js.sub (file (position p)) (Int 1)) (file target) = true
             \/ Js.eqb (Js.add (file (position p)) (Int 1)) (file target) = true)).
Proof.
  unfold GameRules.getLegalMoves. intros H.
  apply in_app_or in H. destruct H as [H | H]; [|apply in_app_or in H; destruct H as [H | H]].
  - left. apply filter_In in H. destruct H as [H L].
    apply in_map_iff in H. destruct H as (tp & <- & Hin). now exists tp.
  - right. left.
    destruct (PieceType_eqb (ptype p) King) eqn:T; [|destruct H].
    destruct (getCastlingMoves_shape _ _ _ H) as (_ & _ & _ & _ & C).
    unfold Move.isCastling in C. apply orb_prop in C.
    destruct C as [C | C]; apply SpecialMoveType_eqb_eq in C.
    + exists Kingside. now apply (getCastlingMoves_In Kingside p b m).
    + exists Queenside. now apply (getCastlingMoves_In Queenside p b m).
  - right. right.
    destruct ep as [target|]; [|destruct H].
    destruct (PieceType_eqb (ptype p) Pawn) eqn:T; [|destruct H].
    apply PieceType_eqb_eq in T.
    unfold GameRules.getEnPassantMove in H.
    destruct (negb _) in H; [destruct H|].
    destruct (GameRules.enPassantLoop _ p b target) as [m'|] eqn:E; [|destruct H].
    destruct H as [<- | []].
    destruct (enPassantLoop_shape _ _ _ _ _ E) as (c & -> & G & Tc & L & R & f & Fin & Ff).
    exists target, c. repeat (split; [first [reflexivity | assumption]|]).
    destruct Fin as [<- | [<- | []]]; [left | right]; assumption.
Qed.

(** What a call of [makeMove] that reports success has done, in full. *)
Lemma makeMove_inv (s : GameState) (f t : Position) (promo : option PieceType)
      (r : MoveResult) :
  GameState.makeMove s f t promo = Returns r -> success r = true ->
  exists p found m b' s',
    Board.getPiece (board s) f = Some p
    /\ color p = currentTurn s
    /\ In found (GameRules.getLegalMoves p (board s) (enPassantTarget s))
    /\ to found = t
    /\ ((GameState.isBackRank p t = false /\ m = found)
        \/ (GameState.isBackRank p t = true
            /\ exists pt, promo = Some pt
                          /\ m = mkMove f t p (capturedPiece found) PawnPromotion (Some pt)))
    /\ GameState.applyToBoard s m = Returns b'
    /\ GameState.applyMove s m = Returns s'
    /\ board s' = b'
    /\ move r = Some m /\ newState r = Some s'.
Proof.
  unfold GameState.makeMove. intros H S.
  destruct (Board.getPiece (board s) f) as [p|] eqn:G;
    [|injection H as <-; discriminate].
  destruct (negb (Color_eqb (color p) (currentTurn s))) eqn:C;
    [injection H as <-; discriminate|].
  apply negb_false_iff, Color_eqb_eq in C.
  destruct (find _ _) as [found|] eqn:F; [|injection H as <-; discriminate].
  apply find_some in F. destruct F as [Fin Fto].
  unfold GameState.getLegalMovesForPiece in Fin.
  rewrite C, Color_eqb_refl in Fin. simpl in Fin.
  unfold GameState.arrivesAt in Fto. apply equals_eq in Fto.
  destruct (GameState.isBackRank p t) eqn:B.
  - destruct promo as [pt|]; [|injection H as <-; discriminate].
    destruct (GameState.applyMove s _) as [s'|] eqn:A; [|discriminate].
    injection H as <-.
    pose proof A as A'. rewrite applyMove_unfold in A'.
    destruct (GameState.applyToBoard s _) as [b'|] eqn:AB; [|discriminate].
    cbv zeta in A'. injection A' as E.
    exists p, found, (mkMove f t p (capturedPiece found) PawnPromotion (Some pt)), b', s'.
    split; [reflexivity|]. split; [assumption|]. split; [assumption|].
    split; [assumption|].
    split; [right; split; [assumption|]; now exists pt|].
    split; [assumption|]. split; [assumption|].
    split; [now rewrite <- E|]. split; reflexivity.
  - destruct (GameState.applyMove s found) as [s'|] eqn:A; [|discriminate].
    injection H as <-.
    pose proof A as A'. rewrite applyMove_unfold in A'.
    destruct (GameState.applyToBoard s found) as [b'|] eqn:AB; [|discriminate].
    cbv zeta in A'. injection A' as E.
    exists p, found, found, b', s'.
    split; [reflexivity|]. split; [assumption|]. split; [assumption|].
    split; [assumption|].
    split; [left; now split|].
    split; [assumption|]. split; [assumption|].
    split; [now rewrite <- E|]. split; reflexivity.
Qed.

Lemma makeMove_result_shape (s : GameState) (f t : Position) (promo : option PieceType)
      (r : MoveResult) :
  GameState.makeMove s f t promo = Returns r -> success r = true ->
  exists m s',
    GameState.applyMove s m = Returns s'
    /\ r = mkMoveResult true (Some m) (Some s') None
           (Some (GameRules.isInCheck (board s') (currentTurn s')))
           (Some (GameResult_eqb (result s') WhiteWin
                  || GameResult_eqb (result s') BlackWin))
           (Some (GameResult_eqb (result s') Draw
                  && match endReason s' with
                     | Some Stalemate => true
                     | _ => false
                     end)).
Proof.
  unfold GameState.makeMove. intros H S.
  destruct (Board.getPiece (board s) f) as [p|]; [|injection H as <-; discriminate].
  destruct (negb _); [injection H as <-; discriminate|].
  destruct (find _ _) as [found|]; [|injection H as <-; discriminate].
  destruct (GameState.isBackRank p t).
  - destruct promo as [pt|]; [|injection H as <-; discriminate].
    destruct (GameState.applyMove s _) as [s'|] eqn:A; [|discriminate].
    injection H as <-. eexists. exists s'. split; [exact A | reflexivity].
  - destruct (GameState.applyMove s found) as [s'|] eqn:A; [|discriminate].
    injection H as <-. exists found, s'. split; [exact A | reflexivity].
Qed.

Lemma applyMove_fields (s s' : GameState) (m : Move) :
  GameState.applyMove s m = Returns s' ->
  currentTurn s' = ColorUtils.opposite (currentTurn s)
  /\ moveHistory s' = moveHistory s ++ [m]
  /\ fullMoveNumber s'
     = (if Color_eqb (currentTurn s) Black
        then Js.add (fullMoveNumber s) (Int 1) else fullMoveNumber s)
  /\ halfMoveClock s'
     = (if PieceType_eqb (ptype (piece m)) Pawn || Move.isCapture m
        then Int 0 else Js.add (halfMoveClock s) (Int 1))
  /\ enPassantTarget s'
     = (if PieceType_eqb (ptype (piece m)) Pawn
           && Js.eqb (Js.abs (Js.sub (rank (to m)) (rank (from m)))) (Int 2)
        then Some {| file := file (from m);
                     rank := Js.div (Js.add (rank (from m)) (rank (to m))) (Int 2) |}
        else None)
  /\ (result s', endReason s')
     = GameState.checkGameEnd (board s') (currentTurn s') (enPassantTarget s')
                              (halfMoveClock s') (moveHistory s').
Proof.
  rewrite applyMove_unfold.
  destruct (GameState.applyToBoard s m) as [nb|]; [|discriminate].
  cbv zeta. intros [= <-]. simpl. repeat (split; [reflexivity|]).
  symmetry. apply surjective_pairing.
Qed.

(** X10.  After a successful [makeMove] from a state whose clocks are
    safe integers the turn has passed to the other colour, the move is
    appended to the history, the full-move number has grown by one exactly
    after a move of Black, and the half-move clock is zero after a pawn
    move or a capture and has grown by one otherwise. *)
Theorem makeMove_bookkeeping (s : GameState) (f t : Position)
        (promo : option PieceType) (r : MoveResult) (h n : Z) :
  halfMoveClock s = Int h -> fullMoveNumber s = Int n ->
  safeInteger h -> safeInteger n ->
  GameState.makeMove s f t promo = Returns r -> success r = true ->
  exists m s',
    move r = Some m /\ newState r = Some s'
    /\ color (piece m) = currentTurn s
    /\ currentTurn s' = ColorUtils.opposite (currentTurn s)
    /\ moveHistory s' = moveHistory s ++ [m]
    /\ fullMoveNumber s'
       = Int (if Color_eqb (currentTurn s) Black then n + 1 else n)
    /\ halfMoveClock s'
       = Int (if PieceType_eqb (ptype (piece m)) Pawn || Move.isCapture m
              then 0 else h + 1).
Proof.
  intros Hh Hn _ _ H S.
  destruct (makeMove_inv _ _ _ _ _ H S)
    as (p & found & m & b' & s' & _ & C & Fin & _ & K & _ & A & _ & Mr & Nr).
  exists m, s'. split; [assumption|]. split; [assumption|].
  split.
  - destruct (getLegalMoves_shape _ _ _ _ Fin) as (Pf & _).
    destruct K as [[_ ->] | [_ (pt & _ & ->)]]; simpl; congruence.
  - destruct (applyMove_fields _ _ _ A) as (T & Hi & Fm & Hm & _).
    split; [assumption|]. split; [assumption|].
    rewrite Fm, Hm, Hh, Hn. split.
    + destruct (Color_eqb (currentTurn s) Black); reflexivity.
    + destruct (PieceType_eqb (ptype (piece m)) Pawn || Move.isCapture m); reflexivity.
Qed.

Lemma makeMove_bookkeeping_witness :
  exists m s',
    move openingResult = Some m /\ newState openingResult = Some s'
    /\ color (piece m) = currentTurn GameState.createStandard
    /\ currentTurn s' = ColorUtils.opposite (currentTurn GameState.createStandard)
    /\ moveHistory s' = moveHistory GameState.createStandard ++ [m]
    /\ fullMoveNumber s'
       = Int (if Color_eqb (currentTurn GameState.createStandard) Black
              then 1 + 1 else 1)
    /\ halfMoveClock s'
       = Int (if PieceType_eqb (ptype (piece m)) Pawn || Move.isCapture m
              then 0 else 0 + 1).
Proof.
  apply (makeMove_bookkeeping GameState.createStandard e2 e4 None openingResult 0 1).
  - reflexivity.
  - reflexivity.
  - unfold safeInteger. simpl. lia.
  - unfold safeInteger. simpl. lia.
  - vm_compute. reflexivity.
  - vm_compute. reflexivity.
Defined.

Lemma checkmate_excludes_stalemate (b : Board) (c : Color) (ep : option Position) :
  GameRules.isCheckmate b c ep = true -> GameRules.isStalemate b c ep = false.
Proof.
  unfold GameRules.isCheckmate, GameRules.isStalemate.
  destruct (GameRules.isInCheck b c); simpl; [reflexivity | discriminate].
Qed.

(** X11.  The flags of a successful [makeMove] are the verdicts of
    the rules engine on the new position for the side now to move:
    [isCheck] is [isInCheck], [isCheckmate] is [isCheckmate] and
    [isStalemate] is [isStalemate]. *)
Theorem makeMove_flags (s : GameState) (f t : Position)
        (promo : option PieceType) (r : MoveResult) :
  GameState.makeMove s f t promo = Returns r -> success r = true ->
  exists s',
    newState r = Some s'
    /\ isCheck r = Some (GameRules.isInCheck (board s') (currentTurn s'))
    /\ isCheckmate r
       = Some (GameRules.isCheckmate (board s') (currentTurn s') (enPassantTarget s'))
    /\ isStalemate r
       = Some (GameRules.isStalemate (board s') (currentTurn s') (enPassantTarget s')).
Proof.
  intros H S.
  destruct (makeMove_result_shape _ _ _ _ _ H S) as (m & s' & A & ->).
  exists s'. simpl. split; [reflexivity|]. split; [reflexivity|].
  destruct (applyMove_fields _ _ _ A) as (_ & _ & _ & _ & _ & E).
  unfold GameState.checkGameEnd in E.
  destruct (GameRules.isCheckmate (board s') (currentTurn s') (enPassantTarget s')) eqn:CM.
  - rewrite (checkmate_excludes_stalemate _ _ _ CM).
    injection E as -> ->. destruct (Color_eqb (currentTurn s') White); split; reflexivity.
  - destruct (GameRules.isStalemate (board s') (currentTurn s') (enPassantTarget s')) eqn:SM.
    + injection E as -> ->. split; reflexivity.
    + destruct (GameRules.hasInsufficientMaterial (board s')).
      * injection E as -> ->. split; reflexivity.
      * destruct (Js.geb (halfMoveClock s') (Int 100)); injection E as -> ->;
          split; reflexivity.
Qed.

Lemma makeMove_flags_witness :
  exists s',
    newState openingResult = Some s'
    /\ isCheck openingResult = Some (GameRules.isInCheck (board s') (currentTurn s'))
    /\ isCheckmate openingResult
       = Some (GameRules.isCheckmate (board s') (currentTurn s') (enPassantTarget s'))
    /\ isStalemate openingResult
       = Some (GameRules.isStalemate (board s') (currentTurn s') (enPassantTarget s')).
Proof.
  apply (makeMove_flags GameState.createStandard e2 e4 None openingResult).
  - vm_compute. reflexivity.
  - vm_compute. reflexivity.
Defined.

(** ** The board after a move *)

Lemma located (b : Board) (q : Position) (p : Piece) :
  wellFormed b -> Board.getPiece b q = Some p -> position p = q.
Proof. intros W. destruct (wellFormed_squares b W) as (_ & H & _). apply H. Qed.

Lemma castlingTest_facts (side : CastlingSide) (king : Piece) (b : Board) :
  castlingTest side king b = true ->
  exists rook,
    Board.getPiece b (rookCorner side (position king)) = Some rook
    /\ ptype rook = Rook /\ hasMoved rook = false
    /\ Board.getPiece b (GameRules.onRank (destinationFile side) (rank (position king))) = None
    /\ Board.getPiece b (rookDestination side (position king)) = None.
Proof.
  unfold castlingTest, rookCorner, rookDestination. intros H.
  destruct (Board.getPiece b (GameRules.onRank (rookFile side) _)) as [rook|];
    [|discriminate].
  exists rook. split; [reflexivity|].
  destruct side; simpl in *;
    repeat (apply andb_prop in H; destruct H as [H ?]);
    repeat match goal with
           | E : Board.isEmpty _ _ = true |- _ => apply isEmpty_true in E
           | E : PieceType_eqb _ _ = true |- _ => apply PieceType_eqb_eq in E
           | E : negb _ = true |- _ => apply negb_true_iff in E
           end;
    repeat split; assumption.
Qed.

Lemma legal_move_cases (b : Board) (p : Piece) (f : Position) (ep : option Position)
      (found : Move) :
  wellFormed b -> Board.getPiece b f = Some p ->
  In found (GameRules.getLegalMoves p b ep) ->
  from found = f /\ piece found = p /\ promotionType found = None /\ to found <> f
  /\ ((specialMove found = SpecialNone
       /\ capturedPiece found = Board.getPiece b (to found)
       /\ In (to found) (PieceRules.getPossibleMoves p b))
      \/ (exists side, found = castlingMove side p /\ ptype p = King
                       /\ castlingTest side p b = true)
      \/ (specialMove found = EnPassant /\ ptype p = Pawn /\ ep = Some (to found)
          /\ exists c, capturedPiece found = Some c /\ ptype c = Pawn
                       /\ position c = beside f (to found)
                       /\ Board.getPiece b (position c) = Some c
                       /\ position c <> to found /\ position c <> f
                       /\ Js.eqb (Js.add (rank f) (PieceRules.direction (color p)))
                                 (rank (to found)) = true)).
Proof.
  intros W G H. pose proof (located _ _ _ W G) as P.
  destruct (getLegalMoves_shape _ _ _ _ H) as (Pm & Fm & Pr & _).
  split; [congruence|]. split; [assumption|]. split; [assumption|].
  destruct (getLegalMoves_cases _ _ _ _ H)
    as [(tp & I & -> & L)
       | [(side & -> & K & Hm & C)
         | (target & c & -> & T & -> & Gc & Tc & L & R & Fi)]].
  - simpl. split.
    + intros ->. apply getPossibleMoves_In in I. destruct I as [_ N].
      now apply (N p G).
    + left. repeat split; assumption.
  - simpl. split.
    + intros E. destruct (castlingTest_facts _ _ _ C) as (rook & _ & _ & _ & D & _).
      rewrite E, <- P in D. rewrite P in D at 1. congruence.
    + right. left. now exists side.
  - simpl. pose proof (located _ _ _ W Gc) as Pc. subst f.
    assert (Rk : rank target <> rank (position p)).
    { intros E. rewrite E in R. destruct (rank (position p)); [|discriminate].
      unfold PieceRules.direction in R. destruct (Color_eqb _ _); simpl in R;
        apply Z.eqb_eq in R; lia. }
    assert (Fl : file target <> file (position p)).
    { intros E. rewrite E in Fi. destruct (file (position p)); simpl in Fi.
      - destruct Fi as [Fi | Fi]; apply Z.eqb_eq in Fi; lia.
      - destruct Fi; discriminate. }
    split; [congruence|]. right. right.
    split; [reflexivity|]. split; [assumption|]. split; [reflexivity|].
    exists c. split; [reflexivity|]. split; [assumption|].
    split; [assumption|]. split; [now rewrite Pc|].
    rewrite Pc. unfold beside. simpl.
    split; [destruct target; simpl in *; congruence|].
    split; [destruct (position p); simpl in *; congruence | assumption].
Qed.

Lemma applyMove_lookup (b : Board) (m : Move) (q : Position) :
  wellFormed b ->
  Board.getPiece (GameRules.applyMove b m) q
  = if samePosition (to m) q then Some (Piece.moveTo (piece m) (to m))
    else match capturedPiece m with
         | Some c => if samePosition (position c) q then None
                     else if samePosition (from m) q then None
                          else Board.getPiece b q
         | None => if samePosition (from m) q then None else Board.getPiece b q
         end.
Proof.
  intros W. unfold GameRules.applyMove. rewrite lookup_setPiece.
  cbn [position Piece.moveTo].
  destruct (samePosition (to m) q); [reflexivity|].
  destruct (capturedPiece m) as [c|].
  - rewrite lookup_removePiece by now apply removePiece_wellFormed.
    now rewrite lookup_removePiece.
  - now rewrite lookup_removePiece.
Qed.

Lemma applyEnPassant_lookup (b : Board) (m : Move) (q : Position) :
  wellFormed b ->
  Board.getPiece (GameState.applyEnPassant b m) q
  = match capturedPiece m with
    | Some c => if samePosition (position c) q then None
                else if samePosition (to m) q then Some (Piece.moveTo (piece m) (to m))
                     else if samePosition (from m) q then None
                          else Board.getPiece b q
    | None => if samePosition (to m) q then Some (Piece.moveTo (piece m) (to m))
              else if samePosition (from m) q then None
                   else Board.getPiece b q
    end.
Proof.
  intros W. unfold GameState.applyEnPassant.
  destruct (capturedPiece m) as [c|].
  - rewrite lookup_removePiece
      by now apply setPiece_wellFormed, removePiece_wellFormed.
    rewrite lookup_setPiece, lookup_removePiece by assumption. reflexivity.
  - rewrite lookup_setPiece, lookup_removePiece by assumption. reflexivity.
Qed.

Lemma applyPromotion_lookup (b b' : Board) (m : Move) (pt : PieceType) (q : Position) :
  wellFormed b -> promotionType m = Some pt ->
  GameState.applyPromotion b m = Returns b' ->
  Board.getPiece b' q
  = if samePosition (to m) q then Some (mkPiece pt (color (piece m)) (to m) true)
    else match capturedPiece m with
         | Some c => if samePosition (position c) q then None
                     else if samePosition (from m) q then None
                          else Board.getPiece b q
         | None => if samePosition (from m) q then None else Board.getPiece b q
         end.
Proof.
  intros W E. unfold GameState.applyPromotion. rewrite E.
  unfold Piece.promote. destruct (negb _); [discriminate|].
  destruct (_ || _); [discriminate|]. intros [= <-].
  rewrite lookup_setPiece. cbn [position Piece.moveTo ptype color].
  destruct (samePosition (to m) q); [reflexivity|].
  destruct (capturedPiece m) as [c|].
  - rewrite lookup_removePiece by now apply removePiece_wellFormed.
    now rewrite lookup_removePiece.
  - now rewrite lookup_removePiece.
Qed.

Lemma onRank_apart (a c : Z) (r : number) (q : Position) :
  a <> c -> samePosition (GameRules.onRank a r) q = true ->
  samePosition (GameRules.onRank c r) q = false.
Proof.
  intros N E. apply samePosition_eq in E. subst q.
  apply samePosition_false. unfold GameRules.onRank. congruence.
Qed.

Lemma applyCastling_lookup (b : Board) (king : Piece) (side : CastlingSide) :
  wellFormed b -> Board.getPiece b (position king) = Some king -> ptype king = King ->
  castlingTest side king b = true ->
  exists rook,
    Board.getPiece b (rookCorner side (position king)) = Some rook
    /\ ptype rook = Rook /\ hasMoved rook = false
    /\ position king <> rookCorner side (position king)
    /\ position king <> rookDestination side (position king)
    /\ forall q,
        Board.getPiece (GameState.applyCastling b (castlingMove side king)) q
        = if samePosition (rookDestination side (position king)) q
          then Some (Piece.moveTo rook (rookDestination side (position king)))
          else if samePosition (rookCorner side (position king)) q then None
          else if samePosition (to (castlingMove side king)) q
               then Some (Piece.moveTo king (to (castlingMove side king)))
               else if samePosition (position king) q then None
                    else Board.getPiece b q.
Proof.
  intros W G K C.
  destruct (castlingTest_facts _ _ _ C) as (rook & Gr & Tr & Hr & Dk & Dr).
  assert (Nc : position king <> rookCorner side (position king)).
  { intros E. rewrite <- E in Gr. congruence. }
  assert (Nd : position king <> rookDestination side (position king)).
  { intros E. rewrite <- E in Dr. congruence. }
  exists rook. repeat (split; [assumption|]). intros q.
  set (b1 := Board.setPiece (Board.removePiece b (position king))
                            (Piece.moveTo king (to (castlingMove side king)))).
  assert (W1 : wellFormed b1) by now apply setPiece_wellFormed, removePiece_wellFormed.
  assert (L1 : Board.getPiece b1 (rookCorner side (position king)) = Some rook).
  { unfold b1. rewrite lookup_setPiece, lookup_removePiece by assumption.
    cbn [position Piece.moveTo].
    rewrite (samePosition_false (position king)) by assumption.
    destruct side; exact Gr. }
  unfold rookCorner in L1.
  unfold GameState.applyCastling.
  change (Board.setPiece (Board.removePiece b (from (castlingMove side king)))
            (Piece.moveTo (piece (castlingMove side king)) (to (castlingMove side king))))
    with b1.
  destruct side; cbn [specialMove castlingMove castlingTag SpecialMoveType_eqb from];
    cbn [rookFile] in L1; rewrite L1;
    rewrite lookup_setPiece, lookup_removePiece by assumption;
    cbn [position Piece.moveTo]; unfold b1;
    rewrite lookup_setPiece, lookup_removePiece by assumption;
    reflexivity.
Qed.

Lemma applyToBoard_wellFormed (s : GameState) (m : Move) (b' : Board) :
  GameState.applyToBoard s m = Returns b' -> wellFormed b'.
Proof.
  unfold GameState.applyToBoard.
  pose proof (clone_wellFormed (board s)) as W.
  destruct (Move.isCastling m).
  - intros [= <-]. unfold GameState.applyCastling.
    assert (W1 : wellFormed (Board.setPiece (Board.removePiece (Board.clone (board s)) (from m))
                                            (Piece.moveTo (piece m) (to m))))
      by now apply setPiece_wellFormed, removePiece_wellFormed.
    destruct (SpecialMoveType_eqb _ CastleKingside);
      [|destruct (SpecialMoveType_eqb _ CastleQueenside)];
      try destruct (Board.getPiece _ _); try assumption;
      now apply setPiece_wellFormed, removePiece_wellFormed.
  - destruct (Move.isEnPassant m).
    + intros [= <-]. unfold GameState.applyEnPassant.
      destruct (capturedPiece m); [apply removePiece_wellFormed|];
        now apply setPiece_wellFormed, removePiece_wellFormed.
    + destruct (Move.isPromotion m).
      * unfold GameState.applyPromotion.
        assert (W1 : wellFormed
                       match capturedPiece m with
                       | Some captured =>
                           Board.removePiece
                             (Board.removePiece (Board.clone (board s)) (from m))
                             (position captured)
                       | None => Board.removePiece (Board.clone (board s)) (from m)
                       end)
          by (destruct (capturedPiece m); repeat apply removePiece_wellFormed; assumption).
        destruct (promotionType m); [|now intros [= <-]].
        destruct (Piece.promote _ _); [|discriminate].
        intros [= <-]. now apply setPiece_wellFormed.
      * intros [= <-]. unfold GameRules.applyMove. apply setPiece_wellFormed.
        destruct (capturedPiece m); repeat apply removePiece_wellFormed; assumption.
Qed.

(** What a successful [makeMove] has done to a well-formed board, square
    by square. *)
Lemma makeMove_cases (s : GameState) (f t : Position) (promo : option PieceType)
      (r : MoveResult) :
  wellFormed (board s) ->
  GameState.makeMove s f t promo = Returns r -> success r = true ->
  exists p m s',
    Board.getPiece (board s) f = Some p /\ color p = currentTurn s
    /\ move r = Some m /\ newState r = Some s'
    /\ GameState.applyMove s m = Returns s'
    /\ from m = f /\ to m = t /\ piece m = p /\ t <> f
    /\ ((castlingSideOf m = None
         /\ (forall q,
                Board.getPiece (board s') q
                = if samePosition t q then Some (arrived m)
                  else match capturedPiece m with
                       | Some c => if samePosition (position c) q then None
                                   else if samePosition f q then None
                                        else Board.getPiece (board s) q
                       | None => if samePosition f q then None
                                 else Board.getPiece (board s) q
                       end)
         /\ ((specialMove m <> EnPassant
              /\ capturedPiece m = Board.getPiece (board s) t
              /\ In t (PieceRules.getPossibleMoves p (board s)))
             \/ (specialMove m <> SpecialNone
                 /\ ptype p = Pawn /\ enPassantTarget s = Some t
                 /\ exists c, capturedPiece m = Some c /\ ptype c = Pawn
                              /\ position c = beside f t
                              /\ Board.getPiece (board s) (position c) = Some c
                              /\ position c <> t /\ position c <> f
                              /\ Js.eqb (Js.add (rank f) (PieceRules.direction (color p)))
                                        (rank t) = true)))
        \/ (exists side, m = castlingMove side p /\ ptype p = King
                         /\ castlingTest side p (board s) = true
                         /\ board s' = GameState.applyCastling (board s) m)).
Proof.
  intros W H S.
  destruct (makeMove_inv _ _ _ _ _ H S)
    as (p & found & m & b' & s' & G & C & Fin & Ft & K & AB & A & Bs & Mr & Nr).
  destruct (legal_move_cases _ _ _ _ _ W G Fin) as (Ff & Pf & Prf & Ntf & Cases).
  exists p, m, s'.
  repeat (split; [assumption|]).
  assert (Fm : from m = f) by (destruct K as [[_ ->] | [_ (pt & _ & ->)]]; trivial).
  assert (Tm : to m = t) by (destruct K as [[_ ->] | [_ (pt & _ & ->)]]; trivial).
  assert (Pm : piece m = p) by (destruct K as [[_ ->] | [_ (pt & _ & ->)]]; trivial).
  split; [assumption|]. split; [assumption|]. split; [assumption|].
  split; [congruence|].
  unfold GameState.applyToBoard in AB. rewrite (clone_eq _ W) in AB.
  subst b'.
  destruct K as [[B ->] | [B (pt & -> & ->)]].
  - (* the move found is played as it is *)
    destruct Cases as [(Sp & Cp & I) | [(side & -> & Kg & CT) | (Sp & Pw & Ep & c & Cc & Tc & Pc & Gc & N1 & N2 & Rk)]].
    + left. unfold Move.isCastling, Move.isEnPassant, Move.isPromotion in AB.
      rewrite Sp in AB. simpl in AB. injection AB as AB. rewrite <- AB.
      split; [unfold castlingSideOf; now rewrite Sp|].
      split.
      * intros q. rewrite applyMove_lookup by assumption.
        unfold arrived. rewrite Prf, Ft, Ff, Pf. reflexivity.
      * left. split; [congruence|]. split; congruence.
    + right. exists side.
      unfold Move.isCastling in AB.
      assert (E : SpecialMoveType_eqb (specialMove (castlingMove side p)) CastleKingside
                  || SpecialMoveType_eqb (specialMove (castlingMove side p)) CastleQueenside
                  = true) by now destruct side.
      rewrite E in AB. injection AB as AB. now rewrite <- AB.
    + left. unfold Move.isCastling, Move.isEnPassant in AB.
      rewrite Sp in AB. simpl in AB. injection AB as AB. rewrite <- AB.
      split; [unfold castlingSideOf; now rewrite Sp|].
      split.
      * intros q. rewrite applyEnPassant_lookup by assumption.
        unfold arrived. rewrite Prf, Cc, Ft, Ff, Pf.
        destruct (samePosition t q) eqn:E; [|reflexivity].
        apply samePosition_eq in E. subst q.
        rewrite (samePosition_false (position c) t) by congruence. reflexivity.
      * right. split; [congruence|]. split; [assumption|].
        split; [congruence|]. exists c.
        rewrite <- Ft. repeat (split; [congruence|]). assumption.
  - (* the move found is replaced by a promotion *)
    pose proof (isBackRank_pawn _ _ B) as Pw.
    left. unfold Move.isCastling, Move.isEnPassant, Move.isPromotion in AB.
    simpl in AB.
    split; [reflexivity|].
    split.
    + intros q.
      pose proof (fun E => applyPromotion_lookup _ _ _ pt q W E AB) as L.
      rewrite L by reflexivity. reflexivity.
    + destruct Cases as [(Sp & Cp & I) | [(side & -> & Kg & CT) | (Sp & _ & Ep & c & Cc & Tc & Pc & Gc & N1 & N2 & Rk)]].
      * left. simpl. split; [discriminate|]. split; congruence.
      * congruence.
      * right. simpl. split; [discriminate|]. split; [assumption|].
        split; [congruence|]. exists c.
        rewrite <- Ft. repeat (split; [congruence|]). assumption.
Qed.

Lemma move_success (s : GameState) (f t : Position) (promo : option PieceType)
      (r : MoveResult) (m : Move) :
  GameState.makeMove s f t promo = Returns r -> move r = Some m -> success r = true.
Proof.
  unfold GameState.makeMove. intros H M.
  destruct (Board.getPiece (board s) f) as [p|]; [|injection H as <-; discriminate].
  destruct (negb _); [injection H as <-; discriminate|].
  destruct (find _ _) as [found|]; [|injection H as <-; discriminate].
  destruct (if GameState.isBackRank p t then _ else _);
    [|injection H as <-; discriminate].
  destruct (GameState.applyMove s _); [|discriminate].
  now injection H as <-.
Qed.

(** The common part of the theorems below: the move and the state of a
    result are those of [makeMove_cases]. *)
Lemma makeMove_cases_of (s : GameState) (f t : Position) (promo : option PieceType)
      (r : MoveResult) (m : Move) (s' : GameState) :
  wellFormed (board s) ->
  GameState.makeMove s f t promo = Returns r ->
  move r = Some m -> newState r = Some s' ->
  Board.getPiece (board s) f = Some (piece m) /\ color (piece m) = currentTurn s
  /\ GameState.applyMove s m = Returns s'
  /\ from m = f /\ to m = t /\ t <> f
  /\ ((castlingSideOf m = None
       /\ (forall q,
              Board.getPiece (board s') q
              = if samePosition t q then Some (arrived m)
                else match capturedPiece m with
                     | Some c => if samePosition (position c) q then None
                                 else if samePosition f q then None
                                      else Board.getPiece (board s) q
                     | None => if samePosition f q then None
                               else Board.getPiece (board s) q
                     end)
       /\ ((specialMove m <> EnPassant
            /\ capturedPiece m = Board.getPiece (board s) t
            /\ In t (PieceRules.getPossibleMoves (piece m) (board s)))
           \/ (specialMove m <> SpecialNone
               /\ ptype (piece m) = Pawn /\ enPassantTarget s = Some t
               /\ exists c, capturedPiece m = Some c /\ ptype c = Pawn
                            /\ position c = beside f t
                            /\ Board.getPiece (board s) (position c) = Some c
                            /\ position c <> t /\ position c <> f
                            /\ Js.eqb (Js.add (rank f)
                                              (PieceRules.direction (color (piece m))))
                                      (rank t) = true)))
      \/ (exists side, m = castlingMove side (piece m) /\ ptype (piece m) = King
                       /\ castlingTest side (piece m) (board s) = true
                       /\ board s' = GameState.applyCastling (board s) m)).
Proof.
  intros W H M N. pose proof (move_success _ _ _ _ _ _ H M) as S.
  destruct (makeMove_cases _ _ _ _ _ W H S)
    as (p & m0 & s0 & G & C & M0 & N0 & A & Fm & Tm & Pm & Ne & Cases).
  assert (m0 = m) by congruence. assert (s0 = s') by congruence. subst m0 s0 p.
  repeat (split; [assumption|]). exact Cases.
Qed.

(** X12.  After a successful [makeMove] on a well-formed
    board the move played leads from the requested source square to the
    requested destination; it carries the requested promotion type exactly
    when a pawn reaches its last rank; the piece that stood on the source
    now stands on the destination (of the promotion type if the move
    promotes, and marked as moved), the source square is empty, and the
    new board is well-formed again. *)
Theorem makeMove_moves_piece (s : GameState) (f t : Position)
        (promo : option PieceType) (r : MoveResult) (m : Move) (s' : GameState) :
  wellFormed (board s) ->
  GameState.makeMove s f t promo = Returns r ->
  move r = Some m -> newState r = Some s' ->
  from m = f /\ to m = t /\ t <> f
  /\ Board.getPiece (board s) f = Some (piece m)
  /\ promotionType m = (if GameState.isBackRank (piece m) t then promo else None)
  /\ Board.getPiece (board s') t = Some (arrived m)
  /\ Board.getPiece (board s') f = None
  /\ wellFormed (board s').
Proof.
  intros W H M N.
  destruct (makeMove_cases_of _ _ _ _ _ _ _ W H M N)
    as (G & C & A & Fm & Tm & Ne & Cases).
  repeat (split; [assumption|]).
  pose proof (move_success _ _ _ _ _ _ H M) as S.
  destruct (makeMove_inv _ _ _ _ _ H S)
    as (p & found & m0 & b' & s0 & G0 & _ & Fin & _ & Kd & AB & _ & Bd & M0 & N0).
  assert (m0 = m) by congruence. assert (s0 = s') by congruence. subst m0 s0.
  assert (p = piece m) by congruence. subst p.
  split.
  { destruct (getLegalMoves_shape _ _ _ _ Fin) as (_ & _ & Pr & _).
    destruct Kd as [[B E] | [B (pt & -> & E)]]; rewrite B.
    - now rewrite E.
    - rewrite E. reflexivity. }
  assert (W' : wellFormed (board s')).
  { rewrite Bd. exact (applyToBoard_wellFormed _ _ _ AB). }
  clear Fin Kd AB Bd M0 N0 G0 found b'.
  destruct Cases as [(_ & L & _) | (side & Em & K & CT & Bs)].
  - split; [|split; [|assumption]].
    + rewrite L, samePosition_refl. reflexivity.
    + rewrite L, (samePosition_false t f) by assumption.
      destruct (capturedPiece m) as [c|].
      * destruct (samePosition (position c) f); [reflexivity|].
        now rewrite samePosition_refl.
      * now rewrite samePosition_refl.
  - pose proof (located _ _ _ W G) as P.
    rewrite <- P in G.
    destruct (applyCastling_lookup _ _ side W G K CT)
      as (rook & Gr & Tr & Hr & Nc & Nd & L).
    rewrite <- Em in L. rewrite <- Bs in L. rewrite Tm, P in L.
    assert (Dt : rookDestination side f <> t).
    { rewrite <- Tm, Em. simpl. unfold rookDestination, GameRules.onRank.
      destruct side; simpl; congruence. }
    assert (Ct : rookCorner side f <> t).
    { rewrite <- Tm, Em. simpl. unfold rookCorner, GameRules.onRank.
      destruct side; simpl; congruence. }
    rewrite P in Nc, Nd.
    split; [|split; [|assumption]].
    + rewrite L, (samePosition_false _ t Dt), (samePosition_false _ t Ct),
        samePosition_refl.
      assert (Pr : promotionType m = None) by (rewrite Em; reflexivity).
      unfold arrived. rewrite Pr, Tm. reflexivity.
    + rewrite L.
      rewrite (samePosition_false (rookDestination side f) f) by congruence.
      rewrite (samePosition_false (rookCorner side f) f) by congruence.
      rewrite (samePosition_false t f) by assumption.
      now rewrite samePosition_refl.
Qed.

Lemma makeMove_moves_piece_witness :
  from (playedMove (played promotionPosition a7 a8 (Some Queen))) = a7
  /\ to (playedMove (played promotionPosition a7 a8 (Some Queen))) = a8
  /\ a8 <> a7
  /\ Board.getPiece (board promotionPosition) a7
     = Some (piece (playedMove (played promotionPosition a7 a8 (Some Queen))))
  /\ promotionType (playedMove (played promotionPosition a7 a8 (Some Queen)))
     = (if GameState.isBackRank
             (piece (playedMove (played promotionPosition a7 a8 (Some Queen)))) a8
        then Some Queen else None)
  /\ Board.getPiece
       (board (playedState promotionPosition (played promotionPosition a7 a8 (Some Queen))))
       a8
     = Some (arrived (playedMove (played promotionPosition a7 a8 (Some Queen))))
  /\ Board.getPiece
       (board (playedState promotionPosition (played promotionPosition a7 a8 (Some Queen))))
       a7 = None
  /\ wellFormed
       (board (playedState promotionPosition (played promotionPosition a7 a8 (Some Queen)))).
Proof.
  apply (makeMove_moves_piece promotionPosition a7 a8 (Some Queen)
                              (played promotionPosition a7 a8 (Some Queen))).
  - apply create_wellFormed.
  - vm_compute. reflexivity.
  - vm_compute. reflexivity.
  - vm_compute. reflexivity.
Defined.

(** X13.  A successful [makeMove] changes at most the source square,
    the destination, the square of the captured piece and, when castling,
    the two squares of the rook; every other square holds what it held. *)
Theorem makeMove_frame (s : GameState) (f t : Position)
        (promo : option PieceType) (r : MoveResult) (m : Move) (s' : GameState)
        (q : Position) :
  wellFormed (board s) ->
  GameState.makeMove s f t promo = Returns r ->
  move r = Some m -> newState r = Some s' ->
  q <> f -> q <> t ->
  (forall c, capturedPiece m = Some c -> q <> position c) ->
  (forall side, castlingSideOf m = Some side ->
                q <> rookCorner side f /\ q <> rookDestination side f) ->
  Board.getPiece (board s') q = Board.getPiece (board s) q.
Proof.
  intros W H M N Nf Nt Nc Nr.
  destruct (makeMove_cases_of _ _ _ _ _ _ _ W H M N)
    as (G & C & A & Fm & Tm & Ne & Cases).
  destruct Cases as [(_ & L & _) | (side & Em & K & CT & Bs)].
  - rewrite L, (samePosition_false t q), (samePosition_false f q) by congruence.
    destruct (capturedPiece m) as [c|]; [|reflexivity].
    rewrite (samePosition_false (position c) q); [reflexivity|].
    intros E. now apply (Nc c).
  - pose proof (located _ _ _ W G) as P. rewrite <- P in G.
    destruct (applyCastling_lookup _ _ side W G K CT) as (rook & _ & _ & _ & _ & _ & L).
    rewrite <- Em in L. rewrite <- Bs in L. rewrite Tm, P in L.
    assert (Sd : castlingSideOf m = Some side)
      by (rewrite Em; now destruct side).
    destruct (Nr side Sd) as [N1 N2].
    rewrite L, (samePosition_false (rookDestination side f) q),
      (samePosition_false (rookCorner side f) q),
      (samePosition_false t q), (samePosition_false f q) by congruence.
    reflexivity.
Qed.

Lemma makeMove_frame_witness :
  Board.getPiece (board (playedState GameState.createStandard openingResult)) e5
  = Board.getPiece (board GameState.createStandard) e5.
Proof.
  apply (makeMove_frame GameState.createStandard e2 e4 None openingResult
                        (playedMove openingResult)).
  - apply create_wellFormed.
  - vm_compute. reflexivity.
  - vm_compute. reflexivity.
  - vm_compute. reflexivity.
  - discriminate.
  - discriminate.
  - intros c E. vm_compute in E. discriminate.
  - intros side E. vm_compute in E. discriminate.
Defined.

(** X14.  The piece a played move records as captured stood on the
    board; it stood either on the destination and was of the other colour,
    or, for a pawn moving onto the en-passant target, beside the pawn on
    the destination's file and was a pawn.  After the move it is gone from
    its square.  A move that records no capture went to an empty square. *)
Theorem makeMove_capture (s : GameState) (f t : Position)
        (promo : option PieceType) (r : MoveResult) (m : Move) (s' : GameState) :
  wellFormed (board s) ->
  GameState.makeMove s f t promo = Returns r ->
  move r = Some m -> newState r = Some s' ->
  (forall c, capturedPiece m = Some c ->
             Board.getPiece (board s) (position c) = Some c
             /\ Board.getPiece (board s') (position c) <> Some c
             /\ ((position c = t /\ color c <> color (piece m))
                 \/ (position c = beside f t /\ ptype c = Pawn
                     /\ ptype (piece m) = Pawn /\ enPassantTarget s = Some t)))
  /\ (capturedPiece m = None -> Board.getPiece (board s) t = None).
Proof.
  intros W H M N.
  destruct (makeMove_cases_of _ _ _ _ _ _ _ W H M N)
    as (G & C & A & Fm & Tm & Ne & Cases).
  destruct Cases as [(_ & L & [(Sp & Cp & I) | (Sp & Pw & Ep & c & Cc & Tc & Pc & Gc & N1 & N2 & Rk)])
                    | (side & Em & K & CT & Bs)].
  - split.
    + intros c Cc. rewrite Cc in Cp. symmetry in Cp.
      pose proof (located _ _ _ W Cp) as Pc. rewrite Pc.
      split; [assumption|]. split.
      * rewrite L, samePosition_refl. intros [= E].
        apply getPossibleMoves_In in I. destruct I as [_ No].
        apply (No c Cp). rewrite <- E. reflexivity.
      * left. split; [reflexivity|].
        apply getPossibleMoves_In in I. destruct I as [_ No]. now apply No.
    + intros E. now rewrite <- Cp.
  - split; [|congruence].
    intros c' Cc'. assert (c' = c) by congruence. subst c'.
    split; [assumption|]. split.
    + rewrite L, (samePosition_false t (position c)) by congruence.
      rewrite Cc, samePosition_refl. discriminate.
    + right. repeat split; assumption.
  - split.
    + intros c Cc. rewrite Em in Cc. discriminate.
    + intros _. destruct (castlingTest_facts _ _ _ CT) as (_ & _ & _ & _ & D & _).
      rewrite <- Tm, Em. exact D.
Qed.

Lemma makeMove_capture_witness :
  (forall c, capturedPiece (playedMove (played enPassantGame e5 d6 None)) = Some c ->
             Board.getPiece (board enPassantGame) (position c) = Some c
             /\ Board.getPiece
                  (board (playedState enPassantGame (played enPassantGame e5 d6 None)))
                  (position c) <> Some c
             /\ ((position c = d6
                  /\ color c <> color (piece (playedMove (played enPassantGame e5 d6 None))))
                 \/ (position c = beside e5 d6 /\ ptype c = Pawn
                     /\ ptype (piece (playedMove (played enPassantGame e5 d6 None))) = Pawn
                     /\ enPassantTarget enPassantGame = Some d6)))
  /\ (capturedPiece (playedMove (played enPassantGame e5 d6 None)) = None ->
      Board.getPiece (board enPassantGame) d6 = None).
Proof.
  apply (makeMove_capture enPassantGame e5 d6 None (played enPassantGame e5 d6 None)).
  - apply create_wellFormed.
  - vm_compute. reflexivity.
  - vm_compute. reflexivity.
  - vm_compute. reflexivity.
Defined.

(** X15.  A played move tagged as castling is a move of a king
    to file 6 (kingside) or file 2 (queenside) of its rank; the rook that
    stood in the corner of that rank (file 7 or file 0) has left the
    corner and stands on file 5 or file 3, marked as moved. *)
Theorem makeMove_castling_moves_rook (s : GameState) (f t : Position)
        (promo : option PieceType) (r : MoveResult) (m : Move) (s' : GameState)
        (side : CastlingSide) :
  wellFormed (board s) ->
  GameState.makeMove s f t promo = Returns r ->
  move r = Some m -> newState r = Some s' ->
  castlingSideOf m = Some side ->
  ptype (piece m) = King
  /\ t = GameRules.onRank (destinationFile side) (rank f)
  /\ exists rook,
      Board.getPiece (board s) (rookCorner side f) = Some rook
      /\ ptype rook = Rook
      /\ Board.getPiece (board s') (rookCorner side f) = None
      /\ Board.getPiece (board s') (rookDestination side f)
         = Some (Piece.moveTo rook (rookDestination side f)).
Proof.
  intros W H M N Sd.
  destruct (makeMove_cases_of _ _ _ _ _ _ _ W H M N)
    as (G & C & A & Fm & Tm & Ne & Cases).
  destruct Cases as [(Sn & _) | (side' & Em & K & CT & Bs)]; [congruence|].
  assert (side' = side).
  { unfold castlingSideOf in Sd. rewrite Em in Sd.
    destruct side', side; cbn in Sd; congruence. }
  subst side'.
  pose proof (located _ _ _ W G) as P. rewrite <- P in G.
  destruct (applyCastling_lookup _ _ side W G K CT) as (rook & Gr & Tr & _ & _ & _ & L).
  rewrite <- Em in L. rewrite <- Bs in L. rewrite P in Gr. rewrite Tm, P in L.
  split; [assumption|]. split.
  - rewrite <- Tm, Em. simpl. now rewrite P.
  - exists rook. split; [assumption|]. split; [assumption|]. split.
    + rewrite L. rewrite (samePosition_false (rookDestination side f)).
      * now rewrite samePosition_refl.
      * unfold rookDestination, rookCorner, GameRules.onRank.
        destruct side; simpl; congruence.
    + rewrite L. now rewrite samePosition_refl.
Qed.

Lemma makeMove_castling_moves_rook_witness :
  ptype (piece (playedMove (played castlingGame e1 g1 None))) = King
  /\ g1 = GameRules.onRank (destinationFile Kingside) (rank e1)
  /\ exists rook,
      Board.getPiece (board castlingGame) (rookCorner Kingside e1) = Some rook
      /\ ptype rook = Rook
      /\ Board.getPiece
           (board (playedState castlingGame (played castlingGame e1 g1 None)))
           (rookCorner Kingside e1) = None
      /\ Board.getPiece
           (board (playedState castlingGame (played castlingGame e1 g1 None)))
           (rookDestination Kingside e1)
         = Some (Piece.moveTo rook (rookDestination Kingside e1)).
Proof.
  apply (makeMove_castling_moves_rook castlingGame e1 g1 None
                                      (played castlingGame e1 g1 None)
                                      (playedMove (played castlingGame e1 g1 None))).
  - apply create_wellFormed.
  - vm_compute. reflexivity.
  - vm_compute. reflexivity.
  - vm_compute. reflexivity.
  - vm_compute. reflexivity.
Defined.

Lemma half_of_double (ra d : Z) : Z.quot (ra + (ra + 2 * d)) 2 = ra + d.
Proof.
  replace (ra + (ra + 2 * d)) with ((ra + d) * 2) by lia.
  apply Z.quot_mul. discriminate.
Qed.

(** The target that a move leaves behind comes from a pawn's double
    step, and the square passed over is empty. *)
Lemma double_step_target (s : GameState) (f t : Position)
      (promo : option PieceType) (r : MoveResult) (m : Move) (s' : GameState)
      (e : Position) :
  wellFormed (board s) ->
  GameState.makeMove s f t promo = Returns r ->
  move r = Some m -> newState r = Some s' ->
  enPassantTarget s' = Some e ->
  doubleStep (piece m) f t e /\ Board.getPiece (board s') e = None.
Proof.
  intros W H M N.
  destruct (makeMove_cases_of _ _ _ _ _ _ _ W H M N)
    as (G & C & A & Fm & Tm & Ne & Cases).
  destruct (applyMove_fields _ _ _ A) as (_ & _ & _ & _ & Ep & _).
  rewrite Fm, Tm in Ep.
  pose proof (located _ _ _ W G) as P.
  intros E. rewrite E in Ep.
  destruct (PieceType_eqb (ptype (piece m)) Pawn) eqn:Pw; [|discriminate].
  apply PieceType_eqb_eq in Pw.
  destruct (Js.eqb _ _) eqn:D in Ep; [|discriminate].
  simpl in Ep. injection Ep as Ep.
  destruct Cases as [(_ & L & [(Sp & Cp & I) | (Sp & _ & _ & c & _ & _ & _ & _ & _ & _ & Rk)])
                    | (side & Em & K & CT & Bs)].
  - unfold PieceRules.getPossibleMoves in I. rewrite Pw in I.
    apply pawnMoves_In in I. destruct I as (fi & ra & Pp & V & Shape).
    rewrite P in Pp. cbv zeta in Shape.
    destruct Shape as [[Et Gt] | [(Et & Hr & Ge & Gt) | [Et _]]].
    + exfalso. rewrite Pp, Et in D. simpl in D. apply Z.eqb_eq in D.
      destruct (color (piece m)); simpl in D; lia.
    + assert (Ee : e = Board.pos fi (ra + forward (color (piece m)))).
      { rewrite Ep, Pp, Et. unfold Board.pos. cbn -[Z.mul Z.add Z.quot].
        now rewrite half_of_double. }
      split.
      * split; [assumption|]. exists fi, ra. repeat split; assumption.
      * rewrite L. rewrite Cp, Gt.
        destruct (samePosition t e) eqn:Ste; [|destruct (samePosition f e)];
          try reflexivity.
        -- exfalso. apply samePosition_eq in Ste. rewrite Et, Ee in Ste.
           injection Ste as Ste. destruct (color (piece m)); cbn in Ste; lia.
        -- now rewrite Ee.
    + exfalso. rewrite Pp in D.
      destruct Et as [Et | Et]; rewrite Et in D; simpl in D; apply Z.eqb_eq in D;
        destruct (color (piece m)); simpl in D; lia.
  - exfalso. destruct (rank f) as [x|]; [|discriminate].
    destruct (rank t) as [y|];
      [|unfold PieceRules.direction in Rk; destruct (Color_eqb _ _); discriminate].
    unfold PieceRules.direction in Rk. simpl in D. apply Z.eqb_eq in D.
    destruct (Color_eqb _ _); simpl in Rk; apply Z.eqb_eq in Rk; lia.
  - congruence.
Qed.

(** X16.  After a successful [makeMove] the new state
    has an en-passant target exactly when the move was a pawn's double
    step from its home rank; the target is the square the pawn passed
    over, and that square is empty. *)
Theorem makeMove_sets_en_passant_target (s : GameState) (f t : Position)
        (promo : option PieceType) (r : MoveResult) (m : Move) (s' : GameState)
        (e : Position) :
  wellFormed (board s) ->
  GameState.makeMove s f t promo = Returns r ->
  move r = Some m -> newState r = Some s' ->
  (enPassantTarget s' = Some e <-> doubleStep (piece m) f t e)
  /\ (enPassantTarget s' = Some e -> Board.getPiece (board s') e = None).
Proof.
  intros W H M N.
  split; [split|].
  - intros E. now apply (double_step_target s f t promo r m s' e).
  - intros (Pw & fi & ra & Ef & Hr & Et & Ee).
    destruct (makeMove_cases_of _ _ _ _ _ _ _ W H M N) as (_ & _ & A & Fm & Tm & _).
    destruct (applyMove_fields _ _ _ A) as (_ & _ & _ & _ & Ep & _).
    rewrite Fm, Tm in Ep. rewrite Ep, Pw, Ef, Et, Ee.
    unfold Board.pos. cbn -[Z.mul Z.add Z.quot Z.sub Z.abs Z.eqb].
    rewrite half_of_double.
    replace (Z.abs (ra + 2 * forward (color (piece m)) - ra) =? 2) with true
      by (symmetry; apply Z.eqb_eq; destruct (color (piece m)); simpl; lia).
    reflexivity.
  - intros E. now apply (double_step_target s f t promo r m s' e).
Qed.

Lemma makeMove_sets_en_passant_target_witness :
  (enPassantTarget (playedState GameState.createStandard openingResult)
   = Some (Board.pos 4 2)
   <-> doubleStep (piece (playedMove openingResult)) e2 e4 (Board.pos 4 2))
  /\ (enPassantTarget (playedState GameState.createStandard openingResult)
      = Some (Board.pos 4 2) ->
      Board.getPiece (board (playedState GameState.createStandard openingResult))
                     (Board.pos 4 2) = None).
Proof.
  apply (makeMove_sets_en_passant_target GameState.createStandard e2 e4 None
                                         openingResult).
  - apply create_wellFormed.
  - vm_compute. reflexivity.
  - vm_compute. reflexivity.
  - vm_compute. reflexivity.
Defined.

Lemma getPiece_In (b : Board) (q : Position) (p : Piece) :
  Board.getPiece b q = Some p -> In p (Board.getAllPieces b).
Proof.
  intros G. apply get_In in G. unfold Board.getAllPieces, JsMap.values.
  apply in_map_iff. now exists (Board.getPositionKey q, p).
Qed.

Lemma equals_refl_valid (p : Position) :
  PositionUtils.isValid p = true -> PositionUtils.equals p p = true.
Proof.
  intros V. destruct (valid_cases _ V) as (f & r & E & _).
  destruct p as [[x|] [y|]]; try discriminate.
  unfold PositionUtils.equals. simpl. now rewrite !Z.eqb_refl.
Qed.

Lemma equals_refl_int (f r : Z) :
  PositionUtils.equals (Board.pos f r) (Board.pos f r) = true.
Proof. unfold PositionUtils.equals. simpl. now rewrite !Z.eqb_refl. Qed.

Lemma eqb_int (a b : number) : Js.eqb a b = true -> exists z, b = Int z.
Proof. destruct a, b; try discriminate. intros _. now eexists. Qed.

Lemma legal_destination_defined (b : Board) (p : Piece) (ep : option Position) (m : Move) :
  PositionUtils.isValid (position p) = true ->
  In m (GameRules.getLegalMoves p b ep) ->
  PositionUtils.equals (to m) (to m) = true.
Proof.
  intros V H.
  destruct (getLegalMoves_cases _ _ _ _ H)
    as [(tp & I & E & _) | [(side & E & _) | (target & c' & _ & _ & E & _ & _ & _ & R & Fi)]];
    rewrite E; cbn [to Move.create castlingMove].
  - apply getPossibleMoves_In in I. destruct I as [Vt _]. now apply equals_refl_valid.
  - destruct (valid_cases _ V) as (f & r & E' & _). rewrite E'.
    apply (equals_refl_int (destinationFile side) r).
  - destruct (eqb_int _ _ R) as (y & Ey).
    assert (Ex : exists x, file target = Int x)
      by (destruct Fi as [Fi | Fi]; exact (eqb_int _ _ Fi)).
    destruct Ex as (x & Ex). destruct target as [tf tr]. simpl in Ex, Ey. subst tf tr.
    apply equals_refl_int.
Qed.

(** A legal move of the side to move is a request that [makeMove]
    accepts. *)
Lemma legal_move_accepted (s : GameState) (m : Move) (promo : option PieceType) :
  wellFormed (board s) ->
  In m (GameState.getLegalMoves s) ->
  PositionUtils.isValid (from m) = true ->
  (GameState.isBackRank (piece m) (to m) = true ->
   exists pt, promo = Some pt /\ pt <> Pawn /\ pt <> King) ->
  Board.getPiece (board s) (from m) = Some (piece m)
  /\ accepted s (from m) (to m) promo.
Proof.
  intros W H V B. unfold GameState.getLegalMoves, GameRules.getAllLegalMoves in H.
  apply in_flat_map in H. destruct H as (p & Hp & Hm).
  unfold Board.getPiecesByColor in Hp. apply filter_In in Hp.
  destruct Hp as [Hp Cp]. apply Color_eqb_eq in Cp.
  destruct (wellFormed_squares _ W) as (_ & _ & Sq).
  pose proof (Sq _ Hp) as G.
  destruct (getLegalMoves_shape _ _ _ _ Hm) as (Pm & Fm & _ & _).
  rewrite Fm in V. rewrite Fm, Pm. split; [assumption|].
  exists p. split; [assumption|]. split; [assumption|]. split.
  - exists m. split; [assumption|]. unfold GameState.arrivesAt.
    now apply (legal_destination_defined (board s) p (enPassantTarget s)).
  - now rewrite <- Pm.
Qed.

(** X17.  Every legal move of the side to move whose piece
    stands on a square of the board is accepted by [makeMove] when it is
    requested by its source and destination (with a promotion type other
    than Pawn and King where a pawn reaches its last rank); the move
    played has the same source, destination and piece. *)
Theorem legal_moves_are_accepted (s : GameState) (m : Move)
        (promo : option PieceType) :
  wellFormed (board s) ->
  In m (GameState.getLegalMoves s) ->
  PositionUtils.isValid (from m) = true ->
  (GameState.isBackRank (piece m) (to m) = true ->
   exists pt, promo = Some pt /\ pt <> Pawn /\ pt <> King) ->
  exists r m',
    GameState.makeMove s (from m) (to m) promo = Returns r
    /\ success r = true /\ move r = Some m'
    /\ from m' = from m /\ to m' = to m /\ piece m' = piece m.
Proof.
  intros W H V B.
  destruct (legal_move_accepted s m promo W H V B) as [G Acc].
  apply makeMove_succeeds_iff in Acc. destruct Acc as (r & R & S).
  destruct (makeMove_cases _ _ _ _ _ W R S)
    as (p' & m' & s' & G' & _ & M' & _ & _ & F' & T' & P' & _).
  exists r, m'. repeat (split; [assumption|]). congruence.
Qed.

Lemma legal_moves_are_accepted_witness :
  exists r m',
    GameState.makeMove GameState.createStandard
                       (from (playedMove openingResult)) (to (playedMove openingResult))
                       None = Returns r
    /\ success r = true /\ move r = Some m'
    /\ from m' = from (playedMove openingResult)
    /\ to m' = to (playedMove openingResult)
    /\ piece m' = piece (playedMove openingResult).
Proof.
  apply (legal_moves_are_accepted GameState.createStandard (playedMove openingResult) None).
  - apply create_wellFormed.
  - vm_compute. tauto.
  - vm_compute. reflexivity.
  - vm_compute. discriminate.
Defined.

Lemma no_legal_moves (b : Board) (c : Color) (ep : option Position) :
  GameRules.isCheckmate b c ep = true \/ GameRules.isStalemate b c ep = true ->
  GameRules.getAllLegalMoves b c ep = [].
Proof.
  unfold GameRules.isCheckmate, GameRules.isStalemate.
  intros [H | H]; destruct (GameRules.isInCheck b c); simpl in H; try discriminate;
    apply Nat.eqb_eq in H; now apply length_zero_iff_nil.
Qed.

(** X18.  On a position in which the side to move is checkmated or
    stalemated [makeMove] refuses every request: it returns (it does not
    throw) a result without success whose error is one of the three
    refusals. *)
Theorem no_move_after_mate (s : GameState) (f t : Position)
        (promo : option PieceType) :
  GameRules.isCheckmate (board s) (currentTurn s) (enPassantTarget s) = true
  \/ GameRules.isStalemate (board s) (currentTurn s) (enPassantTarget s) = true ->
  exists r msg,
    GameState.makeMove s f t promo = Returns r
    /\ success r = false /\ newState r = None
    /\ error r = Some msg /\ In msg refusals.
Proof.
  intros H. apply no_legal_moves in H.
  unfold GameState.makeMove.
  destruct (Board.getPiece (board s) f) as [p|] eqn:G.
  - destruct (negb (Color_eqb (color p) (currentTurn s))) eqn:C.
    + eexists. eexists. split; [reflexivity|]. simpl. repeat split. tauto.
    + apply negb_false_iff in C.
      assert (E : GameState.getLegalMovesForPiece s p = []).
      { unfold GameState.getLegalMovesForPiece. rewrite C. simpl.
        destruct (GameRules.getLegalMoves p (board s) (enPassantTarget s)) as [|m l] eqn:L;
          [reflexivity|].
        assert (I : In m (GameRules.getAllLegalMoves (board s) (currentTurn s)
                                                     (enPassantTarget s))).
        { unfold GameRules.getAllLegalMoves. apply in_flat_map. exists p. split.
          - unfold Board.getPiecesByColor. apply filter_In. split; [|assumption].
            now apply (getPiece_In _ f).
          - rewrite L. now left. }
        rewrite H in I. destruct I. }
      rewrite E. simpl.
      eexists. eexists. split; [reflexivity|]. simpl. repeat split. tauto.
  - eexists. eexists. split; [reflexivity|]. simpl. repeat split. tauto.
Qed.

Lemma no_move_after_mate_witness :
  exists r msg,
    GameState.makeMove matedGame (Board.pos 0 7) (Board.pos 1 6) None = Returns r
    /\ success r = false /\ newState r = None
    /\ error r = Some msg /\ In msg refusals.
Proof.
  apply (no_move_after_mate matedGame (Board.pos 0 7) (Board.pos 1 6) None).
  left. vm_compute. reflexivity.
Defined.

(** ** Writing and reading FEN *)

Lemma sapp_assoc (a b c : string) : ((a ++ b) ++ c = a ++ (b ++ c))%string.
Proof. induction a as [|x a IH]; simpl; [reflexivity | now rewrite IH]. Qed.

Lemma sapp_nil_r (a : string) : (a ++ EmptyString = a)%string.
Proof. induction a as [|x a IH]; simpl; [reflexivity | now rewrite IH]. Qed.

Lemma includes_app (a b : string) (c : ascii) :
  Js.includes (a ++ b) c = Js.includes a c || Js.includes b c.
Proof.
  induction a as [|x a IH]; simpl; [reflexivity|]. now rewrite IH, orb_assoc.
Qed.

Lemma small_count (n : Z) :
  1 <= n <= 8 -> n = 1 \/ n = 2 \/ n = 3 \/ n = 4 \/ n = 5 \/ n = 6 \/ n = 7 \/ n = 8.
Proof. lia. Qed.

Lemma toFENSquare_step (b : Board) (r f : Z) (x : string) (n : Z) :
  0 <= n ->
  Board.toFENSquare b (Int r) (x, Int n) f
  = match Board.getPiece b (Board.pos f r) with
    | Some p =>
        (((x ++ (if (0 <? n)%Z then Js.toString (Int n) else EmptyString))
          ++ fenLetter p)%string, Int 0)
    | None => (x, Int (n + 1))
    end.
Proof.
  intros Hn. unfold Board.toFENSquare, fenLetter, Board.pos, Js.gtb, Js.ltb.
  destruct (Board.getPiece b _) as [p|]; [|reflexivity].
  destruct (0 <? n) eqn:E; [reflexivity|].
  apply Z.ltb_ge in E. replace n with 0 by lia. now rewrite sapp_nil_r.
Qed.

(** The left fold of [toFEN] over the files of a rank writes [rowText]. *)
Lemma toFENSquare_fold (b : Board) (r : Z) (fs : list Z) (x : string) (n : Z) :
  0 <= n ->
  (let '(fen, emptyCount) :=
     fold_left (Board.toFENSquare b (Int r)) fs (x, Int n) in
   if Js.gtb emptyCount (Int 0) then fen ++ Js.toString emptyCount else fen)%string
  = (x ++ rowText (map (fun f => Board.getPiece b (Board.pos f r)) fs) n)%string.
Proof.
  revert x n. induction fs as [|f fs IH]; intros x n Hn.
  - simpl. destruct (0 <? n); [reflexivity | now rewrite sapp_nil_r].
  - cbn [fold_left map]. rewrite toFENSquare_step by assumption.
    destruct (Board.getPiece b (Board.pos f r)) as [p|].
    + cbn [rowText]. rewrite (IH _ 0) by lia. now rewrite !sapp_assoc.
    + cbn [rowText]. apply IH. lia.
Qed.

Lemma toFENRank_text (b : Board) (fen : string) (r : Z) :
  Board.toFENRank b fen r
  = (fen ++ rowText (cellsOf b r) 0%Z ++ (if (0 <? r)%Z then "/" else EmptyString))%string.
Proof.
  unfold Board.toFENRank.
  pose proof (toFENSquare_fold b r allFiles fen 0 (Z.le_refl 0)) as H.
  unfold allFiles in H. fold (cellsOf b r) in H.
  destruct (fold_left _ _ _) as [t c]. rewrite H.
  destruct (0 <? r); [now rewrite sapp_assoc | now rewrite sapp_nil_r].
Qed.

(** The text of a board: the eight ranks, from 8 down to 1, between
    slashes. *)
Lemma toFEN_text (b : Board) :
  Board.toFEN b
  = (rowText (cellsOf b 7) 0 ++ "/" ++ rowText (cellsOf b 6) 0 ++ "/"
     ++ rowText (cellsOf b 5) 0 ++ "/" ++ rowText (cellsOf b 4) 0 ++ "/"
     ++ rowText (cellsOf b 3) 0 ++ "/" ++ rowText (cellsOf b 2) 0 ++ "/"
     ++ rowText (cellsOf b 1) 0 ++ "/" ++ rowText (cellsOf b 0) 0)%string.
Proof.
  unfold Board.toFEN. cbn [fold_left]. rewrite !toFENRank_text.
  cbn [Z.ltb Z.compare]. cbn [append]. rewrite !sapp_assoc, sapp_nil_r. reflexivity.
Qed.

Lemma digit_text (n : Z) :
  1 <= n <= 8 ->
  Js.toString (Int n) = String (ascii_of_N (Z.to_N (48 + n))) EmptyString.
Proof.
  intros H. destruct (small_count n H) as [-> | [-> | [-> | [-> | [-> | [-> | [-> | ->]]]]]]];
    reflexivity.
Qed.

Lemma fenLetter_char (p : Piece) :
  exists ch,
    fenLetter p = String ch EmptyString
    /\ Ascii.eqb ch "/" = false
    /\ (Js.code "1" <=? Js.code ch) && (Js.code ch <=? Js.code "8") = false
    /\ Board.pieceTypeOfChar (Js.toUpperCase ch) = Some (ptype p)
    /\ (if Ascii.eqb ch (Js.toUpperCase ch) then White else Black) = color p.
Proof.
  unfold fenLetter, Piece.getNotation.
  destruct (ptype p), (color p); eexists; (split; [reflexivity|]);
    repeat split; reflexivity.
Qed.

Lemma rowText_slashFree (cells : list (option Piece)) (n : Z) :
  0 <= n -> n + Z.of_nat (List.length cells) <= 8 ->
  Js.includes (rowText cells n) "/" = false.
Proof.
  revert n. induction cells as [|[p|] cells IH]; intros n Hn Hl; cbn [rowText].
  - destruct (0 <? n) eqn:E; [|reflexivity].
    apply Z.ltb_lt in E. simpl in Hl.
    destruct (small_count n) as [-> | [-> | [-> | [-> | [-> | [-> | [-> | ->]]]]]]];
      [lia | reflexivity ..].
  - rewrite !includes_app. cbn [List.length] in Hl.
    rewrite IH by lia. rewrite orb_false_r.
    destruct (fenLetter_char p) as (ch & -> & S & _).
    cbn [Js.includes]. rewrite S. rewrite orb_false_r.
    destruct (0 <? n) eqn:E; [|reflexivity].
    apply Z.ltb_lt in E.
    destruct (small_count n) as [-> | [-> | [-> | [-> | [-> | [-> | [-> | ->]]]]]]];
      [lia | reflexivity ..].
  - cbn [List.length] in Hl. apply IH; lia.
Qed.

Lemma splitOn_last (sep : ascii) (x cur : string) :
  Js.includes x sep = false -> Js.splitOn sep x cur = [(cur ++ x)%string].
Proof.
  revert cur. induction x as [|c x IH]; intros cur H; simpl.
  - now rewrite sapp_nil_r.
  - simpl in H. apply orb_false_elim in H. destruct H as [H1 H2].
    rewrite H1, IH by assumption. now rewrite sapp_assoc.
Qed.

Lemma splitOn_next (sep : ascii) (x rest cur : string) :
  Js.includes x sep = false ->
  Js.splitOn sep (x ++ String sep rest) cur
  = (cur ++ x)%string :: Js.splitOn sep rest EmptyString.
Proof.
  revert cur. induction x as [|c x IH]; intros cur H; simpl.
  - now rewrite Ascii.eqb_refl, sapp_nil_r.
  - simpl in H. apply orb_false_elim in H. destruct H as [H1 H2].
    rewrite H1, IH by assumption. now rewrite sapp_assoc.
Qed.

Lemma cellsOf_length (b : Board) (r : Z) : List.length (cellsOf b r) = 8%nat.
Proof. reflexivity. Qed.

Lemma toFEN_split (b : Board) :
  Js.split (Board.toFEN b) "/" = map (fun r => rowText (cellsOf b r) 0) allRanks.
Proof.
  rewrite toFEN_text. unfold Js.split.
  assert (S : forall r, Js.includes (rowText (cellsOf b r) 0) "/" = false)
    by (intros r; apply rowText_slashFree; [lia | rewrite cellsOf_length; lia]).
  cbn [append]. rewrite !splitOn_next by apply S.
  rewrite splitOn_last by apply S. reflexivity.
Qed.

Lemma fenRow_digit (n : Z) (rest : string) (r : number) (rights : string) (f : Z)
      (acc : list Piece) :
  1 <= n <= 8 ->
  Board.fenRow (Js.toString (Int n) ++ rest) r rights (Int f) acc
  = Board.fenRow rest r rights (Int (f + n)) acc.
Proof.
  intros H. destruct (small_count n H) as [-> | [-> | [-> | [-> | [-> | [-> | [-> | ->]]]]]]];
    reflexivity.
Qed.

Lemma fenRow_letter (p : Piece) (rest : string) (r : Z) (rights : string) (f : Z)
      (acc : list Piece) :
  Board.fenRow (fenLetter p ++ rest) (Int r) rights (Int f) acc
  = Board.fenRow rest (Int r) rights (Int (f + 1)) (acc ++ [reread rights f r p]).
Proof.
  destruct (fenLetter_char p) as (ch & -> & _ & D & T & C).
  cbn [append Board.fenRow]. rewrite D, T, C. reflexivity.
Qed.

(** Reading back the text of a rank gives the pieces of its squares and
    advances the file by the number of squares. *)
Lemma fenRow_rowText (cells : list (option Piece)) (n : Z) (r : Z) (rights : string)
      (f : Z) (acc : list Piece) :
  0 <= n -> n + Z.of_nat (List.length cells) <= 8 ->
  Board.fenRow (rowText cells n) (Int r) rights (Int f) acc
  = Returns (acc ++ rowPieces rights r cells (f + n),
             Int (f + n + Z.of_nat (List.length cells))).
Proof.
  revert n f acc. induction cells as [|[p|] cells IH]; intros n f acc Hn Hl;
    cbn [rowText rowPieces List.length] in *.
  - rewrite app_nil_r. replace (f + n + Z.of_nat 0) with (f + n) by lia.
    destruct (0 <? n) eqn:E.
    + apply Z.ltb_lt in E.
      rewrite <- (sapp_nil_r (Js.toString (Int n))), fenRow_digit by lia.
      reflexivity.
    + apply Z.ltb_ge in E. replace n with 0 by lia. now rewrite Z.add_0_r.
  - replace (f + n + Z.of_nat (S (List.length cells)))
      with (f + n + 1 + Z.of_nat (List.length cells)) by lia.
    destruct (0 <? n) eqn:E.
    + apply Z.ltb_lt in E. rewrite fenRow_digit by lia.
      rewrite fenRow_letter, (IH 0) by lia.
      rewrite !Z.add_0_r. now rewrite <- app_assoc.
    + apply Z.ltb_ge in E. cbn [append].
      rewrite fenRow_letter, (IH 0) by lia.
      replace n with 0 by lia.
      rewrite !Z.add_0_r. now rewrite <- app_assoc.
  - rewrite IH by lia.
    replace (f + (n + 1)) with (f + n + 1) by lia.
    replace (f + n + Z.of_nat (S (List.length cells)))
      with (f + n + 1 + Z.of_nat (List.length cells)) by lia.
    reflexivity.
Qed.

Lemma fenRows_rowText (b : Board) (rights : string) (rs : list Z) (r : Z)
      (acc : list Piece) :
  (forall i, (i < List.length rs)%nat -> nth i rs 0 = r - Z.of_nat i) ->
  Board.fenRows (map (fun r => rowText (cellsOf b r) 0) rs) r rights acc
  = Returns (acc ++ flat_map (fun r => rowPieces rights r (cellsOf b r) 0) rs).
Proof.
  revert r acc. induction rs as [|r0 rs IH]; intros r acc H.
  - simpl. now rewrite app_nil_r.
  - cbn [map Board.fenRows flat_map].
    pose proof (H 0%nat ltac:(simpl; lia)) as H0. simpl in H0.
    rewrite Z.sub_0_r in H0. subst r0.
    rewrite fenRow_rowText by (rewrite ?cellsOf_length; lia).
    rewrite cellsOf_length. cbn [Z.of_nat Pos.of_succ_nat Pos.succ Z.add Js.eqb Z.eqb negb].
    change (Js.eqb (Int (0 + 0 + 8)) (Int 8)) with true. cbn [negb].
    rewrite IH.
    + now rewrite <- app_assoc.
    + intros i Hi. pose proof (H (S i) ltac:(simpl; lia)) as Hs. simpl nth in Hs.
      rewrite Hs. lia.
Qed.

Lemma rowPieces_squares (b : Board) (rights : string) (r : Z) (fs : list Z) (k : Z) :
  (forall i, (i < List.length fs)%nat -> nth i fs 0 = k + Z.of_nat i) ->
  rowPieces rights r (map (fun f => Board.getPiece b (Board.pos f r)) fs) k
  = flat_map (squarePieces b rights r) fs.
Proof.
  revert k. induction fs as [|f fs IH]; intros k H; [reflexivity|].
  pose proof (H 0%nat ltac:(simpl; lia)) as H0. simpl in H0.
  rewrite Z.add_0_r in H0. subst f.
  cbn [map rowPieces flat_map]. unfold squarePieces at 1.
  assert (E : rowPieces rights r (map (fun f => Board.getPiece b (Board.pos f r)) fs) (k + 1)
              = flat_map (squarePieces b rights r) fs).
  { apply IH. intros i Hi. pose proof (H (S i) ltac:(simpl; lia)) as Hs.
    simpl nth in Hs. rewrite Hs. lia. }
  destruct (Board.getPiece b (Board.pos k r)); now rewrite E.
Qed.

(** What [fromFEN] returns on the text of a board. *)
Lemma fromFEN_toFEN_pieces (b : Board) (rights : string) :
  Board.fromFEN (Board.toFEN b) rights = Returns (Board.create (reloaded b rights)).
Proof.
  unfold Board.fromFEN. rewrite toFEN_split.
  cbn [List.length map allRanks Nat.eqb negb].
  change [rowText (cellsOf b 7) 0; rowText (cellsOf b 6) 0; rowText (cellsOf b 5) 0;
          rowText (cellsOf b 4) 0; rowText (cellsOf b 3) 0; rowText (cellsOf b 2) 0;
          rowText (cellsOf b 1) 0; rowText (cellsOf b 0) 0]
    with (map (fun r => rowText (cellsOf b r) 0) allRanks).
  rewrite fenRows_rowText.
  - cbn [app]. unfold reloaded. do 2 f_equal.
    apply flat_map_ext. intros r. unfold cellsOf. apply rowPieces_squares.
    intros i Hi. unfold allFiles in *. simpl in Hi.
    do 8 (destruct i as [|i]; [reflexivity|]). lia.
  - intros i Hi. unfold allRanks in *. simpl in Hi.
    do 8 (destruct i as [|i]; [reflexivity|]). lia.
Qed.

Lemma In_allFiles (f : Z) : In f allFiles <-> 0 <= f <= 7.
Proof. unfold allFiles. simpl. lia. Qed.

Lemma In_allRanks (r : Z) : In r allRanks <-> 0 <= r <= 7.
Proof. unfold allRanks. simpl. lia. Qed.

Lemma In_reloaded (b : Board) (rights : string) (x : Piece) :
  In x (reloaded b rights) <->
  exists f r p, 0 <= f <= 7 /\ 0 <= r <= 7
                /\ Board.getPiece b (Board.pos f r) = Some p
                /\ x = reread rights f r p.
Proof.
  unfold reloaded. rewrite in_flat_map. split.
  - intros (r & Hr & H). apply in_flat_map in H. destruct H as (f & Hf & H).
    unfold squarePieces in H.
    destruct (Board.getPiece b (Board.pos f r)) as [p|] eqn:G; [|destruct H].
    destruct H as [<- | []]. exists f, r, p.
    apply In_allFiles in Hf. apply In_allRanks in Hr. now repeat split.
  - intros (f & r & p & Hf & Hr & G & ->). exists r.
    split; [now apply In_allRanks|]. apply in_flat_map. exists f.
    split; [now apply In_allFiles|]. unfold squarePieces. rewrite G. now left.
Qed.

Lemma getPiece_reloaded (b : Board) (rights : string) (f r : Z) :
  0 <= f <= 7 -> 0 <= r <= 7 ->
  Board.getPiece (Board.create (reloaded b rights)) (Board.pos f r)
  = option_map (reread rights f r) (Board.getPiece b (Board.pos f r)).
Proof.
  intros Hf Hr. unfold Board.create. rewrite getPiece_fold_setPiece. unfold lastAt.
  destruct (find _ _) as [x|] eqn:F.
  - apply find_some in F. destruct F as [I S].
    apply in_rev, In_reloaded in I. destruct I as (f' & r' & p & _ & _ & G & ->).
    apply samePosition_eq in S. simpl in S. injection S as -> ->.
    now rewrite G.
  - destruct (Board.getPiece b (Board.pos f r)) as [p|] eqn:G; [|reflexivity].
    exfalso.
    assert (I : In (reread rights f r p) (rev (reloaded b rights))).
    { apply -> in_rev. apply In_reloaded. exists f, r, p. now repeat split. }
    pose proof (find_none _ _ F _ I) as N. simpl in N.
    now rewrite samePosition_refl in N.
Qed.

Lemma getPiece_reloaded_outside (b : Board) (rights : string) (q : Position) :
  PositionUtils.isValid q = false ->
  Board.getPiece (Board.create (reloaded b rights)) q = None.
Proof.
  intros V. unfold Board.create. rewrite getPiece_fold_setPiece. unfold lastAt.
  destruct (find _ _) as [x|] eqn:F; [|reflexivity].
  apply find_some in F. destruct F as [I S].
  apply in_rev, In_reloaded in I. destruct I as (f & r & p & Hf & Hr & G & ->).
  apply samePosition_eq in S. simpl in S. subst q.
  unfold PositionUtils.isValid, Board.pos in V. simpl in V.
  apply andb_false_iff in V. rewrite !andb_false_iff in V.
  rewrite !Z.leb_gt in V. lia.
Qed.

Lemma fenLetter_reread (rights : string) (f r : Z) (p : Piece) :
  fenLetter (reread rights f r p) = fenLetter p.
Proof. reflexivity. Qed.

Lemma rowText_letters (g h : Z -> option Piece) (fs : list Z) (n : Z) :
  (forall f, In f fs ->
             match g f, h f with
             | Some p, Some p' => fenLetter p = fenLetter p'
             | None, None => True
             | _, _ => False
             end) ->
  rowText (map g fs) n = rowText (map h fs) n.
Proof.
  revert n. induction fs as [|f fs IH]; intros n H; [reflexivity|].
  cbn [map rowText]. pose proof (H f (or_introl eq_refl)) as Hf.
  assert (IH' : forall n, rowText (map g fs) n = rowText (map h fs) n)
    by (intros n'; apply IH; intros f' I; apply H; now right).
  destruct (g f), (h f); try contradiction; now rewrite ?Hf, IH'.
Qed.

(** X19.  Reading back the FEN text that [toFEN] writes
    for any board never throws; the board read has, on each of the 64
    squares, a piece of the same type and colour as the original
    ([hasMoved] is reconstructed from the castling rights), it has no
    piece elsewhere, and its own text is the text read. *)
Theorem fromFEN_toFEN (b : Board) (rights : string) :
  exists b',
    Board.fromFEN (Board.toFEN b) rights = Returns b'
    /\ (forall f r, 0 <= f <= 7 -> 0 <= r <= 7 ->
                    Board.getPiece b' (Board.pos f r)
                    = option_map (reread rights f r) (Board.getPiece b (Board.pos f r)))
    /\ (forall q, PositionUtils.isValid q = false -> Board.getPiece b' q = None)
    /\ Board.toFEN b' = Board.toFEN b.
Proof.
  exists (Board.create (reloaded b rights)).
  split; [apply fromFEN_toFEN_pieces|].
  split; [intros f r; apply getPiece_reloaded|].
  split; [apply getPiece_reloaded_outside|].
  rewrite !toFEN_text.
  assert (R : forall r, 0 <= r <= 7 ->
                        rowText (cellsOf (Board.create (reloaded b rights)) r) 0
                        = rowText (cellsOf b r) 0).
  { intros r Hr. unfold cellsOf. apply rowText_letters. intros f Hf.
    apply In_allFiles in Hf. rewrite getPiece_reloaded by assumption.
    destruct (Board.getPiece b (Board.pos f r)); simpl; [|exact I].
    apply fenLetter_reread. }
  rewrite !R by lia. reflexivity.
Qed.

(** ** Castling after reading FEN *)

Lemma fenHasMoved_king (c : Color) (f r : number) :
  Board.fenHasMoved King c f r "-" = true.
Proof.
  unfold Board.fenHasMoved. simpl.
  destruct (Color_eqb c White && Js.eqb f (Int 4) && Js.eqb r (Int 0)); [reflexivity|].
  destruct (Color_eqb c Black && Js.eqb f (Int 4) && Js.eqb r (Int 7)); reflexivity.
Qed.

Lemma fenRow_kings (row : string) (rank : number) (file : number)
      (acc acc' : list Piece) (file' : number) :
  Board.fenRow row rank "-" file acc = Returns (acc', file') ->
  kingsHaveMoved acc -> kingsHaveMoved acc'.
Proof.
  revert file acc. induction row as [|char rest IH]; simpl; intros file acc H K.
  - now injection H as <- _.
  - destruct (_ && _); [now apply IH in H|].
    destruct (Board.pieceTypeOfChar _) as [t|]; [|discriminate].
    apply IH in H; [assumption|].
    intros p I T. apply in_app_or in I. destruct I as [I | [<- | []]].
    + now apply K.
    + simpl in T. subst t. apply fenHasMoved_king.
Qed.

Lemma fenRows_kings (rows : list string) (rank : Z) (acc ps : list Piece) :
  Board.fenRows rows rank "-" acc = Returns ps ->
  kingsHaveMoved acc -> kingsHaveMoved ps.
Proof.
  revert rank acc. induction rows as [|row rest IH]; simpl; intros rank acc H K.
  - now injection H as <-.
  - destruct (Board.fenRow row (Int rank) "-" (Int 0) acc) as [[acc' file]|] eqn:R;
      [|discriminate].
    destruct (negb _); [discriminate|].
    apply IH in H; [assumption|]. now apply (fenRow_kings _ _ _ _ _ _ R).
Qed.

Lemma In_create (ps : list Piece) (p : Piece) :
  In p (Board.getAllPieces (Board.create ps)) -> In p ps.
Proof.
  intros I.
  destruct (wellFormed_squares _ (create_wellFormed ps)) as (_ & _ & Sq).
  apply Sq in I. unfold Board.create in I. rewrite getPiece_fold_setPiece in I.
  unfold lastAt in I. destruct (find _ _) as [x|] eqn:F; [|discriminate].
  injection I as ->. apply find_some in F. destruct F as [F _]. now apply in_rev.
Qed.

Lemma fromFEN_kings (fen : string) (s : GameState) :
  GameState.fromFEN fen = Returns s ->
  kingsHaveMoved (Board.getAllPieces (board s)).
Proof.
  intros H. destruct (fromFEN_fields _ _ H) as (pp & _ & _ & _ & _ & _ & _ & B & _).
  unfold Board.fromFEN in B. destruct (negb _); [discriminate|].
  destruct (Board.fenRows _ _ _ _) as [ps|] eqn:R; [|discriminate].
  injection B as <-. intros p I. apply In_create in I. revert p I.
  apply (fenRows_kings _ _ _ _ R). intros p [].
Qed.

Lemma no_castling_for (b : Board) (p : Piece) (ep : option Position) (m : Move) :
  (ptype p = King -> hasMoved p = true) ->
  In m (GameRules.getLegalMoves p b ep) -> Move.isCastling m = false.
Proof.
  intros K H.
  destruct (getLegalMoves_cases _ _ _ _ H)
    as [(tp & _ & -> & _) | [(side & _ & T & Hm & _) | (target & c & _ & _ & -> & _)]].
  - reflexivity.
  - rewrite (K T) in Hm. discriminate.
  - reflexivity.
Qed.

(** X20.  [GameState.fromFEN] reads the board without
    castling rights, so in every state it returns all kings count as
    moved: no king has a castling move, no legal move is a castling move,
    and no move that [makeMove] plays is one. *)
Theorem fromFEN_forbids_castling (fen : string) (s : GameState) :
  GameState.fromFEN fen = Returns s ->
  (forall king, In king (Board.getAllPieces (board s)) ->
                GameRules.getCastlingMoves king (board s) = [])
  /\ (forall m, In m (GameState.getLegalMoves s) -> Move.isCastling m = false)
  /\ (forall f t promo r m,
         GameState.makeMove s f t promo = Returns r -> move r = Some m ->
         Move.isCastling m = false).
Proof.
  intros H. pose proof (fromFEN_kings _ _ H) as K.
  split; [|split].
  - intros king I. unfold GameRules.getCastlingMoves.
    destruct (PieceType_eqb (ptype king) King) eqn:T; [|reflexivity].
    apply PieceType_eqb_eq in T. now rewrite (K king I T).
  - intros m I. unfold GameState.getLegalMoves, GameRules.getAllLegalMoves in I.
    apply in_flat_map in I. destruct I as (p & Ip & Im).
    unfold Board.getPiecesByColor in Ip. apply filter_In in Ip. destruct Ip as [Ip _].
    apply (no_castling_for (board s) p (enPassantTarget s)); [|assumption].
    now apply K.
  - intros f t promo r m R M.
    pose proof (move_success _ _ _ _ _ _ R M) as S.
    destruct (makeMove_inv _ _ _ _ _ R S)
      as (p & found & m0 & b' & s0 & G & _ & Fin & _ & Kd & _ & _ & _ & M0 & _).
    assert (m0 = m) by congruence. subst m0.
    destruct Kd as [[_ ->] | [_ (pt & _ & ->)]]; [|reflexivity].
    apply (no_castling_for (board s) p (enPassantTarget s)); [|assumption].
    apply K. now apply (getPiece_In _ f).
Qed.

Lemma fromFEN_forbids_castling_witness :
  (forall king, In king (Board.getAllPieces (board loadedGame)) ->
                GameRules.getCastlingMoves king (board loadedGame) = [])
  /\ (forall m, In m (GameState.getLegalMoves loadedGame) -> Move.isCastling m = false)
  /\ (forall f t promo r m,
         GameState.makeMove loadedGame f t promo = Returns r -> move r = Some m ->
         Move.isCastling m = false).
Proof.
  apply (fromFEN_forbids_castling standardFEN loadedGame).
  vm_compute. reflexivity.
Defined.

(** ** The FEN text of a game state *)

Lemma spaceFree_app (a b : string) :
  spaceFree (a ++ b) = spaceFree a && spaceFree b.
Proof.
  induction a as [|c a IH]; simpl; [reflexivity|]. now rewrite IH, andb_assoc.
Qed.

Lemma append_nonempty (a b : string) : b <> EmptyString -> (a ++ b)%string <> EmptyString.
Proof. destruct a; simpl; [trivial | discriminate]. Qed.

Lemma reverse_append (a b acc : string) :
  Js.reverse (a ++ b) acc = Js.reverse b (Js.reverse a acc).
Proof. revert acc. induction a as [|c a IH]; intros acc; simpl; [reflexivity | apply IH]. Qed.

Lemma reverse_reverse (s acc acc' : string) :
  Js.reverse (Js.reverse s acc) acc' = Js.reverse acc (s ++ acc').
Proof.
  revert acc acc'. induction s as [|c s IH]; intros acc acc'; simpl; [reflexivity|].
  rewrite IH. reflexivity.
Qed.

Lemma last_char (s : string) :
  s <> EmptyString -> spaceFree s = true ->
  exists a l, s = (a ++ String l EmptyString)%string /\ Js.isWhiteSpace l = false.
Proof.
  induction s as [|c s IH]; intros N S; [contradiction|].
  simpl in S. apply andb_prop in S. destruct S as [Sc Ss].
  destruct s as [|d s].
  - exists EmptyString, c. split; [reflexivity|]. now apply negb_true_iff.
  - destruct (IH ltac:(discriminate) Ss) as (a & l & E & W).
    exists (String c a), l. split; [|assumption]. simpl. now rewrite <- E.
Qed.

(** [trim] leaves a text alone that neither starts nor ends with white
    space. *)
Lemma trim_id (c l : ascii) (r a : string) :
  String c r = (a ++ String l EmptyString)%string ->
  Js.isWhiteSpace c = false -> Js.isWhiteSpace l = false ->
  Js.trim (String c r) = String c r.
Proof.
  intros E Wc Wl. unfold Js.trim.
  assert (S1 : Js.skipWhiteSpace (String c r) = String c r) by (simpl; now rewrite Wc).
  rewrite S1. rewrite E at 1. rewrite reverse_append. simpl Js.reverse at 1.
  cbn [Js.reverse Js.skipWhiteSpace]. rewrite Wl.
  change (String l (Js.reverse a EmptyString))
    with (Js.reverse (String l EmptyString) (Js.reverse a EmptyString)).
  rewrite <- reverse_append, <- E. rewrite reverse_reverse. simpl.
  now rewrite sapp_nil_r.
Qed.

Lemma trim_between (x mid y : string) :
  x <> EmptyString -> spaceFree x = true ->
  y <> EmptyString -> spaceFree y = true ->
  Js.trim (x ++ mid ++ y) = (x ++ mid ++ y)%string.
Proof.
  intros Nx Sx Ny Sy. destruct x as [|c r1]; [contradiction|].
  destruct (last_char y Ny Sy) as (a & l & -> & Wl).
  simpl in Sx. apply andb_prop in Sx. destruct Sx as [Sc _].
  apply negb_true_iff in Sc. cbn [append].
  apply (trim_id c l _ (String c (r1 ++ mid ++ a))); [|assumption ..].
  cbn [append]. f_equal. now rewrite !sapp_assoc.
Qed.

Lemma splitSpaces_run (w rest cur : string) :
  spaceFree w = true ->
  Js.splitSpaces (w ++ String " " rest) cur false
  = (cur ++ w)%string :: Js.splitSpaces rest EmptyString true.
Proof.
  revert cur. induction w as [|c w IH]; intros cur S.
  - simpl. now rewrite sapp_nil_r.
  - simpl in S. apply andb_prop in S. destruct S as [Sc Sw].
    apply negb_true_iff in Sc. cbn [append Js.splitSpaces]. rewrite Sc.
    rewrite IH by assumption. now rewrite sapp_assoc.
Qed.

Lemma splitSpaces_word (w rest cur : string) (inRun : bool) :
  w <> EmptyString -> spaceFree w = true ->
  Js.splitSpaces (w ++ String " " rest) cur inRun
  = (cur ++ w)%string :: Js.splitSpaces rest EmptyString true.
Proof.
  intros N S. destruct w as [|c w]; [contradiction|].
  simpl in S. apply andb_prop in S. destruct S as [Sc Sw].
  apply negb_true_iff in Sc. cbn [append Js.splitSpaces]. rewrite Sc.
  rewrite splitSpaces_run by assumption. now rewrite sapp_assoc.
Qed.

Lemma splitSpaces_last (w cur : string) (inRun : bool) :
  spaceFree w = true -> Js.splitSpaces w cur inRun = [(cur ++ w)%string].
Proof.
  revert cur inRun. induction w as [|c w IH]; intros cur inRun S.
  - simpl. now rewrite sapp_nil_r.
  - simpl in S. apply andb_prop in S. destruct S as [Sc Sw].
    apply negb_true_iff in Sc. cbn [Js.splitSpaces]. rewrite Sc.
    rewrite IH by assumption. now rewrite sapp_assoc.
Qed.

(** The decimal text of an integer. *)

Lemma string_of_uint_spaceFree (d : Decimal.uint) :
  spaceFree (NilEmpty.string_of_uint d) = true.
Proof. induction d; simpl; try reflexivity; assumption. Qed.

Lemma string_of_uint_nonempty (d : Decimal.uint) :
  d <> Decimal.Nil -> NilEmpty.string_of_uint d <> EmptyString.
Proof. destruct d; simpl; [contradiction | discriminate ..]. Qed.

Lemma toString_word (a : number) :
  Js.toString a <> EmptyString /\ spaceFree (Js.toString a) = true.
Proof.
  destruct a as [[|p|p]|]; simpl.
  - split; [discriminate | reflexivity].
  - split; [apply string_of_uint_nonempty, Unsigned.to_uint_nonnil
           | apply string_of_uint_spaceFree].
  - split; [discriminate|]. apply string_of_uint_spaceFree.
  - split; [discriminate | reflexivity].
Qed.

Lemma digitsValue_step (c : ascii) (r : string) (acc : Z) :
  Js.isDigit c = true ->
  Js.digitsValue (String c r) acc = Js.digitsValue r (10 * acc + (Js.code c - 48)).
Proof. intros D. simpl. now rewrite D. Qed.

Ltac digit_step IH :=
  cbn [NilEmpty.string_of_uint Pos.of_uint_acc Pos.of_uint];
  rewrite digitsValue_step by reflexivity;
  match goal with
  | |- context [Js.code ?c - 48] =>
      let v := eval vm_compute in (Js.code c - 48) in
      change (Js.code c - 48) with v
  end.

Lemma digitsValue_acc (d : Decimal.uint) (acc : positive) :
  Js.digitsValue (NilEmpty.string_of_uint d) (Z.pos acc)
  = Z.pos (Pos.of_uint_acc d acc).
Proof.
  revert acc. induction d as [|d IH|d IH|d IH|d IH|d IH|d IH|d IH|d IH|d IH|d IH];
    intros acc; [reflexivity|..]; digit_step IH; rewrite <- IH; f_equal; lia.
Qed.

Lemma digitsValue_uint (d : Decimal.uint) :
  Js.digitsValue (NilEmpty.string_of_uint d) 0 = Z.of_N (Pos.of_uint d).
Proof.
  induction d as [|d IH|d IH|d IH|d IH|d IH|d IH|d IH|d IH|d IH|d IH];
    [reflexivity|..]; digit_step IH;
    [exact IH | cbn [Z.mul Z.add Z.of_N]; apply digitsValue_acc ..].
Qed.

Lemma parseInt_uint (d : Decimal.uint) :
  d <> Decimal.Nil ->
  Js.parseInt (NilEmpty.string_of_uint d)
  = Int (Js.digitsValue (NilEmpty.string_of_uint d) 0)
  /\ Js.parseInt (String "-" (NilEmpty.string_of_uint d))
     = Int (- Js.digitsValue (NilEmpty.string_of_uint d) 0).
Proof.
  intros N. destruct d; [contradiction|..];
    (split; unfold Js.parseInt; cbn [NilEmpty.string_of_uint Js.skipWhiteSpace];
     [change (Js.isWhiteSpace _) with false | change (Js.isWhiteSpace "-") with false];
     cbv iota; cbn [Js.startsWithDigit];
     change (Js.isDigit _) with true; cbv iota; f_equal; lia).
Qed.

(** [parseInt] reads back what [toString] writes. *)
Lemma parseInt_toString (n : Z) : Js.parseInt (Js.toString (Int n)) = Int n.
Proof.
  destruct n as [|p|p]; [reflexivity|..]; unfold Js.toString; simpl Z.to_int;
    cbn [NilEmpty.string_of_int];
    destruct (parseInt_uint (Pos.to_uint p) (Unsigned.to_uint_nonnil p)) as [P1 P2].
  - rewrite P1, digitsValue_uint, DecimalPos.Unsigned.of_to. reflexivity.
  - rewrite P2, digitsValue_uint, DecimalPos.Unsigned.of_to. reflexivity.
Qed.

Lemma fenLetter_spaceFree (p : Piece) : spaceFree (fenLetter p) = true.
Proof. unfold fenLetter, Piece.getNotation. destruct (ptype p), (color p); reflexivity. Qed.

Lemma rowText_spaceFree (cells : list (option Piece)) (n : Z) :
  spaceFree (rowText cells n) = true.
Proof.
  revert n. induction cells as [|[p|] cells IH]; intros n; cbn [rowText].
  - destruct (0 <? n); [apply toString_word | reflexivity].
  - rewrite !spaceFree_app, fenLetter_spaceFree, IH, !andb_true_r.
    destruct (0 <? n); [apply toString_word | reflexivity].
  - apply IH.
Qed.

Lemma toFEN_word (b : Board) :
  Board.toFEN b <> EmptyString /\ spaceFree (Board.toFEN b) = true.
Proof.
  rewrite toFEN_text. split.
  - apply append_nonempty. discriminate.
  - rewrite !spaceFree_app, !rowText_spaceFree. reflexivity.
Qed.

Lemma toAlgebraic_word (e : Position) :
  PositionUtils.isValid e = true ->
  PositionUtils.toAlgebraic e <> EmptyString
  /\ spaceFree (PositionUtils.toAlgebraic e) = true
  /\ String.eqb (PositionUtils.toAlgebraic e) "-" = false.
Proof.
  intros V. destruct (valid_cases e V) as (f & r & -> & Hf & Hr).
  assert (Ef : f = 0 \/ f = 1 \/ f = 2 \/ f = 3 \/ f = 4 \/ f = 5 \/ f = 6 \/ f = 7) by lia.
  assert (Er : r = 0 \/ r = 1 \/ r = 2 \/ r = 3 \/ r = 4 \/ r = 5 \/ r = 6 \/ r = 7) by lia.
  repeat (destruct Ef as [-> | Ef]); try subst f;
    repeat (destruct Er as [-> | Er]); try subst r;
    (split; [discriminate | split; reflexivity]).
Qed.

Lemma toFEN_reloaded (b : Board) (rights : string) :
  Board.toFEN (Board.create (reloaded b rights)) = Board.toFEN b.
Proof.
  rewrite !toFEN_text.
  assert (R : forall r, 0 <= r <= 7 ->
                        rowText (cellsOf (Board.create (reloaded b rights)) r) 0
                        = rowText (cellsOf b r) 0).
  { intros r Hr. unfold cellsOf. apply rowText_letters. intros f Hf.
    apply In_allFiles in Hf. rewrite getPiece_reloaded by assumption.
    destruct (Board.getPiece b (Board.pos f r)); simpl; [|exact I].
    apply fenLetter_reread. }
  rewrite !R by lia. reflexivity.
Qed.

(** The six fields of the text of a state. *)
Lemma toFEN_fields (s : GameState) :
  (forall e, enPassantTarget s = Some e -> PositionUtils.isValid e = true) ->
  Js.splitWhiteSpace (Js.trim (GameState.toFEN s))
  = [Board.toFEN (board s);
     if Color_eqb (currentTurn s) White then "w" else "b";
     "-";
     match enPassantTarget s with
     | Some target => PositionUtils.toAlgebraic target
     | None => "-"
     end;
     Js.toString (halfMoveClock s);
     Js.toString (fullMoveNumber s)].
Proof.
  intros V. unfold GameState.toFEN.
  set (w1 := Board.toFEN (board s)).
  set (w2 := if Color_eqb (currentTurn s) White then "w" else "b").
  set (w4 := match enPassantTarget s with
             | Some target => PositionUtils.toAlgebraic target
             | None => "-"
             end).
  set (w5 := Js.toString (halfMoveClock s)).
  set (w6 := Js.toString (fullMoveNumber s)).
  destruct (toFEN_word (board s)) as [N1 S1]. fold w1 in N1, S1.
  assert (W2 : w2 <> EmptyString /\ spaceFree w2 = true)
    by (unfold w2; destruct (Color_eqb _ _); split; (discriminate || reflexivity)).
  destruct W2 as [N2 S2].
  assert (W4 : w4 <> EmptyString /\ spaceFree w4 = true).
  { unfold w4. destruct (enPassantTarget s) as [e|].
    - destruct (toAlgebraic_word e (V e eq_refl)) as (A & B & _). now split.
    - split; [discriminate | reflexivity]. }
  destruct W4 as [N4 S4].
  destruct (toString_word (halfMoveClock s)) as [N5 S5]. fold w5 in N5, S5.
  destruct (toString_word (fullMoveNumber s)) as [N6 S6]. fold w6 in N6, S6.
  set (mid := (" " ++ w2 ++ " " ++ "-" ++ " " ++ w4 ++ " " ++ w5 ++ " ")%string).
  assert (E : (w1 ++ " " ++ w2 ++ " " ++ "-" ++ " " ++ w4 ++ " " ++ w5 ++ " " ++ w6
               = w1 ++ mid ++ w6)%string)
    by (unfold mid; now rewrite !sapp_assoc).
  rewrite E, trim_between, <- E by assumption. clear E mid.
  unfold Js.splitWhiteSpace.
  cbn [append].
  rewrite (splitSpaces_word w1) by assumption.
  rewrite (splitSpaces_word w2) by assumption.
  change (String "-" (String " " (w4 ++ String " " (w5 ++ String " " w6))))
    with ("-" ++ String " " (w4 ++ String " " (w5 ++ String " " w6)))%string.
  rewrite (splitSpaces_word "-") by (discriminate || reflexivity).
  rewrite (splitSpaces_word w4) by assumption.
  rewrite (splitSpaces_word w5) by assumption.
  rewrite (splitSpaces_last w6) by assumption.
  reflexivity.
Qed.

Lemma orElse_int (n : Z) (d : number) : n <> 0 -> Js.orElse (Int n) d = Int n.
Proof. destruct n; [contradiction | reflexivity ..]. Qed.

(** What [fromFEN] returns on the text of a state. *)
Lemma toFEN_loads (s : GameState) :
  (forall e, enPassantTarget s = Some e -> PositionUtils.isValid e = true) ->
  GameState.fromFEN (GameState.toFEN s)
  = Returns (mkGameState (Board.create (reloaded (board s) "-")) (currentTurn s) []
                         (enPassantTarget s)
                         (Js.orElse (Js.parseInt (Js.toString (halfMoveClock s))) (Int 0))
                         (Js.orElse (Js.parseInt (Js.toString (fullMoveNumber s))) (Int 1))
                         InProgress None).
Proof.
  intros V.
  assert (Tn : (if String.eqb (if Color_eqb (currentTurn s) White then "w" else "b") "w"
                then White else Black) = currentTurn s)
    by (destruct (currentTurn s); reflexivity).
  assert (Ep : (if negb (String.eqb match enPassantTarget s with
                                    | Some target => PositionUtils.toAlgebraic target
                                    | None => "-"
                                    end "-")
                then match PositionUtils.fromAlgebraic
                             match enPassantTarget s with
                             | Some target => PositionUtils.toAlgebraic target
                             | None => "-"
                             end with
                     | Returns p => Some p
                     | Throws _ => None
                     end
                else None) = enPassantTarget s).
  { destruct (enPassantTarget s) as [e|]; [|reflexivity].
    destruct (toAlgebraic_word e (V e eq_refl)) as (_ & _ & D). rewrite D.
    cbn [negb]. now rewrite (fromAlgebraic_toAlgebraic e (V e eq_refl)). }
  unfold GameState.fromFEN. rewrite (toFEN_fields s V). cbv zeta.
  rewrite fromFEN_toFEN_pieces, Tn, Ep. reflexivity.
Qed.

(** X21.  For a state whose clocks are safe integers, whose
    full-move number is not 0 and whose en-passant target, if any, is a
    square of the board, reading back the text that [toFEN] writes
    returns a state with the board read from the board's text without
    castling rights, the same side to move, en-passant target and clocks,
    an empty history and the result [InProgress]; its own text is the
    text read. *)
Theorem GameState_fromFEN_toFEN (s : GameState) (h n : Z) :
  halfMoveClock s = Int h -> fullMoveNumber s = Int n -> n <> 0 ->
  safeInteger h -> safeInteger n ->
  (forall e, enPassantTarget s = Some e -> PositionUtils.isValid e = true) ->
  exists s',
    GameState.fromFEN (GameState.toFEN s) = Returns s'
    /\ Board.fromFEN (Board.toFEN (board s)) "-" = Returns (board s')
    /\ currentTurn s' = currentTurn s
    /\ enPassantTarget s' = enPassantTarget s
    /\ halfMoveClock s' = halfMoveClock s
    /\ fullMoveNumber s' = fullMoveNumber s
    /\ moveHistory s' = [] /\ result s' = InProgress /\ endReason s' = None
    /\ GameState.toFEN s' = GameState.toFEN s.
Proof.
  intros Hh Hn Nn _ _ V.
  assert (Ch : Js.orElse (Js.parseInt (Js.toString (halfMoveClock s))) (Int 0)
               = halfMoveClock s).
  { rewrite Hh, parseInt_toString. destruct h; reflexivity. }
  assert (Cn : Js.orElse (Js.parseInt (Js.toString (fullMoveNumber s))) (Int 1)
               = fullMoveNumber s).
  { rewrite Hn, parseInt_toString. now apply orElse_int. }
  eexists. split; [apply (toFEN_loads s V)|].
  cbn [board currentTurn enPassantTarget halfMoveClock fullMoveNumber moveHistory
             result endReason].
  split; [apply fromFEN_toFEN_pieces|].
  repeat (split; [first [reflexivity | assumption]|]).
  unfold GameState.toFEN.
  cbn [board currentTurn enPassantTarget halfMoveClock fullMoveNumber].
  now rewrite toFEN_reloaded, Ch, Cn.
Qed.

Lemma GameState_fromFEN_toFEN_witness :
  exists s',
    GameState.fromFEN (GameState.toFEN GameState.createStandard) = Returns s'
    /\ Board.fromFEN (Board.toFEN (board GameState.createStandard)) "-"
       = Returns (board s')
    /\ currentTurn s' = currentTurn GameState.createStandard
    /\ enPassantTarget s' = enPassantTarget GameState.createStandard
    /\ halfMoveClock s' = halfMoveClock GameState.createStandard
    /\ fullMoveNumber s' = fullMoveNumber GameState.createStandard
    /\ moveHistory s' = [] /\ result s' = InProgress /\ endReason s' = None
    /\ GameState.toFEN s' = GameState.toFEN GameState.createStandard.
Proof.
  apply (GameState_fromFEN_toFEN GameState.createStandard 0 1).
  - reflexivity.
  - reflexivity.
  - discriminate.
  - unfold safeInteger. simpl. lia.
  - unfold safeInteger. simpl. lia.
  - intros e E. vm_compute in E. discriminate.
Defined.

(** ** Boards read from FEN *)

Lemma isValid_pos (f r : Z) :
  0 <= f <= 7 -> 0 <= r <= 7 -> PositionUtils.isValid (Board.pos f r) = true.
Proof.
  intros Hf Hr. unfold PositionUtils.isValid, Board.pos. simpl.
  rewrite !andb_true_iff, !Z.leb_le. lia.
Qed.

Lemma fenRow_files (row : string) (r : Z) (rights : string) (f : Z)
      (acc acc' : list Piece) (file' : number) :
  Board.fenRow row (Int r) rights (Int f) acc = Returns (acc', file') ->
  exists f', file' = Int f' /\ f <= f'
             /\ forall p, In p acc' ->
                          In p acc \/ exists k, position p = Board.pos k r /\ f <= k < f'.
Proof.
  revert f acc. induction row as [|char rest IH]; intros f acc H.
  - simpl in H. injection H as <- <-. exists f. split; [reflexivity|].
    split; [lia|]. intros p I. now left.
  - cbn [Board.fenRow] in H.
    destruct ((Js.code "1" <=? Js.code char) && (Js.code char <=? Js.code "8")) eqn:D.
    + rewrite parseInt_single in H.
      apply andb_prop in D. destruct D as [D1 D2]. apply Z.leb_le in D1, D2.
      change (Js.code "1") with 49 in D1. change (Js.code "8") with 56 in D2.
      assert (Dg : Js.isDigit char = true)
        by (unfold Js.isDigit; rewrite andb_true_iff, !Z.leb_le; lia).
      rewrite Dg in H. cbn [Js.add] in H.
      apply IH in H. destruct H as (f' & -> & Hf & Hp).
      exists f'. split; [reflexivity|]. split; [lia|].
      intros p I. destruct (Hp p I) as [Ia | (k & Pk & Hk)]; [now left|].
      right. exists k. split; [assumption | lia].
    + destruct (Board.pieceTypeOfChar _) as [t|]; [|discriminate].
      cbn [Js.add] in H. apply IH in H. destruct H as (f' & -> & Hf & Hp).
      exists f'. split; [reflexivity|]. split; [lia|].
      intros p I. destruct (Hp p I) as [Ia | (k & Pk & Hk)].
      * apply in_app_or in Ia. destruct Ia as [Ia | [<- | []]]; [now left|].
        right. exists f. split; [reflexivity | lia].
      * right. exists k. split; [assumption | lia].
Qed.

Lemma fenRows_onBoard (rows : list string) (rank : Z) (rights : string)
      (acc ps : list Piece) :
  Z.of_nat (List.length rows) <= rank + 1 -> rank <= 7 ->
  Board.fenRows rows rank rights acc = Returns ps ->
  onBoard acc -> onBoard ps.
Proof.
  revert rank acc. induction rows as [|row rest IH]; intros rank acc Hl Hr H K.
  - simpl in H. now injection H as <-.
  - cbn [Board.fenRows] in H. cbn [List.length] in Hl.
    destruct (Board.fenRow row (Int rank) rights (Int 0) acc) as [[acc' file]|] eqn:R;
      [|discriminate].
    destruct (negb (Js.eqb file (Int 8))) eqn:E; [discriminate|].
    apply fenRow_files in R. destruct R as (f' & -> & _ & Hp).
    apply negb_false_iff in E. simpl in E. apply Z.eqb_eq in E. subst f'.
    apply IH in H; [assumption | lia | lia |].
    intros p I. destruct (Hp p I) as [Ia | (k & -> & Hk)]; [now apply K|].
    apply isValid_pos; lia.
Qed.

Lemma fromFEN_onBoard (fen : string) (s : GameState) :
  GameState.fromFEN fen = Returns s -> onBoard (Board.getAllPieces (board s)).
Proof.
  intros H. destruct (fromFEN_fields _ _ H) as (pp & _ & _ & _ & _ & _ & _ & B & _).
  unfold Board.fromFEN in B.
  destruct (negb (Nat.eqb (List.length (Js.split pp "/")) 8)) eqn:L; [discriminate|].
  apply negb_false_iff, Nat.eqb_eq in L.
  destruct (Board.fenRows _ _ _ _) as [ps|] eqn:R; [|discriminate].
  injection B as <-. intros p I. apply In_create in I. revert p I.
  eapply fenRows_onBoard; [| | exact R |];
    [rewrite L; simpl; lia | lia | intros p []].
Qed.

Lemma fromFEN_state (fen : string) (s : GameState) :
  GameState.fromFEN fen = Returns s ->
  wellFormed (board s) /\ result s = InProgress /\ endReason s = None
  /\ moveHistory s = []
  /\ (exists h, halfMoveClock s = Int h)
  /\ (exists n, fullMoveNumber s = Int n /\ n <> 0).
Proof.
  intros H. pose proof H as H'. unfold GameState.fromFEN in H'.
  destruct (Js.splitWhiteSpace _) as [|p1 [|p2 [|p3 [|p4 [|p5 [|p6 [|p7 l]]]]]]];
    try discriminate.
  destruct (Board.fromFEN p1 "-") as [b|] eqn:B; [|discriminate].
  injection H' as <-. cbn [board result endReason moveHistory halfMoveClock fullMoveNumber].
  split; [now apply (fromFEN_wellFormed p1 "-")|].
  repeat (split; [reflexivity|]). split.
  - destruct (Js.parseInt p5) as [[|x|x]|]; simpl; eexists; reflexivity.
  - destruct (Js.parseInt p6) as [[|x|x]|]; simpl; eexists; (split; [reflexivity | discriminate]).
Qed.

(** ** Server-side validation *)

(** X22.  [getGameResult] answers "in progress" without an
    end reason for every text: a state read from FEN never carries a
    result. *)
Theorem getGameResult_in_progress (fen : string) :
  Validation.getGameResult fen = (InProgress, None).
Proof.
  unfold Validation.getGameResult.
  destruct (GameState.fromFEN fen) as [s|] eqn:F; [|reflexivity].
  destruct (fromFEN_state _ _ F) as (_ & -> & -> & _). reflexivity.
Qed.

Lemma promotionOfName_range (name : option string) (pt : option PieceType) :
  Validation.promotionOfName name = Some pt -> pt <> Some Pawn /\ pt <> Some King.
Proof.
  unfold Validation.promotionOfName. destruct name as [n|].
  - destruct (String.eqb n EmptyString); [intros [= <-]; split; discriminate|].
    repeat (destruct (String.eqb _ _); [intros [= <-]; split; discriminate|]).
    discriminate.
  - intros [= <-]. split; discriminate.
Qed.

Lemma makeMove_result_cases (s : GameState) (f t : Position) (promo : option PieceType)
      (r : MoveResult) :
  GameState.makeMove s f t promo = Returns r ->
  (success r = true /\ error r = None /\ exists s', newState r = Some s')
  \/ (success r = false /\ newState r = None
      /\ exists msg, error r = Some msg /\ In msg ruleViolations).
Proof.
  unfold GameState.makeMove. intros H.
  destruct (Board.getPiece (board s) f) as [p|];
    [|injection H as <-; right; simpl; repeat split; eexists; split; [reflexivity|]; tauto].
  destruct (negb _);
    [injection H as <-; right; simpl; repeat split; eexists; split; [reflexivity|]; tauto|].
  destruct (find _ _) as [found|];
    [|injection H as <-; right; simpl; repeat split; eexists; split; [reflexivity|]; tauto].
  destruct (if GameState.isBackRank p t then _ else _);
    [|injection H as <-; right; simpl; repeat split; eexists; split; [reflexivity|]; tauto].
  destruct (GameState.applyMove s _) as [s'|]; [|discriminate].
  injection H as <-. left. simpl. repeat split. now exists s'.
Qed.

(** The answer of [validateAndExecuteMove] on a text that loads, for the
    player whose turn it is. *)
Lemma validate_loaded (fen id playerColor : string) (f t : Position) (promo : option string)
      (s : GameState) :
  GameState.fromFEN fen = Returns s ->
  currentTurn s = Validation.expectedColor playerColor ->
  Validation.validateAndExecuteMove fen id playerColor f t promo
  = match Validation.promotionOfName promo with
    | None => Validation.failure "Invalid promotion type"
    | Some pt =>
        match GameState.makeMove s f t pt with
        | Throws _ => Validation.serverError
        | Returns r =>
            match success r, newState r with
            | true, Some s' =>
                Validation.mkValidatedMoveResult
                  true (Some (GameState.toFEN s')) None
                  (isCheck r) (isCheckmate r) (isStalemate r)
            | _, _ =>
                Validation.failure
                  match error r with
                  | Some msg => if String.eqb msg EmptyString then "Illegal move" else msg
                  | None => "Illegal move"
                  end
            end
        end
    end.
Proof.
  intros F T. unfold Validation.validateAndExecuteMove. rewrite F, T, Color_eqb_refl.
  destruct (fromFEN_state _ _ F) as (_ & -> & _). reflexivity.
Qed.

(** X23.  [validateAndExecuteMove] reports the
    server error exactly when the FEN text does not load; it never
    reports that the game is already finished; and it reports success
    exactly when it reports no error, which is exactly when it returns a
    new FEN text. *)
Theorem validateAndExecuteMove_errors (fen id playerColor : string) (f t : Position)
        (promo : option string) :
  let r := Validation.validateAndExecuteMove fen id playerColor f t promo in
  (Validation.error r = Some serverErrorText
   <-> exists msg, GameState.fromFEN fen = Throws msg)
  /\ Validation.error r <> Some finishedText
  /\ (Validation.success r = true <-> Validation.error r = None)
  /\ (Validation.success r = true <-> exists fen', Validation.newFEN r = Some fen').
Proof.
  cbv zeta.
  destruct (GameState.fromFEN fen) as [s|msg] eqn:F.
  - assert (NoThrow : forall m : string, ~ (exists msg : string, Returns s = Throws msg))
      by (intros _ (msg & E); discriminate).
    destruct (Color_eqb (currentTurn s) (Validation.expectedColor playerColor)) eqn:T.
    + apply Color_eqb_eq in T. rewrite (validate_loaded _ _ _ _ _ _ _ F T).
      destruct (Validation.promotionOfName promo) as [pt|] eqn:P.
      * destruct (GameState.makeMove s f t pt) as [r|m] eqn:M.
        -- destruct (makeMove_result_cases _ _ _ _ _ M)
             as [(S & E & s' & N) | (S & N & m & E & I)]; rewrite S, ?N.
           ++ simpl. split; [split; [discriminate | intros (x & X); discriminate]|].
              split; [discriminate|]. split; [tauto|].
              split; [intros _; eexists; reflexivity | reflexivity].
           ++ rewrite E. simpl.
              assert (Em : (if String.eqb m EmptyString then "Illegal move" else m)%string
                           = m).
              { destruct I as [<- | [<- | [<- | [<- | []]]]]; reflexivity. }
              rewrite Em.
              split; [split; [|intros (x & X); discriminate]|].
              { intros [= ->]. destruct I as [I | [I | [I | [I | []]]]]; discriminate. }
              split.
              { intros [= ->]. destruct I as [I | [I | [I | [I | []]]]]; discriminate. }
              split; [split; discriminate|].
              split; [discriminate | intros (x & X); discriminate].
        -- exfalso. apply makeMove_throws_iff in M. destruct M as (_ & Pk & _).
           destruct (promotionOfName_range _ _ P) as [N1 N2].
           destruct Pk; contradiction.
      * simpl. split; [split; [discriminate | intros (x & X); discriminate]|].
        split; [discriminate|]. split; [split; discriminate|].
        split; [discriminate | intros (x & X); discriminate].
    + unfold Validation.validateAndExecuteMove. rewrite F, T. simpl.
      split; [split; [discriminate | intros (x & X); discriminate]|].
      split; [discriminate|]. split; [split; discriminate|].
      split; [discriminate | intros (x & X); discriminate].
  - unfold Validation.validateAndExecuteMove. rewrite F. simpl.
    split; [split; [intros _; now exists msg | reflexivity]|].
    split; [discriminate|]. split; [split; discriminate|].
    split; [discriminate | intros (x & X); discriminate].
Qed.

Lemma position_eta (p : Position) : {| file := file p; rank := rank p |} = p.
Proof. now destruct p. Qed.

Lemma promotionOfName_queen : Validation.promotionOfName (Some "queen") = Some (Some Queen).
Proof. reflexivity. Qed.

(** X24.  The moves that the server lists for a player are
    exactly the requests that it accepts from that player when they are
    made with the promotion type "queen". *)
Theorem listed_moves_are_the_accepted_ones (fen id playerColor : string) (f t : Position) :
  In (f, t) (Validation.getLegalMoves fen playerColor)
  <-> Validation.success
        (Validation.validateAndExecuteMove fen id playerColor f t (Some "queen")) = true.
Proof.
  unfold Validation.getLegalMoves.
  destruct (GameState.fromFEN fen) as [s|msg] eqn:F.
  - destruct (fromFEN_state _ _ F) as (W & _).
    destruct (Color_eqb (currentTurn s) (Validation.expectedColor playerColor)) eqn:T.
    + apply Color_eqb_eq in T. rewrite (validate_loaded _ _ _ _ _ _ _ F T).
      rewrite promotionOfName_queen. cbn [negb]. split.
      * intros I. apply in_map_iff in I. destruct I as (m & E & I).
        rewrite !position_eta in E. injection E as <- <-.
        assert (V : PositionUtils.isValid (from m) = true).
        { pose proof I as I'.
          unfold GameState.getLegalMoves, GameRules.getAllLegalMoves in I'.
          apply in_flat_map in I'. destruct I' as (p & Ip & Im).
          unfold Board.getPiecesByColor in Ip. apply filter_In in Ip.
          destruct Ip as [Ip _].
          destruct (getLegalMoves_shape _ _ _ _ Im) as (_ & -> & _).
          now apply (fromFEN_onBoard _ _ F). }
        assert (Q : GameState.isBackRank (piece m) (to m) = true ->
                    exists pt, Some Queen = Some pt /\ pt <> Pawn /\ pt <> King)
          by (intros _; exists Queen; repeat split; discriminate).
        destruct (legal_move_accepted s m (Some Queen) W I V Q) as [_ Acc].
        apply makeMove_succeeds_iff in Acc. destruct Acc as (r & R & S).
        rewrite R, S.
        destruct (makeMove_result_cases _ _ _ _ _ R) as [(_ & _ & s' & N) | (S' & _)];
          [|congruence].
        rewrite N. reflexivity.
      * intros S.
        destruct (GameState.makeMove s f t (Some Queen)) as [r|] eqn:R; [|discriminate].
        destruct (success r) eqn:Sr; [|discriminate].
        destruct (makeMove_inv _ _ _ _ _ R Sr)
          as (p & found & m & b' & s' & G & C & Fin & Ft & _).
        apply in_map_iff. exists found. rewrite !position_eta. split.
        -- destruct (getLegalMoves_shape _ _ _ _ Fin) as (_ & Ff & _).
           rewrite Ff, Ft, (located _ _ _ W G). reflexivity.
        -- unfold GameState.getLegalMoves, GameRules.getAllLegalMoves.
           apply in_flat_map. exists p. split; [|assumption].
           unfold Board.getPiecesByColor. apply filter_In.
           split; [now apply (getPiece_In _ f)|].
           rewrite C. apply Color_eqb_refl.
    + unfold Validation.validateAndExecuteMove. rewrite F, T. simpl.
      split; [contradiction | discriminate].
  - unfold Validation.validateAndExecuteMove. rewrite F. simpl.
    split; [contradiction | discriminate].
Qed.

Lemma opposite_differs (c : Color) : Color_eqb (ColorUtils.opposite c) c = false.
Proof. now destruct c. Qed.

(** X25.  The FEN text that [validateAndExecuteMove] returns for an
    accepted move loads again, with the other side to move: the next
    request made for the same colour is answered "Not your turn". *)
Theorem validated_move_passes_turn (fen id playerColor : string) (f t : Position)
        (promo : option string) (fen' : string) :
  Validation.newFEN (Validation.validateAndExecuteMove fen id playerColor f t promo)
  = Some fen' ->
  (exists s', GameState.fromFEN fen' = Returns s'
              /\ currentTurn s' = ColorUtils.opposite (Validation.expectedColor playerColor))
  /\ forall id' f' t' promo',
      Validation.validateAndExecuteMove fen' id' playerColor f' t' promo'
      = Validation.failure "Not your turn".
Proof.
  intros H.
  assert (L : exists s', GameState.fromFEN fen' = Returns s'
                         /\ currentTurn s'
                            = ColorUtils.opposite (Validation.expectedColor playerColor)).
  { unfold Validation.validateAndExecuteMove in H.
    destruct (GameState.fromFEN fen) as [s|] eqn:F; [|discriminate].
    destruct (negb (Color_eqb _ _)) eqn:T; [discriminate|].
    apply negb_false_iff, Color_eqb_eq in T.
    destruct (negb (GameResult_eqb _ _)); [discriminate|].
    destruct (Validation.promotionOfName promo) as [pt|]; [|discriminate].
    destruct (GameState.makeMove s f t pt) as [r|] eqn:R; [|discriminate].
    destruct (success r) eqn:S; [|discriminate].
    destruct (newState r) as [s1|] eqn:N; [|discriminate].
    simpl in H. injection H as <-.
    destruct (fromFEN_state _ _ F) as (W & _).
    destruct (makeMove_inv _ _ _ _ _ R S)
      as (p & found & m & b' & s0 & G & _ & _ & _ & _ & _ & A & _ & M & N0).
    assert (s0 = s1) by congruence. subst s0.
    destruct (applyMove_fields _ _ _ A) as (Tn & _).
    assert (V : forall e, enPassantTarget s1 = Some e -> PositionUtils.isValid e = true).
    { intros e E.
      destruct (double_step_target _ _ _ _ _ _ _ e W R M N E)
        as [(_ & fi & ra & -> & Hr & _ & ->) _].
      pose proof (fromFEN_onBoard _ _ F p (getPiece_In _ _ _ G)) as Vp.
      rewrite (located _ _ _ W G) in Vp.
      destruct (valid_cases _ Vp) as (fi' & ra' & Eq & Hf & _).
      injection Eq as <- <-.
      apply isValid_pos; [assumption|]. subst ra.
      destruct (color (piece m)); simpl; lia. }
    rewrite (toFEN_loads s1 V). eexists. split; [reflexivity|].
    simpl. now rewrite Tn, T. }
  split; [exact L|].
  destruct L as (s' & F' & T'). intros id' f' t' promo'.
  unfold Validation.validateAndExecuteMove. rewrite F', T', opposite_differs.
  reflexivity.
Qed.

Lemma validated_move_passes_turn_witness :
  (exists s', GameState.fromFEN afterE4FEN = Returns s'
              /\ currentTurn s' = ColorUtils.opposite (Validation.expectedColor "white"))
  /\ forall id' f' t' promo',
      Validation.validateAndExecuteMove afterE4FEN id' "white" f' t' promo'
      = Validation.failure "Not your turn".
Proof.
  apply (validated_move_passes_turn standardFEN "player" "white" e2 e4 None afterE4FEN).
  vm_compute. reflexivity.
Defined.

(** ** King safety of the moves played *)

Lemma sameColours_isEmpty (b1 b2 : Board) (q : Position) :
  sameColours b1 b2 -> Board.isEmpty b1 q = Board.isEmpty b2 q.
Proof.
  intros S. specialize (S q). unfold Board.isEmpty.
  destruct (Board.getPiece b1 q), (Board.getPiece b2 q); simpl in S; congruence.
Qed.

Lemma sameColours_isOpponentPiece (b1 b2 : Board) (q : Position) (c : Color) :
  sameColours b1 b2 -> Board.isOpponentPiece b1 q c = Board.isOpponentPiece b2 q c.
Proof.
  intros S. specialize (S q). unfold Board.isOpponentPiece.
  destruct (Board.getPiece b1 q), (Board.getPiece b2 q); simpl in S; congruence.
Qed.

Lemma sameColours_keepCandidate (b1 b2 : Board) (p : Piece) (m : Position) :
  sameColours b1 b2 -> PieceRules.keepCandidate p b1 m = PieceRules.keepCandidate p b2 m.
Proof.
  intros S. specialize (S m). unfold PieceRules.keepCandidate.
  destruct (PositionUtils.isValid m); [|reflexivity].
  destruct (Board.getPiece b1 m), (Board.getPiece b2 m); simpl in S;
    try discriminate; [injection S as S; now rewrite S | reflexivity].
Qed.

Lemma sameColours_walk (b1 b2 : Board) (n : nat) (p : Piece) (dir : Position)
      (cf cr : number) :
  sameColours b1 b2 -> PieceRules.walk n p b1 dir cf cr = PieceRules.walk n p b2 dir cf cr.
Proof.
  intros S. revert cf cr. induction n as [|n IH]; intros cf cr; [reflexivity|].
  cbn [PieceRules.walk]. destruct (_ && _); [|reflexivity].
  pose proof (S {| file := cf; rank := cr |}) as Sq.
  destruct (Board.getPiece b1 _), (Board.getPiece b2 _); simpl in Sq;
    try discriminate; [injection Sq as Sq; now rewrite Sq | now rewrite IH].
Qed.

Lemma sameColours_rays (b1 b2 : Board) (dirs : list Position) (p : Piece) :
  sameColours b1 b2 -> PieceRules.rays dirs p b1 = PieceRules.rays dirs p b2.
Proof.
  intros S. unfold PieceRules.rays. apply flat_map_ext. intros dir.
  now apply sameColours_walk.
Qed.

Lemma sameColours_getPossibleMoves (b1 b2 : Board) (p : Piece) :
  sameColours b1 b2 ->
  PieceRules.getPossibleMoves p b1 = PieceRules.getPossibleMoves p b2.
Proof.
  intros S. unfold PieceRules.getPossibleMoves. destruct (ptype p).
  - unfold PieceRules.pawnMoves. cbv zeta.
    rewrite !(sameColours_isEmpty b1 b2) by assumption.
    f_equal. apply flat_map_ext. intros cf.
    now rewrite (sameColours_isOpponentPiece b1 b2).
  - unfold PieceRules.knightMoves. apply flat_map_ext. intros m.
    now apply sameColours_keepCandidate.
  - now apply sameColours_rays.
  - now apply sameColours_rays.
  - unfold PieceRules.queenMoves, PieceRules.getStraightMoves,
      PieceRules.getDiagonalMoves.
    now rewrite !(sameColours_rays b1 b2).
  - unfold PieceRules.kingMoves. apply flat_map_ext. intros m.
    now apply sameColours_keepCandidate.
Qed.

Lemma set_filter (pred : Piece -> bool) (k : string) (v1 v2 : Piece) (m : JsMap.t) :
  pred v1 = false -> pred v2 = false ->
  filter pred (JsMap.values (JsMap.set k v1 m))
  = filter pred (JsMap.values (JsMap.set k v2 m)).
Proof.
  intros P1 P2. induction m as [|[k' v'] m IH]; simpl.
  - now rewrite P1, P2.
  - destruct (String.eqb k' k); simpl; [now rewrite P1, P2 | now rewrite IH].
Qed.

Lemma set_find (pred : Piece -> bool) (k : string) (v1 v2 : Piece) (m : JsMap.t) :
  pred v1 = false -> pred v2 = false ->
  find pred (JsMap.values (JsMap.set k v1 m))
  = find pred (JsMap.values (JsMap.set k v2 m)).
Proof.
  intros P1 P2. induction m as [|[k' v'] m IH]; simpl.
  - now rewrite P1, P2.
  - destruct (String.eqb k' k); simpl; [now rewrite P1, P2 | now rewrite IH].
Qed.

Lemma existsb_same {A : Type} (f g : A -> bool) (l : list A) :
  (forall x, f x = g x) -> existsb f l = existsb g l.
Proof. intros E. induction l as [|x l IH]; simpl; [reflexivity | now rewrite E, IH]. Qed.

(** Replacing a piece by another of the same colour on the same square
    does not change whether the king of that colour is in check, as long
    as neither piece is that king. *)
Lemma isInCheck_replace (b : Board) (v1 v2 : Piece) :
  position v1 = position v2 -> color v1 = color v2 ->
  ptype v1 <> King -> ptype v2 <> King ->
  GameRules.isInCheck (Board.setPiece b v1) (color v1)
  = GameRules.isInCheck (Board.setPiece b v2) (color v1).
Proof.
  intros P C K1 K2.
  assert (S : sameColours (Board.setPiece b v1) (Board.setPiece b v2)).
  { intros q. rewrite !lookup_setPiece, P.
    destruct (samePosition (position v2) q); [simpl; now rewrite C | reflexivity]. }
  unfold GameRules.isInCheck, Board.getKing, Board.getAllPieces, Board.setPiece.
  cbn [pieces]. rewrite P.
  rewrite (set_find _ _ v1 v2).
  - destruct (find _ _) as [king|]; [|reflexivity].
    unfold GameRules.isSquareAttacked, Board.getPiecesByColor, Board.getAllPieces.
    cbn [pieces].
    rewrite (set_filter _ _ v1 v2).
    + apply existsb_same. intros attacker.
      fold (Board.setPiece b v2).
      replace (mkBoard (JsMap.set (Board.getPositionKey (position v2)) v1 (pieces b)))
        with (Board.setPiece b v1) by (unfold Board.setPiece; now rewrite P).
      now rewrite (sameColours_getPossibleMoves _ _ attacker S).
    + now destruct (color v1).
    + rewrite <- C. now destruct (color v1).
  - destruct (ptype v1); try reflexivity. contradiction.
  - destruct (ptype v2); try reflexivity. contradiction.
Qed.

Lemma legal_move_tested (b : Board) (p : Piece) (ep : option Position) (found : Move) :
  In found (GameRules.getLegalMoves p b ep) -> Move.isCastling found = false ->
  GameRules.isInCheck (GameRules.applyMove (Board.clone b) found) (color p) = false.
Proof.
  intros H NC.
  destruct (getLegalMoves_shape _ _ _ _ H) as (Pm & _).
  destruct (getLegalMoves_cases _ _ _ _ H)
    as [(tp & _ & E & L) | [(side & E & _) | (target & c & _ & _ & E & _ & _ & L & _)]].
  - unfold GameRules.isMoveLegal in L. apply negb_true_iff in L. now rewrite Pm in L.
  - rewrite E in NC. destruct side; discriminate.
  - unfold GameRules.isMoveLegal in L. apply negb_true_iff in L. now rewrite Pm in L.
Qed.

(** X26.  A move that [makeMove] plays on a well-formed
    board, promotions included, never leaves the king of the side that
    moved in check, unless the move is castling. *)
Theorem makeMove_keeps_king_safe (s : GameState) (f t : Position)
        (promo : option PieceType) (r : MoveResult) (m : Move) (s' : GameState) :
  wellFormed (board s) ->
  GameState.makeMove s f t promo = Returns r ->
  move r = Some m -> newState r = Some s' ->
  Move.isCastling m = false ->
  GameRules.isInCheck (board s') (currentTurn s) = false.
Proof.
  intros W R M N NC. pose proof (move_success _ _ _ _ _ _ R M) as S.
  destruct (makeMove_inv _ _ _ _ _ R S)
    as (p & found & m0 & b' & s0 & G & C & Fin & Ft & K & AB & _ & Bs & M0 & N0).
  assert (m0 = m) by congruence. assert (s0 = s') by congruence. subst m0 s0.
  rewrite Bs, <- C.
  destruct (getLegalMoves_shape _ _ _ _ Fin) as (Pf & Ff & _).
  destruct K as [[_ ->] | [B (pt & -> & ->)]].
  - pose proof (legal_move_tested _ _ _ _ Fin NC) as T.
    destruct (legal_move_cases _ _ _ _ _ W G Fin) as (_ & _ & _ & _ & Cases).
    unfold GameState.applyToBoard in AB. rewrite NC in AB.
    destruct Cases as [(Sp & _) | [(side & E & _) | (Sp & _ & _ & c & Cc & _ & _ & _ & N1 & _)]].
    + unfold Move.isEnPassant, Move.isPromotion in AB. rewrite Sp in AB.
      simpl in AB. now injection AB as <-.
    + rewrite E in NC. destruct side; discriminate.
    + unfold Move.isEnPassant in AB. rewrite Sp in AB. simpl in AB.
      injection AB as <-.
      now rewrite (applyEnPassant_applyMove _ _ c Cc N1).
  - pose proof (isBackRank_pawn _ _ B) as Pw.
    assert (NCf : Move.isCastling found = false).
    { destruct (legal_move_cases _ _ _ _ _ W G Fin) as (_ & _ & _ & _ & Cases).
      destruct Cases as [(Sp & _) | [(side & _ & Kg & _) | (Sp & _)]].
      - unfold Move.isCastling. now rewrite Sp.
      - congruence.
      - unfold Move.isCastling. now rewrite Sp. }
    pose proof (legal_move_tested _ _ _ _ Fin NCf) as T.
    destruct (applyToBoard_promotion_inv _ _ _ _ _ _ _ AB) as [_ Nk].
    unfold GameState.applyToBoard in AB. simpl in AB.
    unfold GameState.applyPromotion, Piece.promote in AB. simpl in AB.
    rewrite Pw in AB. simpl in AB.
    destruct (PieceType_eqb pt Pawn || PieceType_eqb pt King); [discriminate|].
    injection AB as <-.
    unfold GameRules.applyMove in T. rewrite Pf, Ff, Ft in T.
    rewrite (located _ _ _ W G) in T.
    set (X := match capturedPiece found with
              | Some captured =>
                  Board.removePiece (Board.removePiece (Board.clone (board s)) f)
                                    (position captured)
              | None => Board.removePiece (Board.clone (board s)) f
              end) in *.
    change (color p) with (color (Piece.moveTo p t)) in T |- *.
    rewrite (isInCheck_replace X (Piece.moveTo p t)
               (Piece.moveTo (mkPiece pt (color p) (position p) true) t)) in T;
      [exact T | reflexivity | reflexivity | simpl; congruence | simpl; assumption].
Qed.

Lemma makeMove_keeps_king_safe_witness :
  GameRules.isInCheck
    (board (playedState promotionPosition (played promotionPosition a7 a8 (Some Queen))))
    (currentTurn promotionPosition) = false.
Proof.
  apply (makeMove_keeps_king_safe promotionPosition a7 a8 (Some Queen)
           (played promotionPosition a7 a8 (Some Queen))
           (playedMove (played promotionPosition a7 a8 (Some Queen)))).
  - apply create_wellFormed.
  - vm_compute. reflexivity.
  - vm_compute. reflexivity.
  - vm_compute. reflexivity.
  - vm_compute. reflexivity.
Defined.

(** ** Algebraic notation, from text to square and back *)

(** X27.  When [fromAlgebraic] returns a square of the board,
    writing that square with [toAlgebraic] gives back the text that was
    read. *)
Theorem toAlgebraic_fromAlgebraic (s : string) (p : Position) :
  PositionUtils.fromAlgebraic s = Returns p ->
  PositionUtils.isValid p = true ->
  PositionUtils.toAlgebraic p = s.
Proof.
  intros H V.
  assert (E : exists q, PositionUtils.fromAlgebraic s = Returns q) by now exists p.
  apply fromAlgebraic_returns_iff in E.
  destruct E as (c1 & c2 & -> & H1 & H2).
  rewrite fromAlgebraic_two in H. cbv zeta in H.
  destruct (Js.isDigit c2) eqn:D.
  - destruct (_ || _) in H; [discriminate|]. injection H as <-.
    destruct H2 as [H2 | H2]; [discriminate|].
    clear V D.
    destruct c1 as [[] [] [] [] [] [] [] []]; unfold Js.code in H1; simpl in H1;
      try lia;
      destruct c2 as [[] [] [] [] [] [] [] []]; unfold Js.code in H2; simpl in H2;
        try lia; reflexivity.
  - destruct (_ || _) in H; [discriminate|]. injection H as <-.
    unfold PositionUtils.isValid in V. simpl in V.
    rewrite !andb_false_r in V. discriminate.
Qed.

Lemma toAlgebraic_fromAlgebraic_witness : PositionUtils.toAlgebraic e4 = "e4".
Proof.
  apply (toAlgebraic_fromAlgebraic "e4" e4).
  - reflexivity.
  - reflexivity.
Defined.

(** ** Termination of the ray walks, as a property of the code *)

(** X28.  The loop that walks a bishop's, rook's or queen's
    ray has stopped after at most eight iterations, wherever it starts:
    with any larger bound on the iterations it returns the same squares. *)
Theorem ray_walk_stops_within_eight_steps (n : nat) (p : Piece) (b : Board)
        (dir : Position) (cf cr : number) :
  In dir (PieceRules.straightDirections ++ PieceRules.diagonalDirections) ->
  (PieceRules.rayFuel <= n)%nat ->
  PieceRules.walk n p b dir cf cr = PieceRules.walk PieceRules.rayFuel p b dir cf cr.
Proof.
  unfold PieceRules.rayFuel. intros H N. simpl in H.
  destruct H as [<- | [<- | [<- | [<- | [<- | [<- | [<- | [<- | []]]]]]]]].
  - apply (walk_fuel_file 1); try tauto; try reflexivity;
      pose proof (remaining_le_8 1 cf); lia.
  - apply (walk_fuel_file (-1)); try tauto; try reflexivity;
      pose proof (remaining_le_8 (-1) cf); lia.
  - apply (walk_fuel_rank 1); try tauto; try reflexivity;
      pose proof (remaining_le_8 1 cr); lia.
  - apply (walk_fuel_rank (-1)); try tauto; try reflexivity;
      pose proof (remaining_le_8 (-1) cr); lia.
  - apply (walk_fuel_file 1); try tauto; try reflexivity;
      pose proof (remaining_le_8 1 cf); lia.
  - apply (walk_fuel_file 1); try tauto; try reflexivity;
      pose proof (remaining_le_8 1 cf); lia.
  - apply (walk_fuel_file (-1)); try tauto; try reflexivity;
      pose proof (remaining_le_8 (-1) cf); lia.
  - apply (walk_fuel_file (-1)); try tauto; try reflexivity;
      pose proof (remaining_le_8 (-1) cf); lia.
Qed.

Lemma ray_walk_stops_within_eight_steps_witness :
  PieceRules.walk 64 (Piece.create Rook White (Board.pos 0 0)) Board.createEmpty
                  (Board.pos 1 0) (Int 1) (Int 0)
  = PieceRules.walk PieceRules.rayFuel (Piece.create Rook White (Board.pos 0 0))
                    Board.createEmpty (Board.pos 1 0) (Int 1) (Int 0).
Proof.
  apply (ray_walk_stops_within_eight_steps 64).
  - simpl. tauto.
  - unfold PieceRules.rayFuel. lia.
Defined.

(** ** The notation of a move *)

Lemma toAlgebraic_chars (f r : Z) :
  0 <= f <= 7 -> 0 <= r <= 7 ->
  PositionUtils.toAlgebraic (Board.pos f r)
  = String (fileLetter f) (String (rankDigit r) EmptyString).
Proof.
  intros Hf Hr.
  assert (Ef : f = 0 \/ f = 1 \/ f = 2 \/ f = 3 \/ f = 4 \/ f = 5 \/ f = 6 \/ f = 7) by lia.
  assert (Er : r = 0 \/ r = 1 \/ r = 2 \/ r = 3 \/ r = 4 \/ r = 5 \/ r = 6 \/ r = 7) by lia.
  repeat (destruct Ef as [-> | Ef]); try subst f;
    repeat (destruct Er as [-> | Er]); try subst r; reflexivity.
Qed.

Lemma fileLetter_cases (f : Z) :
  0 <= f <= 7 -> In (fileLetter f) ["a"; "b"; "c"; "d"; "e"; "f"; "g"; "h"]%char.
Proof.
  intros Hf.
  assert (Ef : f = 0 \/ f = 1 \/ f = 2 \/ f = 3 \/ f = 4 \/ f = 5 \/ f = 6 \/ f = 7) by lia.
  repeat (destruct Ef as [-> | Ef]); try subst f; simpl; tauto.
Qed.

Lemma fileLetter_inj (f f' : Z) :
  0 <= f <= 7 -> 0 <= f' <= 7 -> fileLetter f = fileLetter f' -> f = f'.
Proof.
  intros Hf Hf' E. unfold fileLetter in E.
  apply (f_equal N_of_ascii) in E.
  rewrite !N_ascii_embedding in E by lia. lia.
Qed.

Lemma rankDigit_inj (r r' : Z) :
  0 <= r <= 7 -> 0 <= r' <= 7 -> rankDigit r = rankDigit r' -> r = r'.
Proof.
  intros Hr Hr' E. unfold rankDigit in E.
  apply (f_equal N_of_ascii) in E.
  rewrite !N_ascii_embedding in E by lia. lia.
Qed.

Lemma promotionText_inj (p p' : option PieceType) :
  promotionText p = promotionText p' -> p = p'.
Proof.
  destruct p as [[]|], p' as [[]|]; cbv; intros E;
    first [reflexivity | discriminate E].
Qed.

(** The notation of a move that is not castling, between squares of the
    board. *)
Lemma toAlgebraic_text (m : Move) (f1 r1 f2 r2 : Z) :
  Move.isCastling m = false ->
  from m = Board.pos f1 r1 -> to m = Board.pos f2 r2 ->
  0 <= f1 <= 7 -> 0 <= r1 <= 7 -> 0 <= f2 <= 7 -> 0 <= r2 <= 7 ->
  Move.toAlgebraic m
  = (Piece.getNotation (piece m)
     ++ String (fileLetter f1)
          (String (rankDigit r1)
             ((if Move.isCapture m then "x" else EmptyString)
              ++ String (fileLetter f2)
                   (String (rankDigit r2) (promotionText (promotionType m))))))%string.
Proof.
  intros NC Ef Et H1 H2 H3 H4. unfold Move.toAlgebraic, Move.isCastling in *.
  apply orb_false_elim in NC. destruct NC as [-> ->]. cbv zeta.
  rewrite Ef, Et, !toAlgebraic_chars by assumption.
  unfold Move.isCapture, promotionText.
  destruct (promotionType m) as [pt|].
  - rewrite !sapp_assoc. cbn [append].
    destruct (capturedPiece m); cbn [append]; now destruct pt.
  - cbn [append]. destruct (capturedPiece m); reflexivity.
Qed.

Lemma not_a_file_letter (f : Z) (c : ascii) :
  0 <= f <= 7 ->
  In c ["K"; "Q"; "R"; "B"; "N"; "x"; "O"]%char ->
  fileLetter f <> c.
Proof.
  intros Hf Hc E. pose proof (fileLetter_cases f Hf) as I. rewrite E in I.
  simpl in Hc, I.
  repeat (destruct Hc as [<- | Hc]; [repeat (destruct I as [I | I]; try discriminate I)|]);
    try contradiction.
Qed.

Lemma castling_text (m : Move) :
  Move.isCastling m = true ->
  (specialMove m = CastleKingside /\ Move.toAlgebraic m = "O-O")
  \/ (specialMove m = CastleQueenside /\ Move.toAlgebraic m = "O-O-O").
Proof.
  unfold Move.isCastling, Move.toAlgebraic.
  destruct (specialMove m); simpl; try discriminate; intros _; [left | right];
    split; reflexivity.
Qed.

Lemma text_is_not_castling (m : Move) (f1 r1 f2 r2 : Z) :
  Move.isCastling m = false ->
  from m = Board.pos f1 r1 -> to m = Board.pos f2 r2 ->
  0 <= f1 <= 7 -> 0 <= r1 <= 7 -> 0 <= f2 <= 7 -> 0 <= r2 <= 7 ->
  Move.toAlgebraic m <> "O-O" /\ Move.toAlgebraic m <> "O-O-O".
Proof.
  intros NC Ef Et H1 H2 H3 H4.
  rewrite (toAlgebraic_text m f1 r1 f2 r2) by assumption.
  assert (N : fileLetter f1 <> "O"%char) by (apply not_a_file_letter; simpl; tauto).
  unfold Piece.getNotation.
  destruct (ptype (piece m)); cbn [append]; split; intros E;
    first [discriminate E | injection E as E _; contradiction].
Qed.

Lemma getNotation_letter (p : Piece) :
  Piece.getNotation p
  = match letterOf (ptype p) with
    | Some c => String c EmptyString
    | None => EmptyString
    end.
Proof. unfold Piece.getNotation. now destruct (ptype p). Qed.

Lemma letterOf_cases (t : PieceType) (c : ascii) :
  letterOf t = Some c -> In c ["K"; "Q"; "R"; "B"; "N"; "x"; "O"]%char.
Proof. destruct t; simpl; intros [= <-]; tauto. Qed.

Lemma letterOf_inj (t t' : PieceType) : letterOf t = letterOf t' -> t = t'.
Proof. destruct t, t'; simpl; intros E; first [reflexivity | discriminate E]. Qed.

(** The head of two equal notations: the piece letter and the source
    square. *)
Lemma notation_head (p p' : Piece) (f r f' r' : Z) (rest rest' : string) :
  0 <= f <= 7 -> 0 <= r <= 7 -> 0 <= f' <= 7 -> 0 <= r' <= 7 ->
  (Piece.getNotation p ++ String (fileLetter f) (String (rankDigit r) rest)
   = Piece.getNotation p' ++ String (fileLetter f') (String (rankDigit r') rest'))%string ->
  ptype p = ptype p' /\ f = f' /\ r = r' /\ rest = rest'.
Proof.
  intros Hf Hr Hf' Hr' E. rewrite !getNotation_letter in E.
  destruct (letterOf (ptype p)) as [c|] eqn:L, (letterOf (ptype p')) as [c'|] eqn:L';
    cbn [append] in E.
  - injection E as E0 E1 E2 E3. subst c'.
    split; [apply letterOf_inj; congruence|].
    split; [now apply fileLetter_inj|]. split; [now apply rankDigit_inj | assumption].
  - exfalso. injection E as E0 _.
    apply (not_a_file_letter f' c Hf' (letterOf_cases _ _ L)). now symmetry.
  - exfalso. injection E as E0 _.
    now apply (not_a_file_letter f c' Hf (letterOf_cases _ _ L')).
  - injection E as E1 E2 E3.
    split; [apply letterOf_inj; congruence|].
    split; [now apply fileLetter_inj|]. split; [now apply rankDigit_inj | assumption].
Qed.

(** The tail of two equal notations: the capture mark, the destination
    and the promotion. *)
Lemma notation_tail (x x' : bool) (f r f' r' : Z) (pr pr' : option PieceType) :
  0 <= f <= 7 -> 0 <= r <= 7 -> 0 <= f' <= 7 -> 0 <= r' <= 7 ->
  ((if x then "x" else EmptyString)
   ++ String (fileLetter f) (String (rankDigit r) (promotionText pr))
   = (if x' then "x" else EmptyString)
     ++ String (fileLetter f') (String (rankDigit r') (promotionText pr')))%string ->
  x = x' /\ f = f' /\ r = r' /\ pr = pr'.
Proof.
  intros Hf Hr Hf' Hr' E.
  assert (X : In "x"%char ["K"; "Q"; "R"; "B"; "N"; "x"; "O"]%char) by (simpl; tauto).
  destruct x, x'; cbn [append] in E.
  - injection E as E1 E2 E3. split; [reflexivity|].
    split; [now apply fileLetter_inj|]. split; [now apply rankDigit_inj|].
    now apply promotionText_inj.
  - exfalso. injection E as E0 _.
    apply (not_a_file_letter f' "x" Hf' X). now symmetry.
  - exfalso. injection E as E0 _. now apply (not_a_file_letter f "x" Hf X).
  - injection E as E1 E2 E3. split; [reflexivity|].
    split; [now apply fileLetter_inj|]. split; [now apply rankDigit_inj|].
    now apply promotionText_inj.
Qed.

(** X29.  The notation that [Move.toAlgebraic] writes for a
    move between squares of the board is unambiguous: two moves with the
    same notation are both castling to the same side, or neither is
    castling and they agree on the type of the moving piece, the source,
    the destination, whether a piece is captured, and the promotion
    type. *)
Theorem move_notation_unambiguous (m m' : Move) :
  PositionUtils.isValid (from m) = true -> PositionUtils.isValid (to m) = true ->
  PositionUtils.isValid (from m') = true -> PositionUtils.isValid (to m') = true ->
  Move.toAlgebraic m = Move.toAlgebraic m' ->
  (Move.isCastling m = true /\ Move.isCastling m' = true
   /\ specialMove m = specialMove m')
  \/ (Move.isCastling m = false /\ Move.isCastling m' = false
      /\ ptype (piece m) = ptype (piece m')
      /\ from m = from m' /\ to m = to m'
      /\ Move.isCapture m = Move.isCapture m'
      /\ promotionType m = promotionType m').
Proof.
  intros V1 V2 V1' V2' E.
  destruct (valid_cases _ V1) as (f1 & r1 & F & Hf1 & Hr1).
  destruct (valid_cases _ V2) as (f2 & r2 & T & Hf2 & Hr2).
  destruct (valid_cases _ V1') as (f1' & r1' & F' & Hf1' & Hr1').
  destruct (valid_cases _ V2') as (f2' & r2' & T' & Hf2' & Hr2').
  destruct (Move.isCastling m) eqn:C, (Move.isCastling m') eqn:C'.
  - left. split; [reflexivity|]. split; [reflexivity|].
    destruct (castling_text m C) as [[S X] | [S X]],
             (castling_text m' C') as [[S' X'] | [S' X']];
      rewrite X, X' in E; first [congruence | discriminate E].
  - exfalso.
    destruct (text_is_not_castling m' f1' r1' f2' r2' C' F' T' Hf1' Hr1' Hf2' Hr2')
      as [N1 N2].
    destruct (castling_text m C) as [[_ X] | [_ X]]; rewrite X in E;
      [now apply N1 | now apply N2].
  - exfalso.
    destruct (text_is_not_castling m f1 r1 f2 r2 C F T Hf1 Hr1 Hf2 Hr2) as [N1 N2].
    destruct (castling_text m' C') as [[_ X] | [_ X]]; rewrite X in E;
      [now apply N1 | now apply N2].
  - right. split; [reflexivity|]. split; [reflexivity|].
    rewrite (toAlgebraic_text m f1 r1 f2 r2), (toAlgebraic_text m' f1' r1' f2' r2') in E
      by assumption.
    apply notation_head in E; try assumption.
    destruct E as (Et & -> & -> & E).
    apply notation_tail in E; try assumption.
    destruct E as (Ex & -> & -> & Ep).
    split; [assumption|]. split; [congruence|]. split; [congruence|].
    split; assumption.
Qed.

Lemma move_notation_unambiguous_witness :
  (Move.isCastling knightOut = true /\ Move.isCastling blackKnightOut = true
   /\ specialMove knightOut = specialMove blackKnightOut)
  \/ (Move.isCastling knightOut = false /\ Move.isCastling blackKnightOut = false
      /\ ptype (piece knightOut) = ptype (piece blackKnightOut)
      /\ from knightOut = from blackKnightOut /\ to knightOut = to blackKnightOut
      /\ Move.isCapture knightOut = Move.isCapture blackKnightOut
      /\ promotionType knightOut = promotionType blackKnightOut).
Proof.
  apply (move_notation_unambiguous knightOut blackKnightOut); reflexivity.
Defined.

(** ** The number of pieces *)

Lemma length_setPiece (b : Board) (p : Piece) :
  List.length (Board.getAllPieces (Board.setPiece b p))
  = if Board.isEmpty b (position p)
    then S (List.length (Board.getAllPieces b))
    else List.length (Board.getAllPieces b).
Proof.
  unfold Board.getAllPieces, JsMap.values, Board.isEmpty, Board.getPiece.
  rewrite !length_map.
  change (List.length (JsMap.set (Board.getPositionKey (position p)) p (pieces b)))
    with (List.length (pieces (Board.setPiece b p))).
  rewrite <- !(length_map fst). fold (JsMap.keys (pieces (Board.setPiece b p))).
  fold (JsMap.keys (pieces b)). simpl. rewrite keys_set.
  destruct (JsMap.get _ (pieces b)); [reflexivity|].
  rewrite length_app. simpl. lia.
Qed.

Lemma length_removePiece (b : Board) (q : Position) :
  List.length (Board.getAllPieces b)
  = if Board.isEmpty b q
    then List.length (Board.getAllPieces (Board.removePiece b q))
    else S (List.length (Board.getAllPieces (Board.removePiece b q))).
Proof.
  unfold Board.getAllPieces, JsMap.values, Board.isEmpty, Board.getPiece,
    Board.removePiece.
  cbn [pieces]. rewrite !length_map.
  induction (pieces b) as [|[k v] l IH]; simpl; [reflexivity|].
  destruct (String.eqb k (Board.getPositionKey q)); [reflexivity|].
  simpl. destruct (JsMap.get _ l); lia.
Qed.

Lemma occupied_not_empty (b : Board) (q : Position) (p : Piece) :
  Board.getPiece b q = Some p -> Board.isEmpty b q = false.
Proof. unfold Board.isEmpty. now intros ->. Qed.

(** Taking the moving piece and the captured piece off the board and
    putting a piece on the destination. *)
Lemma count_after_move (b : Board) (f t : Position) (p v : Piece)
      (captured : option Piece) :
  wellFormed b ->
  Board.getPiece b f = Some p -> t <> f -> position v = t ->
  match captured with
  | Some c => Board.getPiece b (position c) = Some c /\ position c <> f
              /\ (position c = t \/ Board.getPiece b t = None)
  | None => Board.getPiece b t = None
  end ->
  (List.length
     (Board.getAllPieces
        (Board.setPiece
           match captured with
           | Some c => Board.removePiece (Board.removePiece b f) (position c)
           | None => Board.removePiece b f
           end v))
   + (if match captured with Some _ => true | None => false end then 1 else 0)
   = List.length (Board.getAllPieces b))%nat.
Proof.
  intros W G Ne Pv Hc.
  pose proof (length_removePiece b f) as L1.
  rewrite (occupied_not_empty _ _ _ G) in L1.
  assert (W1 : wellFormed (Board.removePiece b f)) by now apply removePiece_wellFormed.
  rewrite length_setPiece, Pv.
  destruct captured as [c|].
  - destruct Hc as (Gc & Nc & Ht).
    pose proof (length_removePiece (Board.removePiece b f) (position c)) as L2.
    assert (O : Board.getPiece (Board.removePiece b f) (position c) = Some c).
    { rewrite lookup_removePiece by assumption.
      rewrite (samePosition_false f (position c)) by congruence. assumption. }
    rewrite (occupied_not_empty _ _ _ O) in L2.
    assert (E : Board.isEmpty (Board.removePiece (Board.removePiece b f) (position c)) t
                = true).
    { apply isEmpty_true. rewrite !lookup_removePiece by assumption.
      destruct (samePosition (position c) t) eqn:S; [reflexivity|].
      rewrite (samePosition_false f t) by congruence.
      destruct Ht as [Ht | Ht]; [|assumption].
      rewrite Ht, samePosition_refl in S. discriminate. }
    rewrite E. lia.
  - assert (E : Board.isEmpty (Board.removePiece b f) t = true).
    { apply isEmpty_true. rewrite lookup_removePiece by assumption.
      now rewrite (samePosition_false f t) by congruence. }
    rewrite E. lia.
Qed.

Lemma applyCastling_count (b : Board) (king : Piece) (side : CastlingSide) :
  wellFormed b -> Board.getPiece b (position king) = Some king -> ptype king = King ->
  castlingTest side king b = true ->
  List.length (Board.getAllPieces (GameState.applyCastling b (castlingMove side king)))
  = List.length (Board.getAllPieces b).
Proof.
  intros W G K C.
  destruct (castlingTest_facts _ _ _ C) as (rook & Gr & Tr & Hr & Dk & Dr).
  assert (Nc : position king <> rookCorner side (position king)).
  { intros E. rewrite <- E in Gr. congruence. }
  assert (Nd : position king <> rookDestination side (position king)).
  { intros E. rewrite <- E in Dr. congruence. }
  assert (Nt : to (castlingMove side king) <> position king).
  { intros E. simpl in E. rewrite E in Dk. congruence. }
  set (b1 := Board.setPiece (Board.removePiece b (position king))
                            (Piece.moveTo king (to (castlingMove side king)))).
  assert (W1 : wellFormed b1) by now apply setPiece_wellFormed, removePiece_wellFormed.
  assert (C1 : List.length (Board.getAllPieces b1) = List.length (Board.getAllPieces b)).
  { pose proof (count_after_move b (position king) (to (castlingMove side king)) king
                  (Piece.moveTo king (to (castlingMove side king))) None W G Nt eq_refl Dk)
      as H.
    cbv iota in H. fold b1 in H. lia. }
  assert (L1 : Board.getPiece b1 (rookCorner side (position king)) = Some rook).
  { unfold b1. rewrite lookup_setPiece, lookup_removePiece by assumption.
    cbn [position Piece.moveTo].
    rewrite (samePosition_false (position king)) by assumption.
    destruct side; exact Gr. }
  assert (L2 : Board.getPiece b1 (rookDestination side (position king)) = None).
  { unfold b1. rewrite lookup_setPiece, lookup_removePiece by assumption.
    cbn [position Piece.moveTo].
    rewrite (samePosition_false (position king)) by assumption.
    destruct side; exact Dr. }
  assert (Nr : rookDestination side (position king) <> rookCorner side (position king)).
  { unfold rookDestination, rookCorner, GameRules.onRank. destruct side; simpl; congruence. }
  pose proof (count_after_move b1 (rookCorner side (position king))
                (rookDestination side (position king)) rook
                (Piece.moveTo rook (rookDestination side (position king))) None
                W1 L1 Nr eq_refl L2) as H.
  cbv iota in H. rewrite <- C1, <- H, Nat.add_0_r. f_equal. f_equal.
  unfold rookCorner in L1.
  unfold GameState.applyCastling.
  change (Board.setPiece (Board.removePiece b (from (castlingMove side king)))
            (Piece.moveTo (piece (castlingMove side king)) (to (castlingMove side king))))
    with b1.
  destruct side; cbn [specialMove castlingMove castlingTag SpecialMoveType_eqb from];
    cbn [rookFile] in L1; rewrite L1; reflexivity.
Qed.

(** X30.  A successful [makeMove] on a well-formed board takes
    exactly the captured piece off the board: the number of pieces falls
    by one when the move records a capture and stays the same otherwise,
    provided that the destination of a capture made beside the
    destination (en passant) is empty. *)
Theorem makeMove_material (s : GameState) (f t : Position)
        (promo : option PieceType) (r : MoveResult) (m : Move) (s' : GameState) :
  wellFormed (board s) ->
  GameState.makeMove s f t promo = Returns r ->
  move r = Some m -> newState r = Some s' ->
  (forall c, capturedPiece m = Some c -> position c <> t ->
             Board.getPiece (board s) t = None) ->
  (List.length (Board.getAllPieces (board s'))
   + (if Move.isCapture m then 1 else 0)
   = List.length (Board.getAllPieces (board s)))%nat.
Proof.
  intros W R M N Free. pose proof (move_success _ _ _ _ _ _ R M) as S.
  destruct (makeMove_inv _ _ _ _ _ R S)
    as (p & found & m0 & b' & s0 & G & _ & Fin & Ft & K & AB & _ & Bs & M0 & N0).
  assert (m0 = m) by congruence. assert (s0 = s') by congruence. subst m0 s0.
  rewrite Bs. clear Bs R M N S M0 N0.
  destruct (legal_move_cases _ _ _ _ _ W G Fin) as (Ff & Pf & Prf & Ntf & Cases).
  rewrite Ft in Ntf.
  unfold GameState.applyToBoard in AB. rewrite (clone_eq _ W) in AB.
  assert (Hc : forall cap, capturedPiece found = cap ->
                 capturedPiece m = cap ->
                 match cap with
                 | Some c => Board.getPiece (board s) (position c) = Some c
                             /\ position c <> f
                             /\ (position c = t \/ Board.getPiece (board s) t = None)
                 | None => Board.getPiece (board s) t = None
                 end).
  { intros cap Ec Em.
    destruct Cases as [(_ & Cp & _) | [(side & E & _ & CT) | (_ & _ & _ & c & Cc & _ & _ & Gc & N1 & N2 & _)]].
    - rewrite Ft in Cp. rewrite Ec in Cp. destruct cap as [c|]; [|now symmetry].
      symmetry in Cp. pose proof (located _ _ _ W Cp) as Pc. rewrite Pc.
      repeat split; [assumption | congruence | now left].
    - rewrite E in Ec. simpl in Ec. subst cap.
      destruct (castlingTest_facts _ _ _ CT) as (_ & _ & _ & _ & D & _).
      rewrite <- Ft, E. simpl. rewrite (located _ _ _ W G) in D.
      now rewrite (located _ _ _ W G).
    - rewrite Cc in Ec. subst cap. rewrite Ft in N1.
      repeat split; [assumption | assumption | right].
      now apply (Free c Em). }
  destruct K as [[B ->] | [B (pt & -> & ->)]].
  - specialize (Hc _ eq_refl eq_refl).
    destruct Cases as [(Sp & _) | [(side & E & Kg & CT) | (Sp & _ & _ & c & Cc & _ & _ & _ & N1 & _)]].
    + unfold Move.isCastling, Move.isEnPassant, Move.isPromotion in AB.
      rewrite Sp in AB. simpl in AB. injection AB as <-.
      unfold GameRules.applyMove, Move.isCapture. rewrite Ff, Ft.
      apply (count_after_move (board s) f t p); try assumption.
      simpl. congruence.
    + rewrite E in AB |- *. destruct side; simpl in AB; injection AB as <-;
        unfold Move.isCapture; simpl; rewrite Nat.add_0_r;
        rewrite <- (located _ _ _ W G) in G;
        now apply applyCastling_count.
    + unfold Move.isCastling, Move.isEnPassant in AB.
      rewrite Sp in AB. simpl in AB. injection AB as <-.
      rewrite (applyEnPassant_applyMove _ _ c Cc N1).
      unfold GameRules.applyMove, Move.isCapture. rewrite Ff, Ft.
      apply (count_after_move (board s) f t p); try assumption.
      simpl. congruence.
  - specialize (Hc _ eq_refl eq_refl).
    pose proof (isBackRank_pawn _ _ B) as Pw.
    unfold Move.isCastling, Move.isEnPassant, Move.isPromotion in AB. simpl in AB.
    unfold GameState.applyPromotion, Piece.promote in AB. simpl in AB.
    rewrite Pw in AB. simpl in AB.
    destruct (PieceType_eqb pt Pawn || PieceType_eqb pt King); [discriminate|].
    injection AB as <-. unfold Move.isCapture. simpl.
    now apply (count_after_move (board s) f t p).
Qed.

Lemma makeMove_material_witness :
  (List.length
     (Board.getAllPieces
        (board (playedState enPassantGame (played enPassantGame e5 d6 None))))
   + (if Move.isCapture (playedMove (played enPassantGame e5 d6 None)) then 1 else 0)
   = List.length (Board.getAllPieces (board enPassantGame)))%nat.
Proof.
  apply (makeMove_material enPassantGame e5 d6 None (played enPassantGame e5 d6 None)).
  - apply create_wellFormed.
  - vm_compute. reflexivity.
  - vm_compute. reflexivity.
  - vm_compute. reflexivity.
  - intros c _ _. vm_compute. reflexivity.
Defined.

(** ** Attacked squares and castling (C4) *)

Lemma candidates_In (p : Piece) (b : Board) (offs : list (Z * Z)) (m : Position) :
  In m (flat_map (PieceRules.keepCandidate p b)
                 (map (fun o => PieceRules.offset (position p) (fst o) (snd o)) offs))
  <-> PositionUtils.isValid m = true /\ notOwn b (color p) m
      /\ exists df dr, In (df, dr) offs /\ m = PieceRules.offset (position p) df dr.
Proof.
  rewrite in_flat_map. split.
  - intros (c & Hin & H). apply keepCandidate_In in H. destruct H as (-> & V & N).
    apply in_map_iff in Hin. destruct Hin as ([df dr] & <- & Hin).
    repeat split; try assumption. now exists df, dr.
  - intros (V & N & df & dr & Hin & ->).
    exists (PieceRules.offset (position p) df dr). split.
    + apply in_map_iff. now exists (df, dr).
    + apply keepCandidate_In. repeat split; assumption.
Qed.

(** The squares that a ray walk collects: those reached over empty squares
    of the board, the last one empty or held by the other colour. *)
Lemma walk_iff (n : nat) (p : Piece) (b : Board) (df dr : Z) :
  forall x y m,
    In m (PieceRules.walk n p b (Board.pos df dr) (Int x) (Int y)) <->
    exists k,
      0 <= k < Z.of_nat n
      /\ m = Board.pos (x + k * df) (y + k * dr)
      /\ PositionUtils.isValid m = true
      /\ notOwn b (color p) m
      /\ forall j, 0 <= j < k ->
                   PositionUtils.isValid (Board.pos (x + j * df) (y + j * dr)) = true
                   /\ Board.getPiece b (Board.pos (x + j * df) (y + j * dr)) = None.
Proof.
  induction n as [|n IH]; intros x y m.
  - simpl. split; [intros [] | intros (k & Hk & _); lia].
  - assert (P0 : Board.pos (x + 0 * df) (y + 0 * dr) = Board.pos x y)
      by (f_equal; lia).
    assert (Far : forall k,
               0 < k ->
               (forall j, 0 <= j < k ->
                          PositionUtils.isValid (Board.pos (x + j * df) (y + j * dr)) = true
                          /\ Board.getPiece b (Board.pos (x + j * df) (y + j * dr)) = None) ->
               PositionUtils.isValid (Board.pos x y) = true
               /\ Board.getPiece b (Board.pos x y) = None).
    { intros k Hk E. rewrite <- P0. apply E. lia. }
    cbn [PieceRules.walk].
    change (Js.geb (Int x) (Int 0) && Js.leb (Int x) (Int 7)
            && Js.geb (Int y) (Int 0) && Js.leb (Int y) (Int 7))
      with (PositionUtils.isValid (Board.pos x y)).
    change {| file := Int x; rank := Int y |} with (Board.pos x y).
    destruct (PositionUtils.isValid (Board.pos x y)) eqn:V.
    2:{ split; [intros [] | intros (k & Hk & -> & Vm & _ & E)].
        destruct (Z.eq_dec k 0) as [-> | Nk].
        - rewrite P0 in Vm. congruence.
        - destruct (Far k ltac:(lia) E). congruence. }
    destruct (Board.getPiece b (Board.pos x y)) as [t|] eqn:G.
    + destruct (negb (Color_eqb (color t) (color p))) eqn:C.
      * split.
        -- intros [<- | []]. exists 0. split; [lia|]. split; [now rewrite P0|].
           split; [exact V|]. split; [|intros j Hj; lia].
           intros t' E. rewrite G in E. injection E as <-.
           apply negb_true_iff in C. intros Hc. apply Color_eqb_eq in Hc. congruence.
        -- intros (k & Hk & -> & _ & _ & E).
           destruct (Z.eq_dec k 0) as [-> | Nk]; [rewrite P0; now left|].
           destruct (Far k ltac:(lia) E). congruence.
      * split; [intros []|]. intros (k & Hk & -> & _ & N & E).
        destruct (Z.eq_dec k 0) as [-> | Nk].
        -- rewrite P0 in N. apply (N t G).
           apply negb_false_iff in C. now apply Color_eqb_eq.
        -- destruct (Far k ltac:(lia) E). congruence.
    + cbn [file rank Board.pos Js.add]. 
      change {| file := Int df; rank := Int dr |} with (Board.pos df dr).
      split.
      * intros [<- | H].
        -- exists 0. split; [lia|]. split; [now rewrite P0|].
           split; [exact V|]. split; [|intros j Hj; lia].
           intros t' E. rewrite G in E. discriminate.
        -- apply IH in H. destruct H as (k & Hk & -> & Vm & N & E).
           exists (k + 1). split; [lia|].
           split; [unfold Board.pos; f_equal; f_equal; lia|].
           split; [exact Vm|]. split; [exact N|].
           intros j Hj. destruct (Z.eq_dec j 0) as [-> | Nj].
           ++ rewrite P0. now split.
           ++ specialize (E (j - 1)).
              replace (x + df + (j - 1) * df) with (x + j * df) in E by lia.
              replace (y + dr + (j - 1) * dr) with (y + j * dr) in E by lia.
              apply E. lia.
      * intros (k & Hk & -> & Vm & N & E).
        destruct (Z.eq_dec k 0) as [-> | Nk]; [left; now rewrite P0|].
        right. apply IH. exists (k - 1). split; [lia|].
        split; [unfold Board.pos; f_equal; f_equal; lia|].
        replace (x + df + (k - 1) * df) with (x + k * df) by lia.
        replace (y + dr + (k - 1) * dr) with (y + k * dr) by lia.
        split; [exact Vm|]. split; [exact N|].
        intros j Hj. specialize (E (j + 1)).
        replace (x + df + j * df) with (x + (j + 1) * df) by lia.
        replace (y + dr + j * dr) with (y + (j + 1) * dr) by lia.
        apply E. lia.
Qed.

Lemma walk_NaN (n : nat) (p : Piece) (b : Board) (dir : Position) (cf cr : number) :
  cf = NaN \/ cr = NaN -> PieceRules.walk n p b dir cf cr = [].
Proof.
  intros H. destruct n as [|n]; [reflexivity|]. cbn [PieceRules.walk].
  destruct H as [-> | ->]; [reflexivity|].
  cbn [Js.geb Js.leb]. now rewrite andb_false_r.
Qed.

Lemma isValid_pos_iff (f r : Z) :
  PositionUtils.isValid (Board.pos f r) = true <-> 0 <= f <= 7 /\ 0 <= r <= 7.
Proof.
  split.
  - intros V. destruct (valid_cases _ V) as (f' & r' & E & Hf & Hr).
    unfold Board.pos in E. injection E as -> ->. now split.
  - intros [Hf Hr]. now apply isValid_pos.
Qed.

Lemma unit_direction (dir : Position) :
  In dir (PieceRules.straightDirections ++ PieceRules.diagonalDirections) ->
  exists df dr,
    dir = Board.pos df dr /\ -1 <= df <= 1 /\ -1 <= dr <= 1 /\ (df <> 0 \/ dr <> 0).
Proof.
  simpl. intros H.
  repeat (destruct H as [<- | H];
          [eexists; eexists; split; [reflexivity | lia]|]).
  destruct H.
Qed.

(** The squares that the rays of a piece collect. *)
Lemma rays_iff (dirs : list Position) (p : Piece) (b : Board) (m : Position) :
  (forall dir, In dir dirs ->
               In dir (PieceRules.straightDirections ++ PieceRules.diagonalDirections)) ->
  In m (PieceRules.rays dirs p b) <->
  PositionUtils.isValid m = true /\ notOwn b (color p) m
  /\ exists dir k,
      In dir dirs /\ 1 <= k /\ m = stepsFrom (position p) dir k
      /\ forall j, 1 <= j < k ->
                   PositionUtils.isValid (stepsFrom (position p) dir j) = true
                   /\ Board.getPiece b (stepsFrom (position p) dir j) = None.
Proof.
  intros D. unfold PieceRules.rays. rewrite in_flat_map. split.
  - intros (dir & Hin & H).
    destruct (unit_direction dir (D dir Hin)) as (df & dr & -> & _).
    destruct (position p) as [[f|] [r|]] eqn:P; cbn [file rank Board.pos Js.add] in H;
      try (rewrite walk_NaN in H by tauto; destruct H).
    change {| file := Int df; rank := Int dr |} with (Board.pos df dr) in H.
    apply walk_iff in H. destruct H as (k & Hk & -> & V & N & E).
    split; [exact V|]. split; [exact N|].
    exists (Board.pos df dr), (k + 1). split; [exact Hin|]. split; [lia|].
    unfold stepsFrom. cbn [file rank Board.pos Js.add Js.mul].
    split; [unfold Board.pos; f_equal; f_equal; lia|].
    intros j Hj. specialize (E (j - 1)).
    replace (f + df + (j - 1) * df) with (f + j * df) in E by lia.
    replace (r + dr + (j - 1) * dr) with (r + j * dr) in E by lia.
    apply E. lia.
  - intros (V & N & dir & k & Hin & Hk & Em & E).
    exists dir. split; [exact Hin|].
    destruct (unit_direction dir (D dir Hin)) as (df & dr & -> & Hdf & Hdr & Nz).
    destruct (position p) as [[f|] [r|]] eqn:P;
      unfold stepsFrom in Em, E; cbn [file rank Board.pos Js.add Js.mul] in Em, E;
      try (rewrite Em in V; unfold PositionUtils.isValid in V; cbn in V;
           rewrite ?andb_false_r in V; discriminate).
    cbn [file rank Board.pos Js.add].
    change {| file := Int df; rank := Int dr |} with (Board.pos df dr).
    assert (V1 : PositionUtils.isValid (Board.pos (f + 1 * df) (r + 1 * dr)) = true).
    { destruct (Z.eq_dec k 1) as [-> | Nk]; [now rewrite Em in V|].
      apply (E 1). lia. }
    assert (Vk : PositionUtils.isValid (Board.pos (f + k * df) (r + k * dr)) = true)
      by now rewrite Em in V.
    apply isValid_pos_iff in V1, Vk.
    apply walk_iff. exists (k - 1). split.
    { unfold PieceRules.rayFuel. nia. }
    split; [rewrite Em; unfold Board.pos; f_equal; f_equal; lia|].
    split; [exact V|]. split; [exact N|].
    intros j Hj. specialize (E (j + 1)).
    replace (f + df + j * df) with (f + (j + 1) * df) by lia.
    replace (r + dr + j * dr) with (r + (j + 1) * dr) by lia.
    apply E. lia.
Qed.

Lemma rays_app (d1 d2 : list Position) (p : Piece) (b : Board) :
  PieceRules.rays (d1 ++ d2) p b = PieceRules.rays d1 p b ++ PieceRules.rays d2 p b.
Proof. unfold PieceRules.rays. apply flat_map_app. Qed.

(** The pseudo-legal moves of a piece other than a pawn are the squares of
    the board that it attacks and that hold no piece of its colour. *)
Lemma getPossibleMoves_attacks (p : Piece) (b : Board) (m : Position) :
  ptype p <> Pawn ->
  In m (PieceRules.getPossibleMoves p b) <->
  PositionUtils.isValid m = true /\ notOwn b (color p) m /\ attacks b p m.
Proof.
  intros T. unfold PieceRules.getPossibleMoves, attacks.
  destruct (ptype p) eqn:Tp; [contradiction| | | | |]; cbn [leap slidingDirections].
  - unfold PieceRules.knightMoves. cbv zeta.
    rewrite (candidates_In p b
               [(2, 1); (2, -1); (-2, 1); (-2, -1); (1, 2); (1, -2); (-1, 2); (-1, -2)]).
    split; intros (V & N & df & dr & H & E); repeat split; try assumption;
      exists df, dr; (split; [now apply knight_offsets | assumption]).
  - unfold PieceRules.getDiagonalMoves. apply rays_iff.
    intros dir H. apply in_or_app. now right.
  - unfold PieceRules.getStraightMoves. apply rays_iff.
    intros dir H. apply in_or_app. now left.
  - unfold PieceRules.queenMoves, PieceRules.getStraightMoves, PieceRules.getDiagonalMoves.
    rewrite <- rays_app. apply rays_iff. tauto.
  - unfold PieceRules.kingMoves. cbv zeta.
    rewrite (candidates_In p b
               [(1, 0); (-1, 0); (0, 1); (0, -1); (1, 1); (1, -1); (-1, 1); (-1, -1)]).
    split; intros (V & N & df & dr & H & E); repeat split; try assumption;
      exists df, dr; (split; [now apply king_offsets | assumption]).
Qed.

Lemma eqb_Int (a : number) (z : Z) : Js.eqb a (Int z) = true <-> a = Int z.
Proof.
  destruct a as [x|]; simpl; [|split; discriminate].
  rewrite Z.eqb_eq. split; congruence.
Qed.

(** A pseudo-legal pawn move is a capture on one of the two squares
    diagonally ahead, or a step onto an empty square straight ahead. *)
Lemma pawnMoves_cases (p : Piece) (b : Board) (m : Position) :
  In m (PieceRules.pawnMoves p b) ->
  (In m (diagonalForward p) /\ Board.isOpponentPiece b m (color p) = true)
  \/ ((m = ahead p (forward (color p))
       \/ (rank (position p) = Int (homeRank (color p))
           /\ m = ahead p (2 * forward (color p))))
      /\ Board.getPiece b m = None).
Proof.
  unfold PieceRules.pawnMoves, diagonalForward, ahead.
  rewrite direction_forward, startRank_homeRank. cbv zeta. intros H.
  apply in_app_or in H. destruct H as [H | H].
  - right.
    destruct (PositionUtils.isValid _ && Board.isEmpty b _) eqn:C in H; [|destruct H].
    apply andb_prop in C. destruct C as [_ E]. apply isEmpty_true in E.
    destruct H as [<- | H]; [split; [now left | exact E]|].
    destruct (Js.eqb _ _) eqn:S in H; [|destruct H].
    destruct (Board.isEmpty b _) eqn:E2 in H; [|destruct H].
    destruct H as [<- | []]. apply isEmpty_true in E2. apply eqb_Int in S.
    split; [right; split; [exact S|] | exact E2].
    destruct (rank (position p)); reflexivity.
  - left. apply in_flat_map in H. destruct H as (cfile & Hin & H).
    destruct (PositionUtils.isValid _ && Board.isOpponentPiece b _ (color p)) eqn:C in H;
      [|destruct H].
    destruct H as [<- | []]. apply andb_prop in C. destruct C as [_ O].
    split; [|exact O].
    destruct Hin as [<- | [<- | []]]; [now left | right; now left].
Qed.

(** A pawn captures on a square of the board diagonally ahead of it that
    holds a piece of the other colour. *)
Lemma pawn_capture_In (p : Piece) (b : Board) (m : Position) :
  In m (diagonalForward p) -> PositionUtils.isValid m = true ->
  Board.isOpponentPiece b m (color p) = true ->
  In m (PieceRules.pawnMoves p b).
Proof.
  unfold PieceRules.pawnMoves, diagonalForward. cbv zeta. intros H V O.
  apply in_or_app. right. apply in_flat_map.
  destruct H as [<- | [<- | []]].
  - exists (Js.sub (file (position p)) (Int 1)). split; [now left|].
    rewrite V, O. now left.
  - exists (Js.add (file (position p)) (Int 1)). split; [right; now left|].
    rewrite V, O. now left.
Qed.

Lemma opposite_iff (a c : Color) : a = ColorUtils.opposite c <-> a <> c.
Proof.
  destruct a, c; cbv; split; intros H;
    first [reflexivity | discriminate | exfalso; now apply H].
Qed.

Lemma isSquareAttacked_true (b : Board) (square : Position) (c : Color) :
  GameRules.isSquareAttacked b square c = true <->
  exists p m,
    In p (Board.getAllPieces b) /\ color p <> c
    /\ In m (PieceRules.getPossibleMoves p b)
    /\ PositionUtils.equals m square = true.
Proof.
  unfold GameRules.isSquareAttacked, Board.getPiecesByColor. cbv zeta.
  rewrite existsb_exists. split.
  - intros (p & Hp & H). apply filter_In in Hp. destruct Hp as [Hp C].
    apply existsb_exists in H. destruct H as (m & Hm & E).
    exists p, m. split; [exact Hp|]. split; [|now split].
    apply opposite_iff. now apply Color_eqb_eq.
  - intros (p & m & Hp & C & Hm & E). exists p. split.
    + apply filter_In. split; [exact Hp|]. apply Color_eqb_eq. now apply opposite_iff.
    + apply existsb_exists. now exists m.
Qed.

(** On a square that holds no piece of the opponent and, when it is empty,
    has no pawn of the opponent before it, the attack test of the code
    agrees with the attacks of the opponent's pieces. *)
Lemma isSquareAttacked_attacked (b : Board) (square : Position) (c : Color) :
  (forall t, Board.getPiece b square = Some t -> color t = c) ->
  (Board.getPiece b square = None ->
   forall p, In p (Board.getAllPieces b) -> ptype p = Pawn -> color p <> c ->
             ~ pawnBefore p square) ->
  GameRules.isSquareAttacked b square c = true <-> attackedByOpponent b square c.
Proof.
  intros Own Away. rewrite isSquareAttacked_true. unfold attackedByOpponent. split.
  - intros (p & m & Hp & C & Hm & E). apply equals_eq in E. subst m.
    destruct (getPossibleMoves_In _ _ _ Hm) as [V _].
    split; [exact V|]. exists p. split; [exact Hp|]. split; [exact C|].
    destruct (PieceType_eqb (ptype p) Pawn) eqn:T.
    + apply PieceType_eqb_eq in T. unfold attacks. rewrite T.
      unfold PieceRules.getPossibleMoves in Hm. rewrite T in Hm.
      destruct (pawnMoves_cases _ _ _ Hm) as [[D _] | [F G]]; [exact D|].
      exfalso. apply (Away G p Hp T C). unfold pawnBefore. tauto.
    + apply PieceType_eqb_neq in T. now apply getPossibleMoves_attacks in Hm.
  - intros (V & p & Hp & C & A). exists p, square.
    split; [exact Hp|]. split; [exact C|]. split; [|now apply equals_refl_valid].
    destruct (PieceType_eqb (ptype p) Pawn) eqn:T.
    + apply PieceType_eqb_eq in T. unfold attacks in A. rewrite T in A.
      unfold PieceRules.getPossibleMoves. rewrite T.
      apply pawn_capture_In; [exact A | exact V |].
      apply isOpponentPiece_true.
      destruct (Board.getPiece b square) as [t|] eqn:G.
      * exists t. split; [reflexivity|]. rewrite (Own t eq_refl). congruence.
      * exfalso. apply (Away eq_refl p Hp T C). now left.
    + apply PieceType_eqb_neq in T. apply getPossibleMoves_attacks; [exact T|].
      split; [exact V|]. split; [|exact A].
      intros t G. rewrite (Own t G). congruence.
Qed.

(** The king's own square, held by the king. *)
Lemma castling_safe_king (king : Piece) (b : Board) :
  file (position king) = Int 4 ->
  Board.getPiece b (position king) = Some king ->
  GameRules.isSquareAttacked b (GameRules.onRank 4 (rank (position king))) (color king)
  = false
  <-> ~ attackedByOpponent b (GameRules.onRank 4 (rank (position king))) (color king).
Proof.
  intros F G.
  assert (E : GameRules.onRank 4 (rank (position king)) = position king).
  { unfold GameRules.onRank. rewrite <- F. now destruct (position king). }
  rewrite E, <- isSquareAttacked_attacked.
  - destruct (GameRules.isSquareAttacked b (position king) (color king));
      split; congruence.
  - intros t H. rewrite G in H. now injection H as <-.
  - intros H. congruence.
Qed.

(** An empty square that the king passes through or lands on. *)
Lemma castling_safe_transit (side : CastlingSide) (king : Piece) (b : Board) (f : Z) :
  file (position king) = Int 4 -> pawnsAway side king b ->
  fromTo 4 (destinationFile side) f -> f <> 4 ->
  Board.isEmpty b (GameRules.onRank f (rank (position king))) = true ->
  GameRules.isSquareAttacked b (GameRules.onRank f (rank (position king))) (color king)
  = false
  <-> ~ attackedByOpponent b (GameRules.onRank f (rank (position king))) (color king).
Proof.
  intros F PA B N E. apply isEmpty_true in E.
  rewrite <- isSquareAttacked_attacked.
  - destruct (GameRules.isSquareAttacked b _ (color king)); split; congruence.
  - intros t H. congruence.
  - intros _ p Hp T C. now apply (PA p 4 f).
Qed.

Lemma castlingTest_spec (side : CastlingSide) (king : Piece) (b : Board) :
  file (position king) = Int 4 -> hasMoved king = false ->
  Board.getPiece b (position king) = Some king -> pawnsAway side king b ->
  castlingTest side king b = true <-> castlingSpec side king b.
Proof.
  intros F M G PA. unfold castlingTest, castlingSpec. cbv zeta.
  set (r := rank (position king)).
  assert (K : GameRules.isSquareAttacked b (GameRules.onRank 4 r) (color king) = false
              <-> ~ attackedByOpponent b (GameRules.onRank 4 r) (color king))
    by now apply castling_safe_king.
  assert (Tr : forall f,
             fromTo 4 (destinationFile side) f -> f <> 4 ->
             Board.isEmpty b (GameRules.onRank f r) = true ->
             GameRules.isSquareAttacked b (GameRules.onRank f r) (color king) = false
             <-> ~ attackedByOpponent b (GameRules.onRank f r) (color king))
    by (intros f; now apply castling_safe_transit).
  split.
  - destruct (Board.getPiece b (GameRules.onRank (rookFile side) r)) as [rook|];
      [|discriminate].
    intros H. split; [assumption|]. split.
    + exists rook. split; [reflexivity|].
      destruct side; repeat (apply andb_prop in H; destruct H as [H ?]);
        (split; [now apply PieceType_eqb_eq | now apply negb_true_iff]).
    + destruct side; repeat (apply andb_prop in H; destruct H as [H ?]);
        repeat match goal with
               | Hn : negb _ = true |- _ => apply negb_true_iff in Hn
               end;
        (split; intros kf f Ek B; rewrite F in Ek; injection Ek as <-;
         unfold strictlyBetween, fromTo in B; simpl in B;
         [assert (C : f = 5 \/ f = 6 \/ f = 1 \/ f = 2 \/ f = 3) by lia;
          repeat (destruct C as [-> | C]); try subst f; solve [assumption | lia]
         |assert (C : f = 4 \/ f = 5 \/ f = 6 \/ f = 3 \/ f = 2) by lia;
          destruct C as [-> | C]; [now apply K|];
          apply Tr; [unfold fromTo; simpl; lia | lia | |];
          repeat (destruct C as [-> | C]); try subst f; solve [assumption | lia]]).
  - intros (_ & (rook & Gr & T & RM) & E & S). rewrite Gr, T, RM. simpl.
    assert (Free : forall f, strictlyBetween 4 (rookFile side) f ->
                             Board.isEmpty b (GameRules.onRank f r) = true)
      by (intros f; now apply E).
    assert (SafeK : GameRules.isSquareAttacked b (GameRules.onRank 4 r) (color king) = false).
    { apply K. apply (S 4 4 F). unfold fromTo. destruct side; simpl; lia. }
    assert (Safe : forall f, fromTo 4 (destinationFile side) f -> f <> 4 ->
                             strictlyBetween 4 (rookFile side) f ->
                             GameRules.isSquareAttacked b (GameRules.onRank f r) (color king)
                             = false).
    { intros f B N Bt. apply Tr; [exact B | exact N | now apply Free |]. now apply (S 4 f). }
    rewrite SafeK.
    destruct side; unfold strictlyBetween, fromTo in *; simpl in *.
    + rewrite (Free 5), (Free 6), (Safe 5), (Safe 6) by lia. reflexivity.
    + rewrite (Free 1), (Free 2), (Free 3), (Safe 3), (Safe 2) by lia. reflexivity.
Qed.

(** C4 as amended.  For a king that stands on the board on file 4 (the
    e-file), with no pawn of the opponent before a square it passes
    through or lands on, [getCastlingMoves] returns a castling move for a
    side exactly when the king has not moved, the corner of the king's rank
    on that side holds an unmoved rook, the squares strictly between king
    and rook are empty and no square from the king's own to its destination
    is attacked by a piece of the opponent; that move is then the king's
    move to file 6 (kingside) or 2 (queenside). *)
Theorem getCastlingMoves_spec (side : CastlingSide) (king : Piece) (b : Board) :
  ptype king = King -> file (position king) = Int 4 ->
  Board.getPiece b (position king) = Some king ->
  pawnsAway side king b ->
  ((exists m, In m (GameRules.getCastlingMoves king b) /\ specialMove m = castlingTag side)
   <-> castlingSpec side king b)
  /\ (forall m, In m (GameRules.getCastlingMoves king b) ->
                specialMove m = castlingTag side -> m = castlingMove side king).
Proof.
  intros T F G PA. split; [split|].
  - intros (m & H). apply getCastlingMoves_In in H.
    destruct H as (_ & _ & M & C). now apply castlingTest_spec.
  - intros S. exists (castlingMove side king). apply getCastlingMoves_In.
    split; [reflexivity|]. split; [assumption|].
    assert (M : hasMoved king = false) by apply S.
    split; [assumption|]. now apply castlingTest_spec.
  - intros m H E. now apply (getCastlingMoves_In side king b m).
Qed.

(** White castles kingside in [castlingPosition]: the black pawns on e7
    and f7 stand far from the first rank. *)
Lemma getCastlingMoves_spec_witness :
  ((exists m, In m (GameRules.getCastlingMoves whiteKingE1 castlingPosition)
              /\ specialMove m = castlingTag Kingside)
   <-> castlingSpec Kingside whiteKingE1 castlingPosition)
  /\ (forall m, In m (GameRules.getCastlingMoves whiteKingE1 castlingPosition) ->
                specialMove m = castlingTag Kingside -> m = castlingMove Kingside whiteKingE1).
Proof.
  apply (getCastlingMoves_spec Kingside whiteKingE1 castlingPosition).
  - reflexivity.
  - reflexivity.
  - reflexivity.
  - intros p kf f Hp T C [= <-] B N. vm_compute in Hp.
    unfold fromTo in B. simpl in B.
    assert (Hf : f = 5 \/ f = 6) by lia.
    unfold pawnBefore, diagonalForward, ahead.
    destruct Hp as [<- | [<- | [<- | [<- | [<- | []]]]]]; try discriminate T;
      destruct Hf as [-> | ->]; vm_compute; intros [[H | [H | []]] | [H | [_ H]]];
      discriminate H.
Defined.

(** C4 fails as stated: the code tests the files next to file 4 whatever
    the king's file, so the king on d1 castles across the bishop on e1. *)
Lemma getCastlingMoves_king_off_home :
  (exists m, In m (GameRules.getCastlingMoves whiteKingD1 kingOffHome)
             /\ specialMove m = castlingTag Kingside)
  /\ ~ castlingSpec Kingside whiteKingD1 kingOffHome.
Proof.
  split.
  - exists (castlingMove Kingside whiteKingD1). split; [|reflexivity].
    vm_compute. left. reflexivity.
  - intros (_ & _ & E & _).
    specialize (E 3 4 eq_refl). unfold strictlyBetween in E. simpl in E.
    assert (H : Board.isEmpty kingOffHome (GameRules.onRank 4 (Int 0)) = true)
      by (apply E; lia).
    vm_compute in H. discriminate.
Qed.

(** The hypothesis on the opponent's pawns cannot be dropped: on
    [castlingIntoCheck] the code castles although the black pawn on h2
    attacks g1. *)
Lemma castling_across_pawn_guard :
  In (castlingMove Kingside whiteKingE1)
     (GameRules.getCastlingMoves whiteKingE1 castlingIntoCheck)
  /\ attackedByOpponent castlingIntoCheck (Board.pos 6 0) White
  /\ ~ castlingSpec Kingside whiteKingE1 castlingIntoCheck
  /\ ~ pawnsAway Kingside whiteKingE1 castlingIntoCheck.
Proof.
  assert (A : attackedByOpponent castlingIntoCheck (Board.pos 6 0) White).
  { split; [reflexivity|]. exists (mkPiece Pawn Black (Board.pos 7 1) true).
    split; [vm_compute; tauto|]. split; [discriminate|].
    unfold attacks. simpl. left. reflexivity. }
  split; [vm_compute; tauto|]. split; [exact A|]. split.
  - intros (_ & _ & _ & S). apply (S 4 6 eq_refl); [unfold fromTo; simpl; lia|].
    exact A.
  - intros PA.
    apply (PA (mkPiece Pawn Black (Board.pos 7 1) true) 4 6);
      try reflexivity; try discriminate.
    + vm_compute. tauto.
    + unfold fromTo. simpl. lia.
    + left. simpl. left. reflexivity.
Qed.
